(** * KeyAuth license backend: a shallow embedding of [api/auth.js]

    The development follows the source file top to bottom:

    - [Js]       the JavaScript values a request body carries, with the
                 coercions the handler relies on (truthiness, [===],
                 [ToString], [parseInt], [ToNumber]);
    - [Json]     [JSON.stringify] and [JSON.parse] on the arrays kept in the
                 [hwid] column, with their round trip;
    - [Db]       the three relations of [initializeTables] and the SQL
                 statements the handler issues;
    - [Api]      [checkIfAdmin], [getUserAppCount], [checkAppPermission],
                 [generateKey], [jsonResponse] and [handler];
    - the properties of the key lifecycle, the device binding and the
      permission resolver.

    Modelled fragment.  A string is a sequence of one-byte characters, none
    of them NUL.  A field of the request body is a JSON primitive or absent;
    a number is an integer that the Number type holds exactly, as every
    integer of magnitude up to 2^53 is, and of magnitude below 10^21, where
    its text is its decimal numeral (fractions, exponents and the infinite
    values are not represented, also not in a string that is read as a
    number).  The connection pool is up.  The [id SERIAL] columns are never
    read by the handler and are left out; a timestamp is a number of
    milliseconds since the epoch of [Date], and the process and the database
    keep time in UTC.  One clock reading is used per request for
    [Date.now()] and [new Date()], and one for the database's
    [CURRENT_TIMESTAMP]. *)

From Stdlib Require Import ZArith List String Ascii Bool Lia.
From Stdlib Require Import Sorting.Permutation Sorting.Sorted.
From Stdlib Require Decimal DecimalString DecimalZ DecimalPos DecimalFacts.
Import ListNotations.

Local Open Scope string_scope.
Local Open Scope Z_scope.

(* ================================================================== *)
(** ** JavaScript values *)

Module Js.

Inductive jsval : Type :=
| JUndefined
| JNull
| JBool (b : bool)
| JInt (z : Z)
| JStr (s : string).

(** [a === b]; on these values [Array.prototype.includes] (SameValueZero)
    compares the same way. *)
Definition strict_eq (a b : jsval) : bool :=
  match a, b with
  | JUndefined, JUndefined => true
  | JNull, JNull => true
  | JBool x, JBool y => Bool.eqb x y
  | JInt x, JInt y => Z.eqb x y
  | JStr x, JStr y => String.eqb x y
  | _, _ => false
  end.

(** ToBoolean: what [!v], [a || b] and [c ? x : y] test. *)
Definition truthy (v : jsval) : bool :=
  match v with
  | JUndefined | JNull => false
  | JBool b => b
  | JInt z => negb (Z.eqb z 0)
  | JStr s => negb (String.eqb s "")
  end.

(** [a || b] *)
Definition or_else (a b : jsval) : jsval := if truthy a then a else b.

Definition string_of_Z (z : Z) : string := DecimalString.NilZero.string_of_int (Z.to_int z).

Definition ToString (v : jsval) : string :=
  match v with
  | JUndefined => "undefined"
  | JNull => "null"
  | JBool true => "true"
  | JBool false => "false"
  | JInt z => string_of_Z z
  | JStr s => s
  end.

(** StrWhiteSpaceChar among one-byte characters: TAB, LF, VT, FF, CR, SP,
    NBSP. *)
Definition is_ws (c : ascii) : bool :=
  let n := nat_of_ascii c in
  ((9 <=? n) && (n <=? 13))%nat || (n =? 32)%nat || (n =? 160)%nat.

Fixpoint skip_ws (s : string) : string :=
  match s with
  | String c r => if is_ws c then skip_ws r else s
  | EmptyString => s
  end.

Definition digit_val (radix : Z) (c : ascii) : option Z :=
  let n := Z.of_nat (nat_of_ascii c) in
  let d := if (48 <=? n) && (n <=? 57) then Some (n - 48)
           else if (97 <=? n) && (n <=? 122) then Some (n - 87)
           else if (65 <=? n) && (n <=? 90) then Some (n - 55)
           else None in
  match d with
  | Some v => if v <? radix then Some v else None
  | None => None
  end.

(** The longest prefix of digits in [radix], folded to its value; [acc] is
    [None] until a digit has been seen.  Returns the value and the rest. *)
Fixpoint read_digits (radix : Z) (s : string) (acc : option Z)
  : option Z * string :=
  match s with
  | String c r =>
      match digit_val radix c with
      | Some d =>
          read_digits radix r
            (Some (match acc with Some a => a * radix + d | None => d end))
      | None => (acc, s)
      end
  | EmptyString => (acc, s)
  end.

Definition strip_sign (s : string) : Z * string :=
  match s with
  | String "-" r => (-1, r)
  | String "+" r => (1, r)
  | _ => (1, s)
  end.

Definition strip_hex_prefix (s : string) : option string :=
  match s with
  | String "0" (String "x" r) => Some r
  | String "0" (String "X" r) => Some r
  | _ => None
  end.

(** [parseInt(v)] with no radix argument; [None] is NaN. *)
Definition parseInt (v : jsval) : option Z :=
  let '(sign, s) := strip_sign (skip_ws (ToString v)) in
  let '(radix, s) := match strip_hex_prefix s with
                     | Some r => (16, r)
                     | None => (10, s)
                     end in
  match fst (read_digits radix s None) with
  | Some n => Some (sign * n)
  | None => None
  end.

Definition rev_string (s : string) : string :=
  string_of_list_ascii (List.rev (list_ascii_of_string s)).

Definition trim (s : string) : string :=
  rev_string (skip_ws (rev_string (skip_ws s))).

(** The radix of a literal that starts with [0x], [0o] or [0b]. *)
Definition radix_prefix (s : string) : option (Z * string) :=
  match s with
  | String "0" (String "x" r) | String "0" (String "X" r) => Some (16, r)
  | String "0" (String "o" r) | String "0" (String "O" r) => Some (8, r)
  | String "0" (String "b" r) | String "0" (String "B" r) => Some (2, r)
  | _ => None
  end.

(** StringToNumber on integer literals; [None] is NaN. *)
Definition StringToNumber (s : string) : option Z :=
  let t := trim s in
  match t with
  | EmptyString => Some 0
  | _ =>
      match radix_prefix t with
      | Some (radix, r) =>
          match read_digits radix r None with
          | (Some n, EmptyString) => Some n
          | _ => None
          end
      | None =>
          let '(sign, r) := strip_sign t in
          match read_digits 10 r None with
          | (Some n, EmptyString) => Some (sign * n)
          | _ => None
          end
      end
  end.

(** ToNumber, as the operand of [*]; [None] is NaN. *)
Definition ToNumber (v : jsval) : option Z :=
  match v with
  | JUndefined => None
  | JNull => Some 0
  | JBool b => Some (if b then 1 else 0)
  | JInt z => Some z
  | JStr s => StringToNumber s
  end.

(** [needle] occurs in [s]: [String.prototype.includes]. *)
Fixpoint str_includes (needle s : string) : bool :=
  String.prefix needle s ||
  match s with
  | String _ r => str_includes needle r
  | EmptyString => false
  end.

End Js.
Export Js.

(* ================================================================== *)
(** ** JSON text of the [hwid] column *)

Module Json.

Definition dquote : ascii := ascii_of_nat 34.
Definition backslash : ascii := ascii_of_nat 92.

Definition hex_char (n : nat) : ascii :=
  ascii_of_nat (if (n <? 10)%nat then 48 + n else 87 + n).

(** QuoteJSONString on one character: the two-character escapes, [\u00xx]
    for the other control characters, the character itself otherwise. *)
Definition quote_unit (c : ascii) : string :=
  let n := nat_of_ascii c in
  let esc (e : ascii) := String backslash (String e EmptyString) in
  if (n =? 8)%nat then esc "b"%char
  else if (n =? 9)%nat then esc "t"%char
  else if (n =? 10)%nat then esc "n"%char
  else if (n =? 12)%nat then esc "f"%char
  else if (n =? 13)%nat then esc "r"%char
  else if (n =? 34)%nat then esc dquote
  else if (n =? 92)%nat then esc backslash
  else if (n <? 32)%nat then
    String backslash
      (String "u"%char (String "0"%char (String "0"%char
         (String (hex_char (n / 16)) (String (hex_char (n mod 16)) EmptyString)))))
  else String c EmptyString.

Fixpoint quote_units (s : string) : string :=
  match s with
  | String c r => quote_unit c ++ quote_units r
  | EmptyString => EmptyString
  end.

Definition quote (s : string) : string :=
  String dquote (quote_units s ++ String dquote EmptyString).

(** SerializeJSONProperty for an array element: [undefined] is written as
    [null]. *)
Definition stringify_elem (v : jsval) : string :=
  match v with
  | JUndefined | JNull => "null"
  | JBool true => "true"
  | JBool false => "false"
  | JInt z => string_of_Z z
  | JStr s => quote s
  end.

(** [JSON.stringify(hwids)] for an array of primitives. *)
Definition stringify (l : list jsval) : string :=
  "[" ++ String.concat "," (map stringify_elem l) ++ "]".

(** JSON whitespace: TAB, LF, CR, SP. *)
Definition is_json_ws (c : ascii) : bool :=
  let n := nat_of_ascii c in
  (n =? 9)%nat || (n =? 10)%nat || (n =? 13)%nat || (n =? 32)%nat.

Fixpoint skip_json_ws (s : string) : string :=
  match s with
  | String c r => if is_json_ws c then skip_json_ws r else s
  | EmptyString => s
  end.

Definition hex4 (a b c d : ascii) : option Z :=
  match digit_val 16 a, digit_val 16 b, digit_val 16 c, digit_val 16 d with
  | Some w, Some x, Some y, Some z => Some (((w * 16 + x) * 16 + y) * 16 + z)
  | _, _, _, _ => None
  end.

Definition unescape (e : ascii) : option ascii :=
  let n := nat_of_ascii e in
  if (n =? 34)%nat then Some dquote
  else if (n =? 92)%nat then Some backslash
  else if (n =? 47)%nat then Some "/"%char
  else if (n =? 98)%nat then Some (ascii_of_nat 8)
  else if (n =? 102)%nat then Some (ascii_of_nat 12)
  else if (n =? 110)%nat then Some (ascii_of_nat 10)
  else if (n =? 114)%nat then Some (ascii_of_nat 13)
  else if (n =? 116)%nat then Some (ascii_of_nat 9)
  else None.

(** The characters of a string literal after its opening quote, and the text
    after its closing quote.  An escape above [\u00ff] names a character the
    one-byte strings do not have. *)
Fixpoint parse_chars (s : string) : option (string * string) :=
  match s with
  | EmptyString => None
  | String c r =>
      if Ascii.eqb c dquote then Some (EmptyString, r)
      else if Ascii.eqb c backslash then
        match r with
        | String "u" (String h1 (String h2 (String h3 (String h4 r')))) =>
            match hex4 h1 h2 h3 h4 with
            | Some n =>
                if n <? 256 then
                  match parse_chars r' with
                  | Some (t, rest) =>
                      Some (String (ascii_of_nat (Z.to_nat n)) t, rest)
                  | None => None
                  end
                else None
            | None => None
            end
        | String e r' =>
            match unescape e, parse_chars r' with
            | Some ch, Some (t, rest) => Some (String ch t, rest)
            | _, _ => None
            end
        | EmptyString => None
        end
      else if (nat_of_ascii c <? 32)%nat then None
      else
        match parse_chars r with
        | Some (t, rest) => Some (String c t, rest)
        | None => None
        end
  end.

(** [s] without its prefix [p]. *)
Fixpoint strip_prefix (p s : string) : option string :=
  match p, s with
  | EmptyString, _ => Some s
  | String a p', String b s' =>
      if Ascii.eqb a b then strip_prefix p' s' else None
  | String _ _, EmptyString => None
  end.

Definition starts_fraction (s : string) : bool :=
  match s with
  | String "." _ | String "e" _ | String "E" _ => true
  | _ => false
  end.

(** An integer literal: an optional minus, then [0] or digits that do not
    start with [0]. *)
Definition parse_int (s : string) : option (jsval * string) :=
  let '(neg, s1) := match s with
                    | String "-" r => (true, r)
                    | _ => (false, s)
                    end in
  let leading_zero := match s1 with
                      | String "0" (String c _) =>
                          match digit_val 10 c with
                          | Some _ => true
                          | None => false
                          end
                      | _ => false
                      end in
  if leading_zero then None
  else
    match read_digits 10 s1 None with
    | (Some n, rest) =>
        if starts_fraction rest then None
        else Some (JInt (if neg then - n else n), rest)
    | (None, _) => None
    end.

Definition parse_value (s : string) : option (jsval * string) :=
  match s with
  | String c r =>
      if Ascii.eqb c dquote then
        match parse_chars r with
        | Some (t, rest) => Some (JStr t, rest)
        | None => None
        end
      else
        match strip_prefix "true" s, strip_prefix "false" s,
              strip_prefix "null" s with
        | Some rest, _, _ => Some (JBool true, rest)
        | _, Some rest, _ => Some (JBool false, rest)
        | _, _, Some rest => Some (JNull, rest)
        | None, None, None => parse_int s
        end
  | EmptyString => None
  end.

(** The elements after [[]: a value, then [,] and more, or the closing
    bracket.  [fuel] bounds the number of elements. *)
Fixpoint parse_elems (fuel : nat) (s : string)
  : option (list jsval * string) :=
  match fuel with
  | O => None
  | S fuel' =>
      match parse_value s with
      | Some (v, r) =>
          match skip_json_ws r with
          | String "," r' =>
              match parse_elems fuel' (skip_json_ws r') with
              | Some (l, rest) => Some (v :: l, rest)
              | None => None
              end
          | String "]" r' => Some ([v], r')
          | _ => None
          end
      | None => None
      end
  end.

(** [JSON.parse(text)] where the text is an array of primitives.  [None]
    when [JSON.parse] throws; text of another shape (a nested array, an
    object, a fraction, a value that is no array), which no statement of the
    handler writes, is not represented and gives [None] too. *)
Definition parse (s : string) : option (list jsval) :=
  match skip_json_ws s with
  | String "[" r =>
      let r1 := skip_json_ws r in
      let at_end (rest : string) (l : list jsval) :=
        match skip_json_ws rest with
        | EmptyString => Some l
        | String _ _ => None
        end in
      match strip_prefix "]" r1 with
      | Some rest => at_end rest []
      | None =>
          match parse_elems (String.length r1) r1 with
          | Some (l, rest) => at_end rest l
          | None => None
          end
      end
  | _ => None
  end.

End Json.

(* ================================================================== *)
(** ** The relational store *)

(** Rows of [applications], [keys] and [supports] as [initializeTables]
    declares them.  A column that may hold NULL is an [option]. *)

Module App.
Record row : Type := mk
  { name : string;            (* VARCHAR(255) UNIQUE NOT NULL *)
    api_key : string;         (* VARCHAR(255) UNIQUE NOT NULL *)
    created_by : string;      (* VARCHAR(255) NOT NULL *)
    created_at : Z }.         (* TIMESTAMP DEFAULT CURRENT_TIMESTAMP *)
End App.

Module Key.
Record row : Type := mk
  { key : string;             (* VARCHAR(255) UNIQUE NOT NULL *)
    api : string;             (* VARCHAR(255) NOT NULL, references applications *)
    prefix : string;          (* VARCHAR(50) NOT NULL *)
    created_at : Z;           (* TIMESTAMP DEFAULT CURRENT_TIMESTAMP *)
    expires_at : Z;           (* TIMESTAMP NOT NULL *)
    hwid : option string;     (* TEXT *)
    banned : option bool;     (* BOOLEAN DEFAULT FALSE *)
    used : option bool;       (* BOOLEAN DEFAULT FALSE *)
    device_limit : option Z;  (* INTEGER DEFAULT 1 *)
    system_info : option string;  (* TEXT *)
    first_used : option Z }.  (* TIMESTAMP *)
End Key.

Module Support.
Record row : Type := mk
  { user_id : string;         (* VARCHAR(255) UNIQUE NOT NULL *)
    added_by : string;        (* VARCHAR(255) NOT NULL *)
    added_at : Z }.           (* TIMESTAMP DEFAULT CURRENT_TIMESTAMP *)
End Support.

Module Db.

Record database : Type := mk
  { applications : list App.row;
    keys : list Key.row;
    supports : list Support.row }.

Definition empty : database := mk [] [] [].

(** What a query can throw. *)
Inductive pg_error : Type :=
| not_null_violation                (* 23502 *)
| unique_violation                  (* 23505 *)
| foreign_key_violation             (* 23503 *)
| string_data_right_truncation      (* 22001 *)
| numeric_value_out_of_range        (* 22003 *)
| invalid_datetime_format           (* 22007 *)
| datetime_field_overflow           (* 22008 *)
| syntax_error.                     (* 42601 *)

(** A query parameter as the driver sends it: [null] and [undefined] are
    NULL, the other values their text. *)
Definition param (v : jsval) : option string :=
  match v with
  | JUndefined | JNull => None
  | _ => Some (ToString v)
  end.

(** [column = $n]: never true of a NULL parameter. *)
Definition eq_param (column : string) (v : jsval) : bool :=
  match param v with
  | Some s => String.eqb column s
  | None => false
  end.

Fixpoint all_spaces (s : string) : bool :=
  match s with
  | String c r => Ascii.eqb c " " && all_spaces r
  | EmptyString => true
  end.

(** Assignment to a [VARCHAR(n)] column: a longer string is an error unless
    the excess is spaces, which are cut off. *)
Definition varchar (n : nat) (s : string) : option string :=
  if (String.length s <=? n)%nat then Some s
  else if all_spaces (String.substring n (String.length s - n) s)
       then Some (String.substring 0 n s)
       else None.

Definition int4 (z : Z) : bool := (- 2147483648 <=? z) && (z <=? 2147483647).

(** [ORDER BY created_at DESC]: insertion in front of the first row that is
    not newer. *)
Fixpoint insert_desc {A : Type} (at_ : A -> Z) (x : A) (l : list A) : list A :=
  match l with
  | [] => [x]
  | y :: r => if at_ y <? at_ x then x :: l else y :: insert_desc at_ x r
  end.

Definition order_desc {A : Type} (at_ : A -> Z) (l : list A) : list A :=
  fold_right (insert_desc at_) [] l.

(** [SELECT * FROM supports WHERE user_id = $1] *)
Definition select_support (db : database) (uid : jsval) : list Support.row :=
  filter (fun r => eq_param (Support.user_id r) uid) (supports db).

(** [SELECT * FROM applications WHERE api_key = $1 AND created_by = $2] *)
Definition select_owned_app (db : database) (api_key uid : jsval)
  : list App.row :=
  filter (fun r => eq_param (App.api_key r) api_key
                   && eq_param (App.created_by r) uid)
         (applications db).

(** [SELECT * FROM applications WHERE api_key = $1] *)
Definition select_app_by_key (db : database) (api_key : jsval) : list App.row :=
  filter (fun r => eq_param (App.api_key r) api_key) (applications db).

(** [SELECT * FROM applications WHERE name = $1] *)
Definition select_app_by_name (db : database) (nm : jsval) : list App.row :=
  filter (fun r => eq_param (App.name r) nm) (applications db).

(** [SELECT * FROM applications WHERE created_by = $1] *)
Definition select_apps_of (db : database) (uid : jsval) : list App.row :=
  filter (fun r => eq_param (App.created_by r) uid) (applications db).

(** [WHERE key = $1 AND api = $2] *)
Definition key_matches (k a : jsval) (r : Key.row) : bool :=
  eq_param (Key.key r) k && eq_param (Key.api r) a.

(** [SELECT * FROM keys WHERE key = $1 AND api = $2] *)
Definition select_key (db : database) (k a : jsval) : list Key.row :=
  filter (key_matches k a) (keys db).

(** [SELECT * FROM keys WHERE api = $1] *)
Definition select_keys_of (db : database) (a : jsval) : list Key.row :=
  filter (fun r => eq_param (Key.api r) a) (keys db).

(** [UPDATE keys SET ... WHERE key = $k AND api = $a]: [set] is applied to
    every matching row. *)
Definition update_key (set : Key.row -> Key.row) (k a : jsval) (db : database)
  : database :=
  mk (applications db)
     (map (fun r => if key_matches k a r then set r else r) (keys db))
     (supports db).

(** [DELETE FROM keys WHERE key = $1 AND api = $2] *)
Definition delete_key (k a : jsval) (db : database) : database :=
  mk (applications db)
     (filter (fun r => negb (key_matches k a r)) (keys db))
     (supports db).

(** [DELETE FROM applications WHERE name = $1], with the cascade of the
    foreign key of [keys.api]. *)
Definition delete_app (nm : jsval) (db : database) : database :=
  let gone := select_app_by_name db nm in
  mk (filter (fun r => negb (eq_param (App.name r) nm)) (applications db))
     (filter (fun r => negb (existsb (fun a => String.eqb (App.api_key a) (Key.api r))
                                     gone))
             (keys db))
     (supports db).

(** [DELETE FROM supports WHERE user_id = $1] *)
Definition delete_support (uid : jsval) (db : database) : database :=
  mk (applications db) (keys db)
     (filter (fun r => negb (eq_param (Support.user_id r) uid)) (supports db)).

(** [INSERT INTO applications (name, api_key, created_by) VALUES ($1, $2, $3)] *)
Definition insert_app (nm api_key uid : jsval) (now : Z) (db : database)
  : pg_error + database :=
  match param nm, param api_key, param uid with
  | Some n, Some a, Some u =>
      match varchar 255 n, varchar 255 a, varchar 255 u with
      | Some n, Some a, Some u =>
          if existsb (fun r => String.eqb (App.name r) n
                               || String.eqb (App.api_key r) a)
                     (applications db)
          then inl unique_violation
          else inr (mk (applications db ++ [App.mk n a u now])
                       (keys db) (supports db))
      | _, _, _ => inl string_data_right_truncation
      end
  | _, _, _ => inl not_null_violation
  end.

(** The row of a key as [INSERT INTO keys (key, api, prefix, expires_at,
    device_limit)] writes it: the other columns take their defaults. *)
Definition fresh_key (k a p : string) (now expires limit : Z) : Key.row :=
  Key.mk k a p now expires None (Some false) (Some false) (Some limit)
         None None.

(** The values a [TIMESTAMP] column takes begin at 4714-11-24 BC, which is
    2440588 days before the epoch of [Date]; they end (294276 AD) beyond the
    last value of a [Date]. *)
Definition timestamp_in_range (ms : Z) : bool := - 210866803200000 <=? ms.

(** [INSERT INTO keys (key, api, prefix, expires_at, device_limit)
     VALUES ($1, $2, $3, $4, $5)].  [expires] is [None] for an invalid
    [Date].  The texts of [$4] and [$5] are read as a timestamp and an
    integer when the parameters are bound, before the statement runs and
    the lengths of the strings are tested. *)
Definition insert_key (k a p : jsval) (expires : option Z) (limit : Z)
    (now : Z) (db : database) : pg_error + database :=
  match param k, param a, param p with
  | Some ks, Some as_, Some ps =>
      match expires with
      | None => inl invalid_datetime_format
      | Some ex =>
          if negb (timestamp_in_range ex) then inl datetime_field_overflow
          else if negb (int4 limit) then inl numeric_value_out_of_range
          else
            match varchar 255 ks, varchar 255 as_, varchar 50 ps with
            | Some ks, Some as_, Some ps =>
                if existsb (fun r => String.eqb (Key.key r) ks) (keys db)
                then inl unique_violation
                else if negb (existsb (fun r => String.eqb (App.api_key r) as_)
                                      (applications db))
                then inl foreign_key_violation
                else inr (mk (applications db)
                             (keys db ++ [fresh_key ks as_ ps now ex limit])
                             (supports db))
            | _, _, _ => inl string_data_right_truncation
            end
      end
  | _, _, _ => inl not_null_violation
  end.

(** [INSERT INTO supports (user_id, added_by) VALUES ($1, $2)] *)
Definition insert_support (uid by_ : jsval) (now : Z) (db : database)
  : pg_error + database :=
  match param uid, param by_ with
  | Some u, Some b =>
      match varchar 255 u, varchar 255 b with
      | Some u, Some b =>
          if existsb (fun r => String.eqb (Support.user_id r) u) (supports db)
          then inl unique_violation
          else inr (mk (applications db) (keys db)
                       (supports db ++ [Support.mk u b now]))
      | _, _ => inl string_data_right_truncation
      end
  | _, _ => inl not_null_violation
  end.

End Db.

(* ================================================================== *)
(** ** The request handler *)

(** The fields [handler] reads from the parsed request body; an absent field
    is [JUndefined]. *)
Module Body.
Record t : Type := mk
  { action : jsval;
    user_id : jsval;
    admin_id : jsval;
    app_name : jsval;
    api : jsval;
    key : jsval;
    prefix : jsval;
    days : jsval;
    device_limit : jsval;
    hwid : jsval;
    system_info : jsval }.

(** [{}] *)
Definition empty : t :=
  mk JUndefined JUndefined JUndefined JUndefined JUndefined JUndefined
     JUndefined JUndefined JUndefined JUndefined JUndefined.
End Body.

Module Api.
Import Db.

(** [event.body]: absent or empty, text that is no JSON, the JSON text
    [null], or JSON text whose fields are [fields] (a JSON value that is no
    object has none of the fields). *)
Inductive raw_body : Type :=
| NoBody
| NotJson
| JsonNull
| JsonObject (fields : Body.t).

Record event : Type := mk_event
  { httpMethod : string;
    path : string;
    body : raw_body }.

(** What a request reads from outside: the clock of the process, the clock
    of the database, and the text of
    [Math.random().toString(36).substr(2, 16)]. *)
Record env : Type := mk_env
  { clock : Z;
    db_clock : Z;
    random36 : string }.

(** An exception that reaches the [catch] of [handler]. *)
Inductive exn : Type :=
| PgError (e : pg_error)
| SyntaxError        (* JSON.parse *)
| TypeError.         (* destructuring null *)

(** The action-specific fields of a response. *)
Inductive extra : Type :=
| Nothing
| IsSupport (is_support : bool) (user : option Support.row)
| ApiKey (api_key : string)
| NewKey (key : string)
| OneKey (key : Key.row)
| AppsWithCount (applications : list (App.row * nat)) (is_admin : bool)
| Apps (applications : list App.row)
| Keys (keys : list Key.row)
| Supports (supports : list Support.row)
| Permission (has_permission is_admin : bool) (app_count max_apps : Z)
| Version (version : string) (copyright : option string).

Record data : Type := mk_data
  { success : bool;
    message : option string;
    fields : extra }.

(** [Reply] is the result of [jsonResponse]; [Fault] is the answer of the
    [catch] block: status 500, [success: false] and the message
    ['Server error: '] followed by the message of the exception. *)
Inductive response : Type :=
| Preflight
| Reply (statusCode : Z) (d : data) (timestamp : Z)
| Fault (e : exn) (timestamp : Z).

Definition jsonResponse (e : env) (statusCode : Z) (d : data) : response :=
  Reply statusCode d (clock e).

Definition ok (msg : string) : data := mk_data true (Some msg) Nothing.
Definition no (msg : string) : data := mk_data false (Some msg) Nothing.

Definition MAIN_ADMIN_ID : string := "techdavisk007".
Definition MAX_APPS_FOR_SUPPORT : Z := 10.

(** [CREATE TABLE IF NOT EXISTS] three times, then the seed row of
    [supports] with [ON CONFLICT (user_id) DO NOTHING]. *)
Definition initializeTables (e : env) (db : database) : database :=
  match insert_support (JStr MAIN_ADMIN_ID) (JStr "system") (db_clock e) db with
  | inr db' => db'
  | inl _ => db
  end.

Definition checkIfAdmin (user_id : jsval) : bool :=
  strict_eq user_id (JStr MAIN_ADMIN_ID).

Definition getUserAppCount (db : database) (user_id : jsval) : Z :=
  Z.of_nat (List.length (select_apps_of db user_id)).

(** [rows.length > 0] *)
Definition some_row {A : Type} (rows : list A) : bool :=
  match rows with
  | [] => false
  | _ :: _ => true
  end.

Record permission : Type := mk_permission
  { hasPermission : bool;
    isAdmin : bool }.

Definition checkAppPermission (db : database) (user_id api_key : jsval)
  : permission :=
  if checkIfAdmin user_id then mk_permission true true
  else if some_row (select_support db user_id) then mk_permission true false
  else mk_permission (some_row (select_owned_app db api_key user_id)) false.

Definition chars : string := "ABCDEFGHIJKLMNOPQRSTUVWXYZ0123456789".

(** [generateKey()]; [draws] are the six values of
    [Math.floor(Math.random() * chars.length)]. *)
Definition generateKey (draws : list nat) : string :=
  fold_left (fun result i =>
               result ++ match String.get i chars with
                         | Some c => String c EmptyString
                         | None => EmptyString
                         end)
            (firstn 6 draws) EmptyString.

(** [!a || !b || ...]: a required field is missing. *)
Definition missing (required : list jsval) : bool :=
  existsb (fun v => negb (truthy v)) required.

Definition result : Type := (database * response)%type.

Definition case_check_support (e : env) (db : database) (b : Body.t) : result :=
  let cs_uid := Body.user_id b in
  if missing [cs_uid]
  then (db, jsonResponse e 400 (no "User ID required"))
  else
    match select_support db cs_uid with
    | user :: _ =>
        (db, jsonResponse e 200 (mk_data true None (IsSupport true (Some user))))
    | [] =>
        (db, jsonResponse e 200
               (mk_data false (Some "No permission") (IsSupport false None)))
    end.

Definition case_create_app (e : env) (db : database) (b : Body.t) : result :=
  let app_name := Body.app_name b in
  let ca_uid := Body.user_id b in
  if missing [app_name; ca_uid]
  then (db, jsonResponse e 400 (no "App name & User ID required"))
  else
    let ca_isAdmin := checkIfAdmin ca_uid in
    let ca_count := getUserAppCount db ca_uid in
    if negb ca_isAdmin && (MAX_APPS_FOR_SUPPORT <=? ca_count)
    then (db, jsonResponse e 200
                (no ("Limit " ++ string_of_Z MAX_APPS_FOR_SUPPORT
                     ++ " apps reached")))
    else
      let ca_api := "api_" ++ random36 e in
      match insert_app app_name (JStr ca_api) ca_uid (db_clock e) db with
      | inr db' =>
          (db', jsonResponse e 200
                  (mk_data true (Some "App created") (ApiKey ca_api)))
      | inl unique_violation => (db, jsonResponse e 200 (no "App exists"))
      | inl err => (db, Fault (PgError err) (clock e))
      end.

Definition case_delete_app (e : env) (db : database) (b : Body.t) : result :=
  let da_name := Body.app_name b in
  let da_uid := Body.user_id b in
  if missing [da_name; da_uid]
  then (db, jsonResponse e 400 (no "Required fields missing"))
  else
    match select_app_by_name db da_name with
    | [] => (db, jsonResponse e 200 (no "App not found"))
    | da_app :: _ =>
        let da_perm := checkAppPermission db da_uid (JStr (App.api_key da_app)) in
        if negb (hasPermission da_perm)
        then (db, jsonResponse e 403 (no "No permission"))
        else (delete_app da_name db, jsonResponse e 200 (ok "App deleted"))
    end.

(** The template literal of [ck_key] has no [${...}] substitution: its
    backslash escapes yield the parentheses, and the braces are text.  The
    key of every [create_key] is this string; [generateKey] is not called. *)
Definition ck_key : string := "( {prefix}- ){generateKey()}".

(** [new Date(ms)]: [None] for an invalid date (NaN, or out of the range of
    [TimeClip]). *)
Definition new_Date (ms : option Z) : option Z :=
  match ms with
  | Some t => if Z.abs t <=? 8640000000000000 then Some t else None
  | None => None
  end.

Definition case_create_key (e : env) (db : database) (b : Body.t) : result :=
  let ck_api := Body.api b in
  let prefix := Body.prefix b in
  let days := Body.days b in
  let device_limit := Body.device_limit b in
  let ck_uid := Body.user_id b in
  if missing [ck_api; prefix; days; ck_uid]
  then (db, jsonResponse e 400 (no "Missing fields"))
  else
    let ck_perm := checkAppPermission db ck_uid ck_api in
    if negb (hasPermission ck_perm)
    then (db, jsonResponse e 403 (no "No permission"))
    else
      let ck_expires :=
        new_Date (match ToNumber days with
                  | Some d => Some (clock e + d * 86400000)
                  | None => None
                  end) in
      let ck_limit := match parseInt device_limit with
                      | Some 0 | None => 1
                      | Some n => n
                      end in
      match insert_key (JStr ck_key) ck_api prefix ck_expires ck_limit
                       (db_clock e) db with
      | inr db' =>
          (db', jsonResponse e 200
                  (mk_data true (Some "Key created") (NewKey ck_key)))
      | inl err => (db, Fault (PgError err) (clock e))
      end.

Definition case_delete_key (e : env) (db : database) (b : Body.t) : result :=
  let dk_api := Body.api b in
  let dk_key := Body.key b in
  let dk_uid := Body.user_id b in
  if missing [dk_api; dk_key; dk_uid]
  then (db, jsonResponse e 400 (no "Missing fields"))
  else
    let dk_perm := checkAppPermission db dk_uid dk_api in
    if negb (hasPermission dk_perm)
    then (db, jsonResponse e 403 (no "No permission"))
    else
      let dk_res := select_key db dk_key dk_api in
      (delete_key dk_key dk_api db,
       jsonResponse e 200
         (if some_row dk_res then ok "Key deleted" else no "Key not found")).

(** [SET banned = true] *)
Definition ban_row (r : Key.row) : Key.row :=
  Key.mk (Key.key r) (Key.api r) (Key.prefix r) (Key.created_at r)
         (Key.expires_at r) (Key.hwid r) (Some true) (Key.used r)
         (Key.device_limit r) (Key.system_info r) (Key.first_used r).

Definition case_ban_key (e : env) (db : database) (b : Body.t) : result :=
  let bk_api := Body.api b in
  let bk_key := Body.key b in
  let bk_uid := Body.user_id b in
  if missing [bk_api; bk_key; bk_uid]
  then (db, jsonResponse e 400 (no "Missing fields"))
  else
    let bk_perm := checkAppPermission db bk_uid bk_api in
    if negb (hasPermission bk_perm)
    then (db, jsonResponse e 403 (no "No permission"))
    else
      let bk_res := select_key db bk_key bk_api in
      (update_key ban_row bk_key bk_api db,
       jsonResponse e 200
         (if some_row bk_res then ok "Key banned" else no "Key not found")).

Definition case_check_key (e : env) (db : database) (b : Body.t) : result :=
  let chk_api := Body.api b in
  let chk_key := Body.key b in
  let chk_uid := Body.user_id b in
  if missing [chk_api; chk_key; chk_uid]
  then (db, jsonResponse e 400 (no "Missing fields"))
  else
    let chk_perm := checkAppPermission db chk_uid chk_api in
    if negb (hasPermission chk_perm)
    then (db, jsonResponse e 403 (no "No permission"))
    else
      match select_key db chk_key chk_api with
      | row :: _ => (db, jsonResponse e 200 (mk_data true None (OneKey row)))
      | [] => (db, jsonResponse e 200 (no "Key not found"))
      end.

(** [SET hwid = NULL, used = false, system_info = NULL, first_used = NULL] *)
Definition reset_row (r : Key.row) : Key.row :=
  Key.mk (Key.key r) (Key.api r) (Key.prefix r) (Key.created_at r)
         (Key.expires_at r) None (Key.banned r) (Some false)
         (Key.device_limit r) None None.

Definition case_reset_hwid (e : env) (db : database) (b : Body.t) : result :=
  let rh_api := Body.api b in
  let rh_key := Body.key b in
  let rh_uid := Body.user_id b in
  if missing [rh_api; rh_key; rh_uid]
  then (db, jsonResponse e 400 (no "Missing fields"))
  else
    let rh_perm := checkAppPermission db rh_uid rh_api in
    if negb (hasPermission rh_perm)
    then (db, jsonResponse e 403 (no "No permission"))
    else
      let rh_res := select_key db rh_key rh_api in
      (update_key reset_row rh_key rh_api db,
       jsonResponse e 200
         (if some_row rh_res then ok "HWID reset" else no "Key not found")).

(** The query of [get_apps]: every application with the number of its keys,
    newest first. *)
Definition apps_with_key_count (db : database) : list (App.row * nat) :=
  map (fun a => (a, List.length (select_keys_of db (JStr (App.api_key a)))))
      (order_desc App.created_at (applications db)).

(** For a caller that is neither admin nor support, [replace] puts the
    [WHERE] clause in front of [LEFT JOIN], and the query is rejected. *)
Definition case_get_apps (e : env) (db : database) (b : Body.t) : result :=
  let ga_uid := Body.user_id b in
  if missing [ga_uid]
  then (db, jsonResponse e 400 (no "User ID required"))
  else
    let ga_isAdmin := checkIfAdmin ga_uid in
    let ga_isSupport := some_row (select_support db ga_uid) in
    if negb ga_isAdmin && negb ga_isSupport
    then (db, Fault (PgError syntax_error) (clock e))
    else (db, jsonResponse e 200
                (mk_data true None
                   (AppsWithCount (apps_with_key_count db) ga_isAdmin))).

Definition case_get_my_apps (e : env) (db : database) (b : Body.t) : result :=
  let gma_uid := Body.user_id b in
  if missing [gma_uid]
  then (db, jsonResponse e 400 (no "User ID required"))
  else (db, jsonResponse e 200
              (mk_data true None
                 (Apps (order_desc App.created_at (select_apps_of db gma_uid))))).

Definition case_get_keys (e : env) (db : database) (b : Body.t) : result :=
  let gk_api := Body.api b in
  let gk_uid := Body.user_id b in
  if missing [gk_api; gk_uid]
  then (db, jsonResponse e 400 (no "API & User ID required"))
  else
    let gk_perm := checkAppPermission db gk_uid gk_api in
    if negb (hasPermission gk_perm)
    then (db, jsonResponse e 403 (no "No permission"))
    else (db, jsonResponse e 200
                (mk_data true None
                   (Keys (order_desc Key.created_at (select_keys_of db gk_api))))).

Definition case_add_support (e : env) (db : database) (b : Body.t) : result :=
  let as_uid := Body.user_id b in
  let as_admin := Body.admin_id b in
  if missing [as_uid; as_admin]
  then (db, jsonResponse e 400 (no "User ID & Admin ID required"))
  else if negb (checkIfAdmin as_admin)
  then (db, jsonResponse e 403 (no "Only admin can add"))
  else
    match insert_support as_uid as_admin (db_clock e) db with
    | inr db' =>
        (db', jsonResponse e 200 (ok ("Support " ++ ToString as_uid ++ " added")))
    | inl unique_violation => (db, jsonResponse e 200 (no "Already support"))
    | inl err => (db, Fault (PgError err) (clock e))
    end.

Definition case_delete_support (e : env) (db : database) (b : Body.t)
  : result :=
  let ds_uid := Body.user_id b in
  let ds_admin := Body.admin_id b in
  if missing [ds_uid; ds_admin]
  then (db, jsonResponse e 400 (no "User ID & Admin ID required"))
  else if negb (checkIfAdmin ds_admin)
  then (db, jsonResponse e 403 (no "Only admin can delete"))
  else if strict_eq ds_uid (JStr MAIN_ADMIN_ID)
  then (db, jsonResponse e 400 (no "Cannot delete main admin"))
  else
    let ds_res := select_support db ds_uid in
    (delete_support ds_uid db,
     jsonResponse e 200
       (if some_row ds_res then ok "Support deleted" else no "Not found")).

Definition case_get_supports (e : env) (db : database) : result :=
  (db, jsonResponse e 200
         (mk_data true None (Supports (order_desc Support.added_at (supports db))))).

(** [vk_k.hwid ? JSON.parse(vk_k.hwid) : []]; [None] when the parse throws. *)
Definition bound_hwids (vk_k : Key.row) : option (list jsval) :=
  match Key.hwid vk_k with
  | None => Some []
  | Some text => if String.eqb text "" then Some [] else Json.parse text
  end.

(** [vk_k.device_limit || 1] *)
Definition effective_limit (vk_k : Key.row) : Z :=
  match Key.device_limit vk_k with
  | None | Some 0 => 1
  | Some n => n
  end.

(** [SET hwid = $1, used = true, system_info = $2,
         first_used = COALESCE(first_used, CURRENT_TIMESTAMP)] *)
Definition bind_row (hwids : option string) (info : option string) (now : Z)
    (r : Key.row) : Key.row :=
  Key.mk (Key.key r) (Key.api r) (Key.prefix r) (Key.created_at r)
         (Key.expires_at r) hwids (Key.banned r) (Some true)
         (Key.device_limit r) info
         (match Key.first_used r with
          | Some t => Some t
          | None => Some now
          end).

Definition case_validate_key (e : env) (db : database) (b : Body.t) : result :=
  let vk_api := Body.api b in
  let vk_key := Body.key b in
  let hwid := Body.hwid b in
  let system_info := Body.system_info b in
  if missing [vk_api; vk_key; hwid]
  then (db, jsonResponse e 400 (no "API, Key, HWID required"))
  else
    match select_app_by_key db vk_api with
    | [] => (db, jsonResponse e 200 (no "Invalid API"))
    | _ :: _ =>
        match select_key db vk_key vk_api with
        | [] => (db, jsonResponse e 200 (no "Invalid key"))
        | vk_k :: _ =>
            if match Key.banned vk_k with Some f => f | None => false end
            then (db, jsonResponse e 200 (no "Key banned"))
            else if Key.expires_at vk_k <? clock e
            then (db, jsonResponse e 200 (no "Key expired"))
            else
              match bound_hwids vk_k with
              | None => (db, Fault SyntaxError (clock e))
              | Some hwids =>
                  if existsb (fun h => strict_eq h hwid) hwids
                  then (db, jsonResponse e 200 (ok "Valid key"))
                  else
                    let limit := effective_limit vk_k in
                    if limit <=? Z.of_nat (List.length hwids)
                    then (db, jsonResponse e 200 (no "Device limit reached"))
                    else
                      (update_key
                         (bind_row (Some (Json.stringify (hwids ++ [hwid])))
                                   (param (or_else system_info JNull))
                                   (db_clock e))
                         vk_key vk_api db,
                       jsonResponse e 200 (ok "Valid key"))
              end
        end
    end.

Definition case_check_permission (e : env) (db : database) (b : Body.t)
  : result :=
  let cp_uid := Body.user_id b in
  let cp_api := Body.api b in
  if missing [cp_uid]
  then (db, jsonResponse e 400 (no "User ID required"))
  else
    let cp_perm := checkAppPermission db cp_uid (or_else cp_api (JStr "")) in
    let cp_count := getUserAppCount db cp_uid in
    let cp_isAdmin := checkIfAdmin cp_uid in
    (db, jsonResponse e 200
           (mk_data true None
              (Permission (hasPermission cp_perm) cp_isAdmin cp_count
                          (if cp_isAdmin then 999 else MAX_APPS_FOR_SUPPORT)))).

Definition case_default (e : env) (db : database) (ev : event) (action : jsval)
  : result :=
  if String.eqb (httpMethod ev) "GET"
  then (db, jsonResponse e 200
              (mk_data true (Some "KeyAuth API running on Vercel + Neon")
                 (Version "2.1" (Some "techdavisk007"))))
  else (db, jsonResponse e 400
              (no ("Invalid action: " ++ ToString (or_else action (JStr "none"))))).

(** [switch (action)]: the labels are compared with [===]. *)
Definition dispatch (e : env) (db : database) (ev : event) (b : Body.t)
  : result :=
  match Body.action b with
  | JStr a =>
      if String.eqb a "check_support" then case_check_support e db b
      else if String.eqb a "test"
      then (db, jsonResponse e 200 (ok "API working with Neon!"))
      else if String.eqb a "create_app" then case_create_app e db b
      else if String.eqb a "delete_app" then case_delete_app e db b
      else if String.eqb a "create_key" then case_create_key e db b
      else if String.eqb a "delete_key" then case_delete_key e db b
      else if String.eqb a "ban_key" then case_ban_key e db b
      else if String.eqb a "check_key" then case_check_key e db b
      else if String.eqb a "reset_hwid" then case_reset_hwid e db b
      else if String.eqb a "get_apps" then case_get_apps e db b
      else if String.eqb a "get_my_apps" then case_get_my_apps e db b
      else if String.eqb a "get_keys" || String.eqb a "list_keys"
      then case_get_keys e db b
      else if String.eqb a "add_support" then case_add_support e db b
      else if String.eqb a "delete_support" then case_delete_support e db b
      else if String.eqb a "get_supports" then case_get_supports e db
      else if String.eqb a "validate_key" then case_validate_key e db b
      else if String.eqb a "check_permission" then case_check_permission e db b
      else case_default e db ev (Body.action b)
  | other => case_default e db ev other
  end.

(** After the body is parsed: the health probe, then the actions. *)
Definition route (e : env) (db : database) (ev : event) (b : Body.t) : result :=
  if String.eqb (httpMethod ev) "GET" && str_includes "/health" (path ev)
  then (db, jsonResponse e 200
              (mk_data true (Some "API Health OK - Neon connected")
                 (Version "2.1-vercel" None)))
  else dispatch e db ev b.

(** [exports.handler].  [getPool] sets [isInitialized] before it returns, so
    the guarded call of [initializeTables] is not taken and the tables are
    those of the connected database.  The body is parsed for a POST only;
    otherwise it is [{}]. *)
Definition handler (e : env) (db : database) (ev : event) : result :=
  if String.eqb (httpMethod ev) "OPTIONS" then (db, Preflight)
  else
    match (if String.eqb (httpMethod ev) "POST" then body ev else NoBody) with
    | NoBody => route e db ev Body.empty
    | NotJson => (db, jsonResponse e 400 (no "Invalid JSON"))
    | JsonNull => (db, Fault TypeError (clock e))
    | JsonObject b => route e db ev b
    end.

End Api.
Export Api.

(* ================================================================== *)
(** ** Vocabulary of the properties *)

Import Db.

(** The body [handler] works on: the parsed object of a POST, [{}]
    otherwise. *)
Definition request_body (ev : event) : Body.t :=
  match (if String.eqb (httpMethod ev) "POST" then body ev else NoBody) with
  | JsonObject b => b
  | _ => Body.empty
  end.

(** A POST whose body is the JSON object [b]. *)
Definition post (b : Body.t) : event := mk_event "POST" "/api/auth" (JsonObject b).

Definition validate_body (api key hwid system_info : jsval) : Body.t :=
  Body.mk (JStr "validate_key") JUndefined JUndefined JUndefined api key
          JUndefined JUndefined JUndefined hwid system_info.

Definition key_body (action : string) (user_id api key : jsval) : Body.t :=
  Body.mk (JStr action) user_id JUndefined JUndefined api key
          JUndefined JUndefined JUndefined JUndefined JUndefined.

Definition create_app_body (user_id app_name : jsval) : Body.t :=
  Body.mk (JStr "create_app") user_id JUndefined app_name JUndefined JUndefined
          JUndefined JUndefined JUndefined JUndefined JUndefined.

Definition create_key_body (user_id api prefix days device_limit : jsval)
  : Body.t :=
  Body.mk (JStr "create_key") user_id JUndefined JUndefined api JUndefined
          prefix days device_limit JUndefined JUndefined.

Definition support_body (action : string) (user_id admin_id : jsval) : Body.t :=
  Body.mk (JStr action) user_id admin_id JUndefined JUndefined JUndefined
          JUndefined JUndefined JUndefined JUndefined JUndefined.

(** The validation request of a client. *)
Definition validate (e : env) (db : database) (api key hwid system_info : jsval)
  : result :=
  handler e db (post (validate_body api key hwid system_info)).

(** The accepting answer of [validate_key]. *)
Definition accepted (r : response) : Prop :=
  exists t, r = Reply 200 (ok "Valid key") t.

(** A run of requests, each with what it reads from outside. *)
Definition run (db : database) (requests : list (env * event)) : database :=
  fold_left (fun d r => fst (handler (fst r) d (snd r))) requests db.

(** Validations of one key by a list of devices, in order: the final store
    and the answers. *)
Fixpoint validate_all (db : database) (api key : jsval)
    (calls : list (env * jsval * jsval)) : database * list response :=
  match calls with
  | [] => (db, [])
  | (e, hwid, info) :: more =>
      let '(db1, answer) := validate e db api key hwid info in
      let '(db2, answers) := validate_all db1 api key more in
      (db2, answer :: answers)
  end.

(** The stores the handler can produce from freshly initialised tables, by
    requests that satisfy [allowed]. *)
Inductive reachable_by (allowed : event -> Prop) : database -> Prop :=
| reach_init (e : env) : reachable_by allowed (initializeTables e Db.empty)
| reach_step (e : env) (db : database) (ev : event) :
    reachable_by allowed db -> allowed ev ->
    reachable_by allowed (fst (handler e db ev)).

Definition reachable : database -> Prop := reachable_by (fun _ => True).


Definition is_string (v : jsval) : Prop := exists s, v = JStr s.

(** The foreign key of [keys.api]. *)
Definition references_ok (db : database) : Prop :=
  forall r, In r (keys db) ->
            exists a, In a (applications db) /\ App.api_key a = Key.api r.

(** [UNIQUE] on [keys.key]. *)
Definition unique_keys (db : database) : Prop := NoDup (map Key.key (keys db)).



(** The invariant of a row of [keys]: the [hwid] column holds NULL or the
    text [JSON.stringify] writes for a non-empty array [hs] of truthy values
    that satisfy [Q] and are pairwise different; the stored device limit [n]
    is not zero and, once a device is bound, bounds their number; a row with
    a device bound has its first use recorded. *)
Definition row_inv (Q : jsval -> Prop) (r : Key.row) : Prop :=
  exists hs n,
    (Key.hwid r = None /\ hs = [] \/
     Key.hwid r = Some (Json.stringify hs) /\ hs <> []) /\
    Forall (fun h => truthy h = true /\ Q h) hs /\
    NoDup hs /\
    Key.device_limit r = Some n /\ n <> 0 /\
    (hs = [] \/ Z.of_nat (List.length hs) <= n) /\
    (hs <> [] -> Key.first_used r <> None).

Definition store_inv (Q : jsval -> Prop) (db : database) : Prop :=
  unique_keys db /\ Forall (row_inv Q) (keys db).

(** The seed row of [supports] is there. *)
Definition has_main_admin (db : database) : Prop :=
  exists s, In s (supports db) /\ Support.user_id s = MAIN_ADMIN_ID.

(** An update that leaves [key] and [api] alone. *)
Definition keeps_identity (f : Key.row -> Key.row) : Prop :=
  forall r, Key.key (f r) = Key.key r /\ Key.api (f r) = Key.api r.

(** A call of [validate_all]: what it reads from outside, and its hwid. *)
Definition call_env (c : env * jsval * jsval) : env := fst (fst c).
Definition call_hwid (c : env * jsval * jsval) : jsval := snd (fst c).

(** A request that reaches [case 'validate_key']. *)
Definition is_validation (r : env * event) : Prop :=
  Body.action (request_body (snd r)) = JStr "validate_key".

(** What follows an element in the text of an array. *)
Definition delimiter (rest : string) : Prop :=
  exists r, rest = String "," r \/ rest = String "]" r.

(** A character that ends a run of decimal digits. *)
Definition ends_number (rest : string) : Prop :=
  match rest with
  | String c _ => digit_val 10 c = None
  | EmptyString => True
  end.

(** *** Proof steps *)

(** Case analysis on every test of a handler case. *)
Ltac branches :=
  repeat match goal with
         | |- context [if ?c then _ else _] => destruct c eqn:?
         | |- context [match ?c with _ => _ end] => destruct c eqn:?
         end.

(** Replace the result of a successful insertion by what the lemmas
    [app_frame], [key_frame] and [support_frame] say it leaves alone. *)
Ltac frames_by app_frame key_frame support_frame :=
  repeat match goal with
         | H : insert_app _ _ _ _ _ = inr _ |- _ =>
             apply app_frame in H; destruct H as (? & ? & ? & ?)
         | H : insert_key _ _ _ _ _ _ _ = inr _ |- _ =>
             apply key_frame in H;
             destruct H as (? & ? & ? & ? & ? & ? & ? & ? & ?)
         | H : insert_support _ _ _ _ = inr _ |- _ =>
             apply support_frame in H; destruct H as (? & ? & ? & ?)
         end.

(** *** A session for the examples *)

(** Every request of the session is a POST handled at clock 1000, against
    freshly initialised tables. *)
Definition e0 : env := mk_env 1000 1000 "k3x9q0pz".

Definition scenario (requests : list Body.t) : database :=
  run (initializeTables e0 Db.empty) (map (fun b => (e0, post b)) requests).

Definition owner : jsval := JStr "u1".
Definition admin : jsval := JStr MAIN_ADMIN_ID.
Definition app_key : jsval := JStr "api_k3x9q0pz".
Definition the_key : jsval := JStr ck_key.

Definition new_app : Body.t := create_app_body owner (JStr "Foo").

(** A key of 30 days with the given [device_limit] field. *)
Definition new_key (device_limit : jsval) : Body.t :=
  create_key_body owner app_key (JStr "PRO") (JInt 30) device_limit.

Definition redeem (hwid system_info : jsval) : Body.t :=
  validate_body app_key the_key hwid system_info.

Definition ban : Body.t := key_body "ban_key" owner app_key the_key.
Definition reset : Body.t := key_body "reset_hwid" owner app_key the_key.

(** One second after the key of [new_key] has expired. *)
Definition e_late : env := mk_env 2592002000 2592002000 "k3x9q0pz".

(** *** Vocabulary of the further properties *)

(** The constraints of the schema of [initializeTables]: [UNIQUE] on
    [applications.name], [applications.api_key], [keys.key] and
    [supports.user_id], and the foreign key of [keys.api]. *)
Definition consistent (db : database) : Prop :=
  NoDup (map App.name (applications db)) /\
  NoDup (map App.api_key (applications db)) /\
  NoDup (map Key.key (keys db)) /\
  NoDup (map Support.user_id (supports db)) /\
  references_ok db.

(** The actions whose case issues an INSERT, UPDATE or DELETE. *)
Definition mutating_actions : list string :=
  ["create_app"; "delete_app"; "create_key"; "delete_key"; "ban_key";
   "reset_hwid"; "add_support"; "delete_support"; "validate_key"].

(** The actions whose case asks [checkAppPermission] for the [api] of the
    request. *)
Definition gated_actions : list string :=
  ["create_key"; "delete_key"; "ban_key"; "check_key"; "reset_hwid";
   "get_keys"; "list_keys"].

(** The body of the loop of [generateKey]. *)
Definition generateKey_step (result : string) (i : nat) : string :=
  (result ++ match String.get i chars with
             | Some c => String c EmptyString
             | None => EmptyString
             end)%string.

(** [ORDER BY ... DESC] on the column [at_]. *)
Definition newest_first {A : Type} (at_ : A -> Z) (rows : list A) : Prop :=
  StronglySorted (fun a b => at_ b <= at_ a) rows.

(* ================================================================== *)
(** ** [JSON.parse] reads back what [JSON.stringify] writes *)

Lemma parse_chars_quote_unit (c : ascii) (x : string) :
  Json.parse_chars (Json.quote_unit c ++ x) =
  match Json.parse_chars x with
  | Some (t, rest) => Some (String c t, rest)
  | None => None
  end.
Proof.
  destruct c as [[] [] [] [] [] [] [] []]; reflexivity.
Qed.

Lemma append_assoc (a b c : string) : (a ++ b) ++ c = a ++ (b ++ c).
Proof. induction a; simpl; congruence. Qed.

Lemma parse_chars_quote_units (s rest : string) :
  Json.parse_chars (Json.quote_units s ++ String Json.dquote rest) = Some (s, rest).
Proof.
  induction s as [|c s IH]; simpl.
  - reflexivity.
  - rewrite append_assoc, parse_chars_quote_unit, IH. reflexivity.
Qed.

Lemma read_digits_stop (rest : string) (acc : option Z) :
  ends_number rest -> read_digits 10 rest acc = (acc, rest).
Proof.
  destruct rest as [|c r]; simpl; intros H; [reflexivity|now rewrite H].
Qed.

Lemma read_digits_digit (c : ascii) (k : Z) (r : string) (acc : option Z) :
  digit_val 10 c = Some k ->
  read_digits 10 (String c r) acc =
  read_digits 10 r (Some (match acc with Some a => a * 10 + k | None => k end)).
Proof. intros H; simpl; now rewrite H. Qed.

Lemma read_digits_uint_acc (d : Decimal.uint) (acc : positive) (rest : string) :
  read_digits 10 (DecimalString.NilEmpty.string_of_uint d ++ rest) (Some (Z.pos acc)) =
  read_digits 10 rest (Some (Z.pos (Pos.of_uint_acc d acc))).
Proof.
  revert acc; induction d; intros acc;
    cbn [DecimalString.NilEmpty.string_of_uint append Pos.of_uint_acc];
    try reflexivity;
    erewrite read_digits_digit by reflexivity;
    rewrite <- IHd; do 2 f_equal;
    match goal with
    | |- context [Z.of_nat ?n] =>
        let v := eval vm_compute in (Z.of_nat n) in change (Z.of_nat n) with v
    end; lia.
Qed.

Lemma to_uint_string (p : positive) :
  exists c r k,
    DecimalString.NilEmpty.string_of_uint (Pos.to_uint p) = String c r /\
    digit_val 10 c = Some k /\ k <> 0 /\
    forall rest,
      read_digits 10 (String c r ++ rest) None =
      read_digits 10 rest (Some (Z.pos p)).
Proof.
  pose proof (DecimalPos.Unsigned.of_to p) as Hof.
  pose proof (DecimalPos.Unsigned.to_of (Pos.to_uint p)) as Hto.
  rewrite Hof in Hto. cbn [N.to_uint] in Hto.
  pose proof (DecimalPos.Unsigned.to_uint_nonzero p) as Hnz.
  destruct (Pos.to_uint p) as [|d|d|d|d|d|d|d|d|d|d] eqn:E;
    [ exfalso; now apply (DecimalPos.Unsigned.to_uint_nonnil p)
    | exfalso; unfold Decimal.unorm in Hto;
      destruct (Decimal.nzhead (Decimal.D0 d)) eqn:En;
      first [ discriminate Hto
            | now apply (DecimalFacts.nzhead_nonzero _ _ En)
            | apply Hnz; exact Hto ]
    | .. ];
    cbn [Pos.of_uint] in Hof; injection Hof as Hof;
    cbn [DecimalString.NilEmpty.string_of_uint]; do 3 eexists;
    (split; [reflexivity|]); (split; [reflexivity|]); (split; [discriminate|]);
    intros rest; cbn [append]; erewrite read_digits_digit by reflexivity;
    match goal with
    | |- read_digits 10 _ (Some ?v) = _ =>
        let v' := eval vm_compute in v in change v with v'
    end;
    rewrite read_digits_uint_acc; now rewrite Hof.
Qed.

Lemma string_of_Z_pos (p : positive) :
  string_of_Z (Z.pos p) = DecimalString.NilEmpty.string_of_uint (Pos.to_uint p).
Proof.
  unfold string_of_Z. cbn [Z.to_int DecimalString.NilZero.string_of_int].
  unfold DecimalString.NilZero.string_of_uint.
  destruct (Pos.to_uint p) eqn:E; try reflexivity.
  exfalso. now apply (DecimalPos.Unsigned.to_uint_nonnil p).
Qed.

Lemma string_of_Z_neg (p : positive) :
  string_of_Z (Z.neg p) =
  String "-" (DecimalString.NilEmpty.string_of_uint (Pos.to_uint p)).
Proof.
  unfold string_of_Z. cbn [Z.to_int DecimalString.NilZero.string_of_int].
  unfold DecimalString.NilZero.string_of_uint.
  destruct (Pos.to_uint p) eqn:E; try reflexivity.
  exfalso. now apply (DecimalPos.Unsigned.to_uint_nonnil p).
Qed.

Lemma delimiter_ends_number rest : delimiter rest -> ends_number rest.
Proof. intros [r [-> | ->]]; reflexivity. Qed.

Lemma delimiter_no_fraction rest : delimiter rest -> Json.starts_fraction rest = false.
Proof. intros [r [-> | ->]]; reflexivity. Qed.

Lemma parse_int_digits (c : ascii) (r : string) (k v : Z) (rest : string) :
  digit_val 10 c = Some k -> k <> 0 ->
  read_digits 10 (String c r) None = (Some v, rest) ->
  Json.starts_fraction rest = false ->
  Json.parse_int (String c r) = Some (JInt v, rest) /\
  Json.parse_int (String "-" (String c r)) = Some (JInt (- v), rest).
Proof.
  intros Hc Hk Hr Hf.
  destruct c as [[] [] [] [] [] [] [] []]; try discriminate Hc;
    try (injection Hc as Hc; congruence);
    unfold Json.parse_int; cbv beta iota; rewrite Hr, Hf; split; reflexivity.
Qed.

Lemma parse_int_string_of_Z (z : Z) (rest : string) :
  delimiter rest ->
  Json.parse_int (string_of_Z z ++ rest) = Some (JInt z, rest).
Proof.
  intros Hd. pose proof (delimiter_ends_number _ Hd) as He.
  pose proof (delimiter_no_fraction _ Hd) as Hf.
  destruct z as [|p|p].
  - destruct Hd as [r [-> | ->]]; reflexivity.
  - rewrite string_of_Z_pos.
    destruct (to_uint_string p) as (c & r & k & Hs & Hc & Hk & Hr).
    rewrite Hs. specialize (Hr rest). rewrite (read_digits_stop rest) in Hr by exact He.
    now apply (parse_int_digits c (r ++ rest) k (Z.pos p) rest).
  - rewrite string_of_Z_neg.
    destruct (to_uint_string p) as (c & r & k & Hs & Hc & Hk & Hr).
    rewrite Hs. specialize (Hr rest). rewrite (read_digits_stop rest) in Hr by exact He.
    now apply (parse_int_digits c (r ++ rest) k (Z.pos p) rest).
Qed.

Lemma parse_value_number (c : ascii) (r : string) :
  digit_val 10 c <> None \/ c = "-"%char ->
  Json.parse_value (String c r) = Json.parse_int (String c r).
Proof.
  intros H.
  destruct c as [[] [] [] [] [] [] [] []];
    try (exfalso; destruct H as [H | H]; [now apply H | discriminate H]);
    reflexivity.
Qed.

Lemma string_of_Z_head (z : Z) :
  exists c r, string_of_Z z = String c r /\
              (digit_val 10 c <> None \/ c = "-"%char).
Proof.
  destruct z as [|p|p].
  - exists "0"%char, EmptyString. split; [reflexivity|left; discriminate].
  - rewrite string_of_Z_pos.
    destruct (to_uint_string p) as (c & r & k & Hs & Hc & _).
    exists c, r. split; [exact Hs|left; congruence].
  - rewrite string_of_Z_neg. eexists _, _. split; [reflexivity|now right].
Qed.

Lemma strip_prefix_append (p rest : string) :
  Json.strip_prefix p (p ++ rest) = Some rest.
Proof. induction p; simpl; [reflexivity|now rewrite Ascii.eqb_refl]. Qed.

Lemma parse_value_elem (v : jsval) (rest : string) :
  v <> JUndefined -> delimiter rest ->
  Json.parse_value (Json.stringify_elem v ++ rest) = Some (v, rest).
Proof.
  intros Hv Hd. destruct v as [| |[]|z|s]; try reflexivity.
  - congruence.
  - cbn [Json.stringify_elem].
    destruct (string_of_Z_head z) as (c & r & Hs & Hc).
    pose proof (parse_int_string_of_Z z rest Hd) as Hp.
    rewrite Hs in *. cbn [append] in *. now rewrite parse_value_number.
  - cbn [Json.stringify_elem]. unfold Json.quote. cbn [append].
    unfold Json.parse_value. rewrite Ascii.eqb_refl.
    rewrite append_assoc. cbn [append]. now rewrite parse_chars_quote_units.
Qed.

(** the text of an element starts with a character that is neither
    whitespace nor a closing bracket *)
Lemma stringify_elem_head (v : jsval) :
  exists c r, Json.stringify_elem v = String c r /\
              Json.is_json_ws c = false /\ Ascii.eqb "]" c = false.
Proof.
  destruct v as [| |[]|z|s]; try (eexists _, _; repeat split; reflexivity).
  cbn [Json.stringify_elem].
  destruct (string_of_Z_head z) as (c & r & Hs & Hc).
  exists c, r. split; [exact Hs|].
  destruct c as [[] [] [] [] [] [] [] []];
    try (exfalso; destruct Hc as [H | H]; [now apply H | discriminate H]);
    split; reflexivity.
Qed.

Lemma skip_json_ws_elem (v : jsval) (rest : string) :
  Json.skip_json_ws (Json.stringify_elem v ++ rest) = Json.stringify_elem v ++ rest.
Proof.
  destruct (stringify_elem_head v) as (c & r & -> & Hw & _).
  cbn [append Json.skip_json_ws]. now rewrite Hw.
Qed.

Lemma concat_cons (sep x : string) (y : string) (l : list string) :
  String.concat sep (x :: y :: l) = x ++ sep ++ String.concat sep (y :: l).
Proof. reflexivity. Qed.

Lemma append_empty_r (s : string) : s ++ "" = s.
Proof. induction s; simpl; congruence. Qed.

Lemma concat_head (sep x : string) (l : list string) :
  exists t, String.concat sep (x :: l) = x ++ t.
Proof.
  destruct l as [|y l].
  - exists EmptyString. simpl. now rewrite append_empty_r.
  - eexists. apply concat_cons.
Qed.

Lemma skip_json_ws_concat (v : jsval) (l : list jsval) (rest : string) :
  Json.skip_json_ws
    (String.concat "," (map Json.stringify_elem (v :: l)) ++ rest) =
  String.concat "," (map Json.stringify_elem (v :: l)) ++ rest.
Proof.
  cbn [map].
  destruct (concat_head "," (Json.stringify_elem v) (map Json.stringify_elem l))
    as [t ->].
  rewrite append_assoc. apply skip_json_ws_elem.
Qed.

Lemma skip_json_ws_comma (r : string) :
  Json.skip_json_ws (String "," r) = String "," r.
Proof. reflexivity. Qed.

Lemma parse_elems_concat (l : list jsval) :
  forall (fuel : nat) (rest : string),
    l <> [] -> Forall (fun v => v <> JUndefined) l ->
    (List.length l <= fuel)%nat ->
    Json.parse_elems fuel
      (String.concat "," (map Json.stringify_elem l) ++ String "]" rest) =
    Some (l, rest).
Proof.
  induction l as [|v l IH]; intros fuel rest Hne Hall Hfuel; [congruence|].
  inversion Hall as [|? ? Hv Hl]; subst.
  destruct fuel as [|fuel]; [simpl in Hfuel; lia|].
  destruct l as [|w l].
  - cbn [map String.concat Json.parse_elems].
    rewrite parse_value_elem by (auto; eexists; eauto). reflexivity.
  - cbn [map]. rewrite concat_cons, !append_assoc. cbn [Json.parse_elems].
    rewrite parse_value_elem by (auto; eexists; left; reflexivity).
    cbn [append].
    change (Json.stringify_elem w :: map Json.stringify_elem l)
      with (map Json.stringify_elem (w :: l)).
    rewrite skip_json_ws_comma. cbv beta iota.
    rewrite skip_json_ws_concat.
    rewrite IH; [reflexivity|discriminate|assumption|simpl in *; lia].
Qed.

Lemma length_append (a b : string) :
  String.length (a ++ b) = (String.length a + String.length b)%nat.
Proof. induction a; simpl; congruence. Qed.

Lemma concat_length (l : list jsval) (rest : string) :
  (List.length l <=
   String.length (String.concat "," (map Json.stringify_elem l) ++ rest))%nat.
Proof.
  induction l as [|v l IH]; [simpl; lia|].
  destruct (stringify_elem_head v) as (c & r & Hs & _).
  destruct l as [|w l].
  - cbn [map String.concat]. rewrite Hs. simpl. lia.
  - cbn [map]. rewrite concat_cons, Hs, !append_assoc.
    cbn [append String.length]. rewrite length_append.
    cbn [append String.length]. cbn [map] in IH. simpl List.length in *. lia.
Qed.

Lemma strip_bracket_concat (v : jsval) (l : list jsval) (rest : string) :
  Json.strip_prefix "]"
    (String.concat "," (map Json.stringify_elem (v :: l)) ++ rest) = None.
Proof.
  cbn [map].
  destruct (concat_head "," (Json.stringify_elem v) (map Json.stringify_elem l))
    as [t ->].
  destruct (stringify_elem_head v) as (c & r & -> & _ & Hb).
  cbn [append Json.strip_prefix]. now rewrite Hb.
Qed.

Theorem parse_stringify (l : list jsval) :
  Forall (fun v => v <> JUndefined) l ->
  Json.parse (Json.stringify l) = Some l.
Proof.
  intros Hall. unfold Json.stringify, Json.parse.
  destruct l as [|v l]; [reflexivity|].
  cbn [append].
  change (Json.skip_json_ws (String "[" ?x)) with (String "[" x).
  cbv beta iota zeta.
  rewrite skip_json_ws_concat, strip_bracket_concat.
  rewrite parse_elems_concat; [reflexivity|discriminate|assumption|].
  apply concat_length.
Qed.

(* ================================================================== *)
(** ** The handler *)

Local Open Scope list_scope.

Lemma strict_eq_iff (a b : jsval) : strict_eq a b = true <-> a = b.
Proof.
  destruct a, b; simpl; split; intros H; try congruence; try discriminate.
  - apply Bool.eqb_prop in H. congruence.
  - injection H as ->. apply Bool.eqb_reflx.
  - apply Z.eqb_eq in H. congruence.
  - injection H as ->. apply Z.eqb_refl.
  - apply String.eqb_eq in H. congruence.
  - injection H as ->. apply String.eqb_refl.
Qed.

Lemma includes_iff (h : jsval) (hs : list jsval) :
  existsb (fun x => strict_eq x h) hs = true <-> In h hs.
Proof.
  rewrite existsb_exists. split.
  - intros (x & Hin & Heq). apply strict_eq_iff in Heq. now subst.
  - intros Hin. exists h. split; [assumption|now apply strict_eq_iff].
Qed.

Lemma includes_false (h : jsval) (hs : list jsval) :
  existsb (fun x => strict_eq x h) hs = false <-> ~ In h hs.
Proof.
  rewrite <- includes_iff. destruct (existsb _ hs); split; congruence.
Qed.

Lemma truthy_defined (v : jsval) : truthy v = true -> v <> JUndefined.
Proof. intros H ->. discriminate. Qed.

Lemma validate_eq e db api key hwid info :
  validate e db api key hwid info =
  case_validate_key e db (validate_body api key hwid info).
Proof. reflexivity. Qed.

Lemma handler_cases (e : env) (db : database) (ev : event) (P : result -> Prop) :
  (forall r, P (db, r)) ->
  P (case_create_app e db (request_body ev)) ->
  P (case_delete_app e db (request_body ev)) ->
  P (case_create_key e db (request_body ev)) ->
  P (case_delete_key e db (request_body ev)) ->
  P (case_ban_key e db (request_body ev)) ->
  P (case_reset_hwid e db (request_body ev)) ->
  P (case_add_support e db (request_body ev)) ->
  P (case_delete_support e db (request_body ev)) ->
  P (case_validate_key e db (request_body ev)) ->
  P (handler e db ev).
Proof.
  intros Hsame Hca Hda Hck Hdk Hbk Hrh Has Hds Hvk.
  unfold handler, request_body in *.
  destruct (String.eqb (httpMethod ev) "OPTIONS"); [apply Hsame|].
  assert (Hroute : forall b,
             P (case_create_app e db b) -> P (case_delete_app e db b) ->
             P (case_create_key e db b) -> P (case_delete_key e db b) ->
             P (case_ban_key e db b) -> P (case_reset_hwid e db b) ->
             P (case_add_support e db b) -> P (case_delete_support e db b) ->
             P (case_validate_key e db b) -> P (route e db ev b)).
  { clear - Hsame. intros b H1 H2 H3 H4 H5 H6 H7 H8 H9.
    unfold route. destruct (_ && _); [apply Hsame|].
    unfold dispatch, case_default.
    destruct (Body.action b); try (destruct (String.eqb _ _); apply Hsame).
    repeat match goal with
           | |- P (if ?c then _ else _) => destruct c
           end; try assumption; try apply Hsame;
      unfold case_check_support, case_check_key, case_get_apps,
        case_get_my_apps, case_get_keys, case_get_supports,
        case_check_permission;
      repeat match goal with
             | |- P (if ?c then _ else _) => destruct c
             | |- P (match ?c with _ => _ end) => destruct c
             end; apply Hsame. }
  destruct (String.eqb (httpMethod ev) "POST").
  - destruct (body ev); try apply Hsame; now apply Hroute.
  - now apply Hroute.
Qed.

Lemma handler_action (e : env) (db : database) (ev : event) (a : string) :
  Body.action (request_body ev) = JStr a ->
  handler e db ev = dispatch e db ev (request_body ev).
Proof.
  unfold handler, request_body, route.
  destruct (String.eqb (httpMethod ev) "POST") eqn:Hm; [|discriminate].
  apply String.eqb_eq in Hm. rewrite Hm. cbn [String.eqb Ascii.eqb Bool.eqb andb].
  destruct (body ev); try discriminate. reflexivity.
Qed.

Lemma param_main_admin (v : jsval) :
  param v = Some MAIN_ADMIN_ID -> v = JStr MAIN_ADMIN_ID.
Proof.
  destruct v as [| |[]|z|s]; simpl; try discriminate.
  - destruct z as [|p|p]; [discriminate| |discriminate].
    rewrite string_of_Z_pos.
    destruct (to_uint_string p) as (c & r & k & Hs & Hc & _).
    rewrite Hs. intros H. injection H as -> _. discriminate Hc.
  - congruence.
Qed.

Lemma insert_app_frame nm api_key uid now db db' :
  insert_app nm api_key uid now db = inr db' ->
  keys db' = keys db /\ supports db' = supports db /\
  exists a, applications db' = (applications db ++ [a]).
Proof.
  unfold insert_app. branches; intros H; try discriminate.
  injection H as <-. repeat split. eexists. reflexivity.
Qed.

Lemma insert_key_frame k a p expires limit now db db' :
  insert_key k a p expires limit now db = inr db' ->
  applications db' = applications db /\ supports db' = supports db /\
  exists ks as_ ps ex,
    keys db' = (keys db ++ [fresh_key ks as_ ps now ex limit]) /\
    existsb (fun r => String.eqb (Key.key r) ks) (keys db) = false /\
    existsb (fun r => String.eqb (App.api_key r) as_) (applications db) = true.
Proof.
  unfold insert_key. branches; intros H; try discriminate.
  injection H as <-. repeat split. eexists _, _, _, _. split; [reflexivity|].
  split; [assumption|]. now apply negb_false_iff.
Qed.

Lemma insert_support_frame uid by_ now db db' :
  insert_support uid by_ now db = inr db' ->
  applications db' = applications db /\ keys db' = keys db /\
  exists s, supports db' = (supports db ++ [s]).
Proof.
  unfold insert_support. branches; intros H; try discriminate.
  injection H as <-. repeat split. eexists. reflexivity.
Qed.

Lemma delete_support_keeps_admin (uid : jsval) (db : database) :
  strict_eq uid (JStr MAIN_ADMIN_ID) = false ->
  has_main_admin db -> has_main_admin (delete_support uid db).
Proof.
  intros Hne (s & Hin & Hs). exists s. split; [|exact Hs].
  unfold delete_support. cbn [supports]. apply filter_In. split; [exact Hin|].
  unfold eq_param. destruct (param uid) as [t|] eqn:Hp; [|reflexivity].
  destruct (String.eqb (Support.user_id s) t) eqn:Heq; [|reflexivity].
  apply String.eqb_eq in Heq. rewrite Hs in Heq. subst t.
  apply param_main_admin in Hp. subst uid. discriminate Hne.
Qed.

Lemma has_main_admin_supports (db db' : database) :
  supports db' = supports db -> has_main_admin db -> has_main_admin db'.
Proof. unfold has_main_admin. intros ->. auto. Qed.

Lemma step_keeps_admin (e : env) (db : database) (ev : event) :
  has_main_admin db -> has_main_admin (fst (handler e db ev)).
Proof.
  intros Hadm. apply handler_cases; try (intros; exact Hadm).
  - unfold case_create_app. branches; try exact Hadm.
    frames_by insert_app_frame insert_key_frame insert_support_frame.
    eapply has_main_admin_supports; [|exact Hadm]. assumption.
  - unfold case_delete_app. branches; exact Hadm.
  - unfold case_create_key. branches; try exact Hadm.
    frames_by insert_app_frame insert_key_frame insert_support_frame.
    eapply has_main_admin_supports; [|exact Hadm]. assumption.
  - unfold case_delete_key. branches; exact Hadm.
  - unfold case_ban_key. branches; exact Hadm.
  - unfold case_reset_hwid. branches; exact Hadm.
  - unfold case_add_support. branches; try exact Hadm.
    frames_by insert_app_frame insert_key_frame insert_support_frame.
    destruct Hadm as (a & Hin & Ha). exists a. cbn [fst].
    match goal with H : supports _ = _ |- _ => rewrite H end.
    split; [apply in_or_app; now left|exact Ha].
  - unfold case_delete_support. branches; try exact Hadm;
      now apply delete_support_keeps_admin.
  - unfold case_validate_key. branches; exact Hadm.
Qed.

(** C6.  The super-admin id is never removed from [supports]: a
    [delete_support] request whose [user_id] is the super-admin id is
    answered with a failure (status 400 or 403) and leaves the store as it
    was, whoever sends it; and along every run of requests a store that
    holds the super-admin's row still holds it. *)
Theorem main_admin_never_removed :
  (forall e db ev,
      Body.action (request_body ev) = JStr "delete_support" ->
      param (Body.user_id (request_body ev)) = Some MAIN_ADMIN_ID ->
      exists status msg,
        handler e db ev = (db, jsonResponse e status (no msg)) /\
        (status = 400 \/ status = 403)) /\
  (forall requests db, has_main_admin db -> has_main_admin (run db requests)).
Proof.
  split.
  - intros e db ev Hact Huid. rewrite (handler_action e db ev _ Hact).
    unfold dispatch. rewrite Hact. cbn [String.eqb Ascii.eqb Bool.eqb orb].
    apply param_main_admin in Huid. unfold case_delete_support. rewrite Huid.
    destruct (missing _); [eexists _, _; split; [reflexivity|now left]|].
    destruct (negb _); [eexists _, _; split; [reflexivity|now right]|].
    cbn. eexists _, _; split; [reflexivity|now left].
  - induction requests as [|[e ev] rs IH]; intros db Hadm; [exact Hadm|].
    cbn [run fold_left]. apply IH. cbn [fst snd]. now apply step_keeps_admin.
Qed.

(** *** The rows of [keys] along a request *)

Lemma ban_row_identity : keeps_identity ban_row.
Proof. intros r; split; reflexivity. Qed.

Lemma reset_row_identity : keeps_identity reset_row.
Proof. intros r; split; reflexivity. Qed.

Lemma bind_row_identity hwids info now : keeps_identity (bind_row hwids info now).
Proof. intros r; split; reflexivity. Qed.

Lemma key_matches_identity f k a r :
  keeps_identity f -> key_matches k a (f r) = key_matches k a r.
Proof. intros Hf. unfold key_matches. destruct (Hf r) as [-> ->]. reflexivity. Qed.

Lemma select_key_update f k a db :
  keeps_identity f ->
  select_key (update_key f k a db) k a = map f (select_key db k a).
Proof.
  intros Hf. unfold select_key, update_key. cbn [keys].
  induction (keys db) as [|r l IH]; [reflexivity|].
  cbn [map filter]. destruct (key_matches k a r) eqn:Hm.
  - rewrite key_matches_identity, Hm by exact Hf. cbn [map]. now rewrite IH.
  - rewrite Hm. exact IH.
Qed.

Lemma map_update_key_col {A} (col : Key.row -> A) f k a db :
  (forall r, col (f r) = col r) ->
  map col (keys (update_key f k a db)) = map col (keys db).
Proof.
  intros Hf. unfold update_key. cbn [keys]. rewrite map_map.
  apply map_ext. intros r. destruct (key_matches k a r); [apply Hf|reflexivity].
Qed.

Lemma references_ok_update f k a db :
  keeps_identity f -> references_ok db -> references_ok (update_key f k a db).
Proof.
  intros Hf Hok r Hin. unfold update_key in Hin. cbn [keys] in Hin.
  apply in_map_iff in Hin. destruct Hin as (r0 & <- & Hin0).
  destruct (Hok r0 Hin0) as (ap & Hap & Heq). exists ap. split; [exact Hap|].
  destruct (key_matches k a r0); [|exact Heq].
  destruct (Hf r0) as [_ ->]. exact Heq.
Qed.

Lemma references_ok_delete_app nm db :
  references_ok db -> references_ok (delete_app nm db).
Proof.
  intros Hok r Hin. unfold delete_app in *. cbn [keys applications] in *.
  apply filter_In in Hin. destruct Hin as [Hin Hgone].
  destruct (Hok r Hin) as (ap & Hap & Heq). exists ap. split; [|exact Heq].
  apply filter_In. split; [exact Hap|].
  destruct (eq_param (App.name ap) nm) eqn:Hn; [|reflexivity].
  exfalso. apply negb_true_iff in Hgone.
  assert (Hex : existsb (fun a0 => String.eqb (App.api_key a0) (Key.api r))
                        (select_app_by_name db nm) = true).
  { apply existsb_exists. exists ap. split.
    - unfold select_app_by_name. apply filter_In. now split.
    - rewrite Heq. apply String.eqb_refl. }
  congruence.
Qed.

Lemma step_references_ok (e : env) (db : database) (ev : event) :
  references_ok db -> references_ok (fst (handler e db ev)).
Proof.
  intros Hok. apply handler_cases; try (intros; exact Hok).
  - unfold case_create_app. branches; try exact Hok.
   
    frames_by insert_app_frame insert_key_frame insert_support_frame.
    cbn [fst].
    intros r Hin.
    match goal with H : keys _ = keys db |- _ => rewrite H in Hin end.
    destruct (Hok r Hin) as (ap & Hap & Heq). exists ap. split; [|exact Heq].
    match goal with H : applications _ = _ |- _ => rewrite H end.
    apply in_or_app. now left.
  - unfold case_delete_app. branches; try exact Hok.
    now apply references_ok_delete_app.
  - unfold case_create_key. branches; try exact Hok.
   
    frames_by insert_app_frame insert_key_frame insert_support_frame.
    cbn [fst].
    intros r Hin.
    match goal with H : keys _ = _ |- _ => rewrite H in Hin end.
    match goal with H : applications _ = _ |- _ => rewrite H end.
    apply in_app_or in Hin. destruct Hin as [Hin | [<- | []]].
    + now apply Hok.
    + match goal with H : existsb _ (applications db) = true |- _ =>
        apply existsb_exists in H; destruct H as (ap & Hap & Heq) end.
      exists ap. split; [exact Hap|]. now apply String.eqb_eq in Heq.
  - unfold case_delete_key. branches; try exact Hok;
      intros r Hin; unfold delete_key in Hin; cbn [fst keys] in Hin;
      apply filter_In in Hin; destruct Hin as [Hin _]; now apply Hok.
  - unfold case_ban_key. branches; try exact Hok;
      apply references_ok_update; auto using ban_row_identity.
  - unfold case_reset_hwid. branches; try exact Hok;
      apply references_ok_update; auto using reset_row_identity.
  - unfold case_add_support. branches; try exact Hok.
   
    frames_by insert_app_frame insert_key_frame insert_support_frame.
    cbn [fst].
    intros r Hin.
    match goal with H : keys _ = keys db |- _ => rewrite H in Hin end.
    match goal with H : applications _ = _ |- _ => rewrite H end.
    now apply Hok.
  - unfold case_delete_support. branches; exact Hok.
  - unfold case_validate_key. branches; try exact Hok.
    apply references_ok_update; auto using bind_row_identity.
Qed.

Lemma initial_references_ok (e : env) : references_ok (initializeTables e Db.empty).
Proof. intros r []. Qed.

Lemma reachable_references_ok (allowed : event -> Prop) (db : database) :
  reachable_by allowed db -> references_ok db.
Proof.
  induction 1; [apply initial_references_ok|now apply step_references_ok].
Qed.

(** *** One validation *)

Lemma eq_param_param (col : string) (v : jsval) :
  eq_param col v = true -> param v = Some col.
Proof.
  unfold eq_param. destruct (param v) as [s|]; [|discriminate].
  intros H. apply String.eqb_eq in H. now subst.
Qed.

Lemma select_key_head db key api vk_k rest :
  select_key db key api = vk_k :: rest ->
  In vk_k (keys db) /\ key_matches key api vk_k = true.
Proof.
  intros H. apply filter_In. unfold select_key in H. rewrite H. now left.
Qed.

Lemma application_of_key db key api vk_k rest :
  references_ok db -> select_key db key api = vk_k :: rest ->
  exists a l, select_app_by_key db api = a :: l.
Proof.
  intros Hok Hsel. apply select_key_head in Hsel. destruct Hsel as [Hin Hm].
  destruct (Hok _ Hin) as (ap & Hap & Heq).
  unfold key_matches in Hm. apply andb_true_iff in Hm. destruct Hm as [_ Hm].
  assert (Hf : In ap (select_app_by_key db api)).
  { unfold select_app_by_key. apply filter_In. split; [exact Hap|].
    now rewrite Heq. }
  destruct (select_app_by_key db api) as [|a l]; [destruct Hf|eauto].
Qed.

Lemma missing3_false (a b c : jsval) :
  truthy a = true -> truthy b = true -> truthy c = true ->
  missing [a; b; c] = false.
Proof. intros Ha Hb Hc. unfold missing. cbn. now rewrite Ha, Hb, Hc. Qed.

(** C2.  A validation of a key whose [banned] column is true is answered
    ['Key banned'] and changes nothing, for every hwid and system_info, at
    every clock reading (expired or not), whatever the [hwid] column and the
    device limit hold: the ban is tested before the expiry, the bound hwids
    and the device limit.  The required fields are present and the store
    satisfies the foreign key of [keys.api]. *)
Theorem banned_key_always_rejected
    (e : env) (db : database) (api key hwid info : jsval)
    (vk_k : Key.row) (rest : list Key.row) :
  references_ok db ->
  truthy api = true -> truthy key = true -> truthy hwid = true ->
  select_key db key api = vk_k :: rest ->
  Key.banned vk_k = Some true ->
  validate e db api key hwid info = (db, jsonResponse e 200 (no "Key banned")).
Proof.
  intros Hok Ha Hk Hh Hsel Hban.
  destruct (application_of_key _ _ _ _ _ Hok Hsel) as (ap & l & Happ).
  rewrite validate_eq. unfold case_validate_key. cbn [validate_body Body.api
    Body.key Body.hwid Body.system_info].
  rewrite missing3_false, Happ, Hsel, Hban by assumption. reflexivity.
Qed.

Lemma not_banned (r : Key.row) :
  Key.banned r <> Some true ->
  match Key.banned r with Some f => f | None => false end = false.
Proof. destruct (Key.banned r) as [[]|]; congruence. Qed.

(** The three outcomes of a validation of a key that is neither banned nor
    expired. *)
Lemma validate_live
    (e : env) (db : database) (api key hwid info : jsval)
    (vk_k : Key.row) (rest : list Key.row) (hs : list jsval) :
  references_ok db ->
  truthy api = true -> truthy key = true -> truthy hwid = true ->
  select_key db key api = vk_k :: rest ->
  Key.banned vk_k <> Some true ->
  clock e <= Key.expires_at vk_k ->
  bound_hwids vk_k = Some hs ->
  validate e db api key hwid info =
  if existsb (fun h => strict_eq h hwid) hs
  then (db, jsonResponse e 200 (ok "Valid key"))
  else if effective_limit vk_k <=? Z.of_nat (List.length hs)
  then (db, jsonResponse e 200 (no "Device limit reached"))
  else (update_key
          (bind_row (Some (Json.stringify (hs ++ [hwid])))
                    (param (or_else info JNull)) (db_clock e))
          key api db,
        jsonResponse e 200 (ok "Valid key")).
Proof.
  intros Hok Ha Hk Hh Hsel Hban Hexp Hhs.
  destruct (application_of_key _ _ _ _ _ Hok Hsel) as (ap & l & Happ).
  rewrite validate_eq. unfold case_validate_key. cbn [validate_body Body.api
    Body.key Body.hwid Body.system_info].
  rewrite missing3_false, Happ, Hsel, not_banned, Hhs by assumption.
  replace (Key.expires_at vk_k <? clock e) with false
    by (symmetry; apply Z.ltb_ge; exact Hexp).
  reflexivity.
Qed.

Lemma stringify_not_empty (l : list jsval) :
  String.eqb (Json.stringify l) "" = false.
Proof. reflexivity. Qed.

Lemma bound_hwids_stringify (r : Key.row) (hs : list jsval) :
  Key.hwid r = Some (Json.stringify hs) ->
  Forall (fun v => v <> JUndefined) hs ->
  bound_hwids r = Some hs.
Proof.
  intros Hr Hall. unfold bound_hwids. rewrite Hr, stringify_not_empty.
  now apply parse_stringify.
Qed.

Lemma effective_limit_stored (r : Key.row) (n : Z) :
  Key.device_limit r = Some n -> n <> 0 -> effective_limit r = n.
Proof. unfold effective_limit. intros -> Hn. destruct n; congruence. Qed.

(** *** A run of validations of one key *)

Lemma validate_all_binds (api key : jsval) (calls : list (env * jsval * jsval)) :
  forall (db : database) (vk_k : Key.row) (rest : list Key.row)
         (hs : list jsval) (n : Z),
    references_ok db ->
    truthy api = true -> truthy key = true ->
    select_key db key api = vk_k :: rest ->
    Key.banned vk_k <> Some true ->
    bound_hwids vk_k = Some hs ->
    Forall (fun v => v <> JUndefined) hs ->
    Key.device_limit vk_k = Some n -> 1 <= n ->
    Z.of_nat (List.length hs) + Z.of_nat (List.length calls) <= n ->
    NoDup (hs ++ map call_hwid calls) ->
    Forall (fun c => truthy (call_hwid c) = true /\
                     clock (call_env c) <= Key.expires_at vk_k) calls ->
    exists vk_k' rest',
      Forall accepted (snd (validate_all db api key calls)) /\
      references_ok (fst (validate_all db api key calls)) /\
      select_key (fst (validate_all db api key calls)) key api = vk_k' :: rest' /\
      Key.banned vk_k' = Key.banned vk_k /\
      Key.expires_at vk_k' = Key.expires_at vk_k /\
      Key.device_limit vk_k' = Key.device_limit vk_k /\
      bound_hwids vk_k' = Some (hs ++ map call_hwid calls).
Proof.
  induction calls as [|[[e h] i] calls IH];
    intros db vk_k rest hs n Hok Ha Hk Hsel Hban Hhs Hdef Hlim Hn Hlen Hnd Hcalls.
  - exists vk_k, rest. cbn. rewrite app_nil_r. repeat split; auto.
  - inversion Hcalls as [|? ? [Hh Hexp] Hcalls']; subst.
    cbn [call_hwid call_env fst snd] in Hh, Hexp.
    cbn [map call_hwid fst snd] in Hnd.
    assert (Hnotin : ~ In h hs).
    { intros Hin. apply NoDup_remove_2 in Hnd. apply Hnd.
      apply in_or_app. now left. }
    pose proof (validate_live e db api key h i vk_k rest hs
                  Hok Ha Hk Hh Hsel Hban Hexp Hhs) as Hv.
    rewrite (proj2 (includes_false h hs) Hnotin) in Hv.
    rewrite (effective_limit_stored vk_k n Hlim) in Hv by lia.
    replace (n <=? Z.of_nat (List.length hs)) with false in Hv
      by (symmetry; apply Z.leb_gt; cbn [List.length] in Hlen; lia).
    set (f := bind_row (Some (Json.stringify (hs ++ [h])))
                       (param (or_else i JNull)) (db_clock e)) in Hv.
    assert (Hdef' : Forall (fun v => v <> JUndefined) (hs ++ [h])).
    { apply Forall_app. split; [exact Hdef|].
      constructor; [now apply truthy_defined|constructor]. }
    destruct (IH (update_key f key api db) (f vk_k) (map f rest) (hs ++ [h]) n)
      as (vk_k' & rest' & Hacc & Hok' & Hsel' & Hb' & He' & Hl' & Hbound');
      try assumption.
    + apply references_ok_update; [apply bind_row_identity|exact Hok].
    + rewrite select_key_update, Hsel by apply bind_row_identity. reflexivity.
    + now apply bound_hwids_stringify.
    + rewrite length_app. cbn [List.length] in *. lia.
    + rewrite <- app_assoc. exact Hnd.
    + exists vk_k', rest'. cbn [validate_all]. rewrite Hv.
      destruct (validate_all (update_key f key api db) api key calls)
        as [db2 answers] eqn:Hrun.
      cbn [fst snd] in *. rewrite <- app_assoc in Hbound'.
      repeat split; try assumption.
      constructor; [eexists; reflexivity|exact Hacc].
Qed.

(** C1, for hwids that are strings.  Whenever the key has stored device
    limit [n >= 1] and [n] hwid strings bound, a validation with a bound
    string is accepted and one with any other non-empty string is answered
    ['Device limit reached'], provided the key is not banned and the clock
    is not past its expiry; a banned key is answered ['Key banned'], and one
    that is not banned but expired ['Key expired'], whichever string is
    sent.  Every one of these answers leaves the store unchanged.  Such a
    state is reached from a key with no device bound by [n] validations with
    pairwise different non-empty strings, each before the expiry: all of
    them are accepted and the [n] strings are bound.  (The handler compares
    with [includes]; the statement is about strings, as the data model has
    them.) *)
Theorem device_limit_enforced :
  (forall (e : env) (db : database) (api key hwid info : jsval)
          (vk_k : Key.row) (rest : list Key.row) (n : Z) (hs : list jsval),
      references_ok db ->
      truthy api = true -> truthy key = true ->
      is_string hwid -> truthy hwid = true ->
      select_key db key api = vk_k :: rest ->
      Key.device_limit vk_k = Some n -> 1 <= n ->
      bound_hwids vk_k = Some hs -> Forall is_string hs ->
      Z.of_nat (List.length hs) = n ->
      (Key.banned vk_k = Some true ->
       validate e db api key hwid info =
       (db, jsonResponse e 200 (no "Key banned"))) /\
      (Key.banned vk_k <> Some true -> Key.expires_at vk_k < clock e ->
       validate e db api key hwid info =
       (db, jsonResponse e 200 (no "Key expired"))) /\
      (Key.banned vk_k <> Some true -> clock e <= Key.expires_at vk_k ->
       (In hwid hs ->
        validate e db api key hwid info =
        (db, jsonResponse e 200 (ok "Valid key"))) /\
       (~ In hwid hs ->
        validate e db api key hwid info =
        (db, jsonResponse e 200 (no "Device limit reached"))))) /\
  (forall (db : database) (api key : jsval) (vk_k : Key.row)
          (rest : list Key.row) (n : Z) (calls : list (env * jsval * jsval)),
      references_ok db ->
      truthy api = true -> truthy key = true ->
      select_key db key api = vk_k :: rest ->
      Key.banned vk_k <> Some true ->
      bound_hwids vk_k = Some [] ->
      Key.device_limit vk_k = Some n -> 1 <= n ->
      Z.of_nat (List.length calls) = n ->
      NoDup (map call_hwid calls) ->
      Forall (fun c => is_string (call_hwid c) /\
                       truthy (call_hwid c) = true /\
                       clock (call_env c) <= Key.expires_at vk_k) calls ->
      Forall accepted (snd (validate_all db api key calls)) /\
      (exists (vk_n : Key.row) (rest_n : list Key.row),
          select_key (fst (validate_all db api key calls)) key api =
            vk_n :: rest_n /\
          bound_hwids vk_n = Some (map call_hwid calls) /\
          Key.device_limit vk_n = Some n /\
          Key.banned vk_n = Key.banned vk_k /\
          Key.expires_at vk_n = Key.expires_at vk_k) /\
      forall (e : env) (hwid info : jsval),
        is_string hwid -> truthy hwid = true ->
        let db_n := fst (validate_all db api key calls) in
        (clock e <= Key.expires_at vk_k ->
         (In hwid (map call_hwid calls) ->
          validate e db_n api key hwid info =
          (db_n, jsonResponse e 200 (ok "Valid key"))) /\
         (~ In hwid (map call_hwid calls) ->
          validate e db_n api key hwid info =
          (db_n, jsonResponse e 200 (no "Device limit reached")))) /\
        (Key.expires_at vk_k < clock e ->
         validate e db_n api key hwid info =
         (db_n, jsonResponse e 200 (no "Key expired")))).
Proof.
  assert (Hfound : forall e db api key hwid info vk_k rest,
             references_ok db ->
             truthy api = true -> truthy key = true -> truthy hwid = true ->
             select_key db key api = vk_k :: rest ->
             (Key.banned vk_k = Some true ->
              validate e db api key hwid info =
              (db, jsonResponse e 200 (no "Key banned"))) /\
             (Key.banned vk_k <> Some true -> Key.expires_at vk_k < clock e ->
              validate e db api key hwid info =
              (db, jsonResponse e 200 (no "Key expired")))).
  { intros e db api key hwid info vk_k rest Hok Ha Hk Hh Hsel.
    destruct (application_of_key _ _ _ _ _ Hok Hsel) as (ap & l & Happ).
    rewrite validate_eq. unfold case_validate_key. cbn [validate_body Body.api
      Body.key Body.hwid Body.system_info].
    rewrite missing3_false, Happ, Hsel by assumption. split.
    - intros Hban. now rewrite Hban.
    - intros Hban Hexp. rewrite not_banned by assumption.
      apply Z.ltb_lt in Hexp. now rewrite Hexp. }
  assert (Hfull : forall e db api key hwid info vk_k rest n hs,
             references_ok db ->
             truthy api = true -> truthy key = true -> truthy hwid = true ->
             select_key db key api = vk_k :: rest ->
             Key.banned vk_k <> Some true ->
             clock e <= Key.expires_at vk_k ->
             Key.device_limit vk_k = Some n -> 1 <= n ->
             bound_hwids vk_k = Some hs -> Z.of_nat (List.length hs) = n ->
             (In hwid hs ->
              validate e db api key hwid info =
              (db, jsonResponse e 200 (ok "Valid key"))) /\
             (~ In hwid hs ->
              validate e db api key hwid info =
              (db, jsonResponse e 200 (no "Device limit reached")))).
  { intros e db api key hwid info vk_k rest n hs
           Hok Ha Hk Hh Hsel Hban Hexp Hlim Hn Hhs Hlen.
    pose proof (validate_live e db api key hwid info vk_k rest hs
                  Hok Ha Hk Hh Hsel Hban Hexp Hhs) as Hv.
    rewrite (effective_limit_stored vk_k n Hlim) in Hv by lia.
    replace (n <=? Z.of_nat (List.length hs)) with true in Hv
      by (symmetry; apply Z.leb_le; lia).
    split; intros Hin.
    - now rewrite (proj2 (includes_iff _ _) Hin) in Hv.
    - now rewrite (proj2 (includes_false _ _) Hin) in Hv. }
  split.
  - intros e db api key hwid info vk_k rest n hs
           Hok Ha Hk _ Hh Hsel Hlim Hn Hhs _ Hlen.
    destruct (Hfound e db api key hwid info vk_k rest) as [Hb Hx]; try assumption.
    split; [exact Hb|]. split; [exact Hx|].
    intros Hban Hexp. now apply (Hfull e db api key hwid info vk_k rest n hs).
  - intros db api key vk_k rest n calls
           Hok Ha Hk Hsel Hban Hhs Hlim Hn Hlen Hnd Hcalls.
    assert (Hcalls' : Forall (fun c => truthy (call_hwid c) = true /\
                                       clock (call_env c) <= Key.expires_at vk_k)
                             calls).
    { eapply Forall_impl; [|exact Hcalls]. cbn beta. tauto. }
    destruct (validate_all_binds api key calls db vk_k rest [] n)
      as (vk_k' & rest' & Hacc & Hok' & Hsel' & Hb' & He' & Hl' & Hbound');
      try assumption; try (cbn [List.length app]; lia); [constructor|].
    cbn [app] in Hbound'. split; [exact Hacc|]. split.
    { exists vk_k', rest'. repeat split; try assumption. congruence. }
    intros e hwid info _ Hh db_n. split.
    + intros Hexp.
      apply (Hfull e db_n api key hwid info vk_k' rest' n (map call_hwid calls));
        try assumption; try congruence.
      now rewrite length_map.
    + intros Hexp.
      apply (Hfound e db_n api key hwid info vk_k' rest'); try assumption;
        congruence.
Qed.

(** The decision of a validation once the row of the key is found. *)
Lemma validate_found
    (e : env) (db : database) (api key hwid info : jsval)
    (vk_k : Key.row) (rest : list Key.row) :
  references_ok db ->
  truthy api = true -> truthy key = true -> truthy hwid = true ->
  select_key db key api = vk_k :: rest ->
  validate e db api key hwid info =
  if match Key.banned vk_k with Some f => f | None => false end
  then (db, jsonResponse e 200 (no "Key banned"))
  else if Key.expires_at vk_k <? clock e
  then (db, jsonResponse e 200 (no "Key expired"))
  else
    match bound_hwids vk_k with
    | None => (db, Fault SyntaxError (clock e))
    | Some hs =>
        if existsb (fun h => strict_eq h hwid) hs
        then (db, jsonResponse e 200 (ok "Valid key"))
        else if effective_limit vk_k <=? Z.of_nat (List.length hs)
        then (db, jsonResponse e 200 (no "Device limit reached"))
        else (update_key
                (bind_row (Some (Json.stringify (hs ++ [hwid])))
                          (param (or_else info JNull)) (db_clock e))
                key api db,
              jsonResponse e 200 (ok "Valid key"))
    end.
Proof.
  intros Hok Ha Hk Hh Hsel.
  destruct (application_of_key _ _ _ _ _ Hok Hsel) as (ap & l & Happ).
  rewrite validate_eq. unfold case_validate_key. cbn [validate_body Body.api
    Body.key Body.hwid Body.system_info].
  rewrite missing3_false, Happ, Hsel by assumption. reflexivity.
Qed.




(** *** The first-used timestamp *)

Lemma handler_validate (e : env) (db : database) (ev : event) :
  Body.action (request_body ev) = JStr "validate_key" ->
  handler e db ev = case_validate_key e db (request_body ev).
Proof.
  intros Hact. rewrite (handler_action e db ev _ Hact).
  unfold dispatch. now rewrite Hact.
Qed.

Lemma validate_rows (e : env) (db : database) (b : Body.t) :
  fst (case_validate_key e db b) = db \/
  exists hwids info,
    fst (case_validate_key e db b) =
    update_key (bind_row hwids info (db_clock e)) (Body.key b) (Body.api b) db.
Proof.
  unfold case_validate_key. branches; cbn [fst]; auto.
  right. eexists _, _. reflexivity.
Qed.

Lemma nth_error_update_key f k a db i r :
  nth_error (keys db) i = Some r ->
  nth_error (keys (update_key f k a db)) i =
  Some (if key_matches k a r then f r else r).
Proof.
  intros H. unfold update_key. cbn [keys].
  rewrite nth_error_map, H. reflexivity.
Qed.

Lemma validate_first_used (e : env) (db : database) (b : Body.t)
    (i : nat) (r : Key.row) :
  nth_error (keys db) i = Some r ->
  exists r',
    nth_error (keys (fst (case_validate_key e db b))) i = Some r' /\
    Key.key r' = Key.key r /\
    (r' = r \/
     Key.first_used r' =
     Some (match Key.first_used r with Some t => t | None => db_clock e end)).
Proof.
  intros Hr. destruct (validate_rows e db b) as [-> | (hwids & info & ->)].
  - exists r. auto.
  - rewrite (nth_error_update_key _ _ _ _ _ _ Hr).
    destruct (key_matches _ _ r); eexists; split; try reflexivity.
    + split; [reflexivity|]. right. cbn [bind_row Key.first_used].
      now destruct (Key.first_used r).
    + auto.
Qed.

(** *** The system-info column *)

Lemma param_or_null (info : jsval) :
  param (or_else info JNull) =
  if truthy info then Some (ToString info) else None.
Proof. unfold or_else. destruct info as [| |[]|z|s]; try reflexivity;
         cbn [truthy]; destruct (negb _); reflexivity. Qed.

(** C8, as the handler has it.  An accepted validation that binds a new
    hwid sets [system_info] to the text of the request's system_info, and to
    NULL when the request has none (or a falsy one): the earlier value is
    overwritten either way. *)
Theorem binding_overwrites_system_info
    (e : env) (db : database) (api key hwid info : jsval)
    (vk_k : Key.row) (rest : list Key.row) (hs : list jsval) :
  select_key db key api = vk_k :: rest ->
  bound_hwids vk_k = Some hs ->
  ~ In hwid hs ->
  accepted (snd (validate e db api key hwid info)) ->
  exists r' rest',
    select_key (fst (validate e db api key hwid info)) key api = r' :: rest' /\
    Key.hwid r' = Some (Json.stringify (hs ++ [hwid])) /\
    Key.system_info r' =
      (if truthy info then Some (ToString info) else None).
Proof.
  intros Hsel Hhs Hnotin [t Hacc]. rewrite validate_eq in *.
  unfold case_validate_key in *.
  cbn [validate_body Body.api Body.key Body.hwid Body.system_info] in *.
  rewrite Hsel, Hhs, (proj2 (includes_false _ _) Hnotin) in *.
  destruct (missing _); [discriminate Hacc|].
  destruct (select_app_by_key db api); [discriminate Hacc|].
  destruct (match Key.banned vk_k with Some f => f | None => false end);
    [discriminate Hacc|].
  destruct (Key.expires_at vk_k <? clock e); [discriminate Hacc|].
  destruct (effective_limit vk_k <=? _); [discriminate Hacc|].
  cbn [fst]. rewrite select_key_update, Hsel by apply bind_row_identity.
  eexists _, _. split; [reflexivity|]. split; [reflexivity|].
  cbn [bind_row Key.system_info]. apply param_or_null.
Qed.

(** *** The rows of reachable stores *)

Lemma row_inv_bound Q r hs :
  (Key.hwid r = None /\ hs = [] \/
   Key.hwid r = Some (Json.stringify hs) /\ hs <> []) ->
  Forall (fun h => truthy h = true /\ Q h) hs ->
  bound_hwids r = Some hs.
Proof.
  intros [[Hr ->] | [Hr _]] Hall.
  - unfold bound_hwids. now rewrite Hr.
  - apply bound_hwids_stringify; [exact Hr|].
    eapply Forall_impl; [|exact Hall]. intros h [Hh _]. now apply truthy_defined.
Qed.

Lemma unique_keys_filter (keep : Key.row -> bool) (rows : list Key.row) :
  NoDup (map Key.key rows) -> NoDup (map Key.key (filter keep rows)).
Proof.
  induction rows as [|r rows IH]; cbn [map filter]; intros Hu; [constructor|].
  inversion Hu as [|? ? Hr Hrows]; subst. destruct (keep r); [|auto].
  cbn [map]. constructor; [|auto].
  intros Hin. apply Hr. apply in_map_iff in Hin. destruct Hin as (y & Hy & Hin).
  apply filter_In in Hin. apply in_map_iff. exists y. tauto.
Qed.

Lemma Forall_filter {A} (P : A -> Prop) (p : A -> bool) (l : list A) :
  Forall P l -> Forall P (filter p l).
Proof.
  intros H. apply Forall_forall. intros x Hin. apply filter_In in Hin.
  rewrite Forall_forall in H. now apply H.
Qed.

Lemma unique_keys_row (rows : list Key.row) (x y : Key.row) :
  NoDup (map Key.key rows) -> In x rows -> In y rows ->
  Key.key x = Key.key y -> x = y.
Proof.
  induction rows as [|z rows IH]; cbn [map]; intros Hu Hx Hy Hk; [destruct Hx|].
  inversion Hu as [|? ? Hz Hrows]; subst.
  destruct Hx as [-> | Hx], Hy as [-> | Hy]; auto.
  - exfalso. apply Hz. rewrite Hk. now apply in_map.
  - exfalso. apply Hz. rewrite <- Hk. now apply in_map.
Qed.

Lemma store_inv_keys Q db db' :
  keys db' = keys db -> store_inv Q db -> store_inv Q db'.
Proof. unfold store_inv, unique_keys. now intros ->. Qed.

Lemma store_inv_filter Q db db' p :
  keys db' = filter p (keys db) -> store_inv Q db -> store_inv Q db'.
Proof.
  unfold store_inv, unique_keys. intros -> [Hu Hr].
  split; [now apply unique_keys_filter|now apply Forall_filter].
Qed.

Lemma store_inv_update Q f k a db :
  keeps_identity f ->
  (forall r, In r (keys db) -> key_matches k a r = true ->
             row_inv Q r -> row_inv Q (f r)) ->
  store_inv Q db -> store_inv Q (update_key f k a db).
Proof.
  intros Hf Hrow [Hu Hr]. split.
  - unfold unique_keys. rewrite map_update_key_col; [exact Hu|].
    intros r. apply Hf.
  - unfold update_key. cbn [keys]. apply Forall_forall. intros r' Hin.
    apply in_map_iff in Hin. destruct Hin as (r & <- & Hin).
    rewrite Forall_forall in Hr.
    destruct (key_matches k a r) eqn:Hm; auto.
Qed.

Lemma row_inv_ban Q r : row_inv Q r -> row_inv Q (ban_row r).
Proof. intros H. exact H. Qed.

Lemma row_inv_reset Q r : row_inv Q r -> row_inv Q (reset_row r).
Proof.
  intros (hs & n & _ & _ & _ & Hn & Hn0 & _).
  exists [], n. cbn [reset_row Key.hwid Key.device_limit Key.first_used].
  repeat split; auto; try constructor; congruence.
Qed.

Lemma row_inv_fresh Q ks as_ ps now ex limit :
  limit <> 0 -> row_inv Q (fresh_key ks as_ ps now ex limit).
Proof.
  intros Hl. exists [], limit. cbn. repeat split; auto; try constructor;
    congruence.
Qed.

Lemma ck_limit_nonzero (v : jsval) :
  match parseInt v with Some 0 | None => 1 | Some n => n end <> 0.
Proof. destruct (parseInt v) as [[| |]|]; discriminate. Qed.

Lemma row_inv_bind Q (vk_k : Key.row) (hs : list jsval) (hwid : jsval)
    (info : option string) (now : Z) :
  row_inv Q vk_k ->
  bound_hwids vk_k = Some hs ->
  truthy hwid = true -> Q hwid ->
  existsb (fun h => strict_eq h hwid) hs = false ->
  (effective_limit vk_k <=? Z.of_nat (List.length hs)) = false ->
  row_inv Q (bind_row (Some (Json.stringify (hs ++ [hwid]))) info now vk_k).
Proof.
  intros (hs0 & n & Hcol & Hall & Hnd & Hn & Hn0 & Hle & Hfu) Hhs Hh HQ Hnot Hlim.
  rewrite (row_inv_bound Q vk_k hs0 Hcol Hall) in Hhs. injection Hhs as ->.
  rewrite (effective_limit_stored vk_k n Hn Hn0) in Hlim.
  apply Z.leb_gt in Hlim. apply includes_false in Hnot.
  exists (hs ++ [hwid]), n.
  cbn [bind_row Key.hwid Key.device_limit Key.first_used].
  split; [right; split; [reflexivity|now destruct hs]|].
  split; [apply Forall_app; split; [exact Hall|now repeat constructor]|].
  split.
  { apply NoDup_app; [exact Hnd|repeat constructor; auto|].
    intros x Hx [<- | []]. contradiction. }
  split; [exact Hn|]. split; [exact Hn0|].
  split; [right; rewrite length_app; cbn [List.length]; lia|].
  intros _. now destruct (Key.first_used vk_k).
Qed.

Lemma missing3_truthy (a b c : jsval) :
  missing [a; b; c] = false -> truthy c = true.
Proof.
  unfold missing. cbn. intros H.
  destruct (truthy a), (truthy b), (truthy c); cbn in H; congruence.
Qed.

Lemma same_key_same_row (db : database) (k a : jsval) (r vk_k : Key.row) :
  unique_keys db -> In r (keys db) -> In vk_k (keys db) ->
  key_matches k a r = true -> key_matches k a vk_k = true -> r = vk_k.
Proof.
  intros Hu Hr Hv Hmr Hmv. apply (unique_keys_row (keys db)); auto.
  unfold key_matches in *.
  apply andb_true_iff in Hmr, Hmv. destruct Hmr as [Hmr _], Hmv as [Hmv _].
  apply eq_param_param in Hmr, Hmv. congruence.
Qed.

Lemma validate_store_inv (Q : jsval -> Prop) (e : env) (db : database)
    (b : Body.t) :
  (truthy (Body.hwid b) = true -> Q (Body.hwid b)) ->
  store_inv Q db -> store_inv Q (fst (case_validate_key e db b)).
Proof.
  intros HQ Hinv. unfold case_validate_key.
  destruct (missing _) eqn:Hmiss; [exact Hinv|].
  destruct (select_app_by_key db (Body.api b)) as [|ap apps]; [exact Hinv|].
  destruct (select_key db (Body.key b) (Body.api b)) as [|vk_k rest] eqn:Hsel;
    [exact Hinv|].
  destruct (match Key.banned vk_k with Some f => f | None => false end);
    [exact Hinv|].
  destruct (Key.expires_at vk_k <? clock e); [exact Hinv|].
  destruct (bound_hwids vk_k) as [hs|] eqn:Hhs; [|exact Hinv].
  destruct (existsb _ hs) eqn:Hnot; [exact Hinv|].
  destruct (effective_limit vk_k <=? _) eqn:Hlim; [exact Hinv|].
  cbn [fst]. apply store_inv_update; [apply bind_row_identity| |exact Hinv].
  intros r Hin Hm Hr.
  destruct (select_key_head _ _ _ _ _ Hsel) as [Hvin Hvm].
  assert (r = vk_k) by (eapply same_key_same_row; eauto; apply Hinv).
  subst r. apply missing3_truthy in Hmiss.
  apply row_inv_bind; auto.
Qed.

Lemma NoDup_snoc {A} (l : list A) (x : A) :
  NoDup l -> ~ In x l -> NoDup (l ++ [x]).
Proof.
  intros Hl Hx. apply NoDup_app; [exact Hl|repeat constructor; auto|].
  intros y Hy [<- | []]. contradiction.
Qed.

Lemma step_store_inv (Q : jsval -> Prop) (e : env) (db : database) (ev : event) :
  (truthy (Body.hwid (request_body ev)) = true ->
   Q (Body.hwid (request_body ev))) ->
  store_inv Q db -> store_inv Q (fst (handler e db ev)).
Proof.
  intros HQ Hinv. apply handler_cases; try (intros; exact Hinv).
  - unfold case_create_app. branches; try exact Hinv.
    frames_by insert_app_frame insert_key_frame insert_support_frame.
    eapply store_inv_keys; [|exact Hinv]. assumption.
  - unfold case_delete_app. branches; try exact Hinv.
    eapply store_inv_filter; [reflexivity|exact Hinv].
  - unfold case_create_key. branches; try exact Hinv.
   
    frames_by insert_app_frame insert_key_frame insert_support_frame.
    cbn [fst].
    destruct Hinv as [Hu Hr]. unfold store_inv, unique_keys.
    match goal with H : keys _ = _ |- _ => rewrite H end.
    split.
    + rewrite map_app. cbn [map fresh_key Key.key]. apply NoDup_snoc; [exact Hu|].
      intros Hin. apply in_map_iff in Hin. destruct Hin as (r & Hk & Hin).
      match goal with H : existsb _ (keys db) = false |- _ =>
        rewrite <- not_true_iff_false in H; apply H end.
      apply existsb_exists. exists r. split; [exact Hin|].
      now apply String.eqb_eq.
    + apply Forall_app. split; [exact Hr|]. constructor; [|constructor].
      apply row_inv_fresh. apply ck_limit_nonzero.
  - unfold case_delete_key. branches; try exact Hinv;
      (eapply store_inv_filter; [reflexivity|exact Hinv]).
  - unfold case_ban_key. branches; try exact Hinv;
      (apply store_inv_update;
       [apply ban_row_identity|intros; now apply row_inv_ban|exact Hinv]).
  - unfold case_reset_hwid. branches; try exact Hinv;
      (apply store_inv_update;
       [apply reset_row_identity|intros; now apply row_inv_reset|exact Hinv]).
  - unfold case_add_support. branches; try exact Hinv.
    frames_by insert_app_frame insert_key_frame insert_support_frame.
    eapply store_inv_keys; [|exact Hinv]. assumption.
  - unfold case_delete_support. branches; exact Hinv.
  - now apply validate_store_inv.
Qed.

Lemma initial_store_inv (Q : jsval -> Prop) (e : env) :
  store_inv Q (initializeTables e Db.empty).
Proof. split; constructor. Qed.

Lemma reachable_store_inv (allowed : event -> Prop) (Q : jsval -> Prop)
    (db : database) :
  (forall ev, allowed ev ->
              truthy (Body.hwid (request_body ev)) = true ->
              Q (Body.hwid (request_body ev))) ->
  reachable_by allowed db -> store_inv Q db.
Proof.
  intros HQ. induction 1 as [e|e db ev Hreach IH Hallowed].
  - apply initial_store_inv.
  - apply step_store_inv; auto.
Qed.

Lemma reachable_row (allowed : event -> Prop) (Q : jsval -> Prop)
    (db : database) (r : Key.row) :
  (forall ev, allowed ev ->
              truthy (Body.hwid (request_body ev)) = true ->
              Q (Body.hwid (request_body ev))) ->
  reachable_by allowed db -> In r (keys db) ->
  exists hs n,
    bound_hwids r = Some hs /\
    (Key.hwid r = None /\ hs = [] \/
     Key.hwid r = Some (Json.stringify hs) /\ hs <> []) /\
    Forall (fun h => truthy h = true /\ Q h) hs /\
    NoDup hs /\
    Key.device_limit r = Some n /\ n <> 0 /\
    (hs = [] \/ Z.of_nat (List.length hs) <= n) /\
    (hs <> [] -> Key.first_used r <> None).
Proof.
  intros HQ Hreach Hin.
  destruct (reachable_store_inv allowed Q db HQ Hreach) as [_ Hrows].
  rewrite Forall_forall in Hrows.
  destruct (Hrows r Hin) as (hs & n & Hcol & Hall & Hrest).
  exists hs, n. split; [now apply (row_inv_bound Q)|]. tauto.
Qed.

(** The bound devices of a reachable key never outnumber a positive stored
    limit; a key stored with a negative limit has none bound. *)
Lemma bound_within_limit (db : database) (r : Key.row) :
  reachable db -> In r (keys db) ->
  exists hs n,
    bound_hwids r = Some hs /\ Key.device_limit r = Some n /\ n <> 0 /\
    (hs = [] \/ Z.of_nat (List.length hs) <= n).
Proof.
  intros Hreach Hin.
  destruct (reachable_row (fun _ => True) (fun _ => True) db r) as
    (hs & n & Hb & _ & _ & _ & Hn & Hn0 & Hle & _); auto.
  exists hs, n. auto.
Qed.


(** C5.  [checkAppPermission] decides by the first rule that applies: the
    super-admin id has permission and is admin; otherwise a user with a row
    in [supports] has permission, whatever the API key, and is no admin;
    otherwise the user is no admin and has permission exactly when some
    application has the given API key and was created by the user. *)
Theorem permission_three_tiers (db : database) (user_id api_key : jsval) :
  let p := checkAppPermission db user_id api_key in
  (user_id = JStr MAIN_ADMIN_ID -> p = mk_permission true true) /\
  (user_id <> JStr MAIN_ADMIN_ID ->
   (exists s, In s (supports db) /\ param user_id = Some (Support.user_id s)) ->
   p = mk_permission true false) /\
  (user_id <> JStr MAIN_ADMIN_ID ->
   ~ (exists s, In s (supports db) /\ param user_id = Some (Support.user_id s)) ->
   isAdmin p = false /\
   (hasPermission p = true <->
    exists a, In a (applications db) /\
              param api_key = Some (App.api_key a) /\
              param user_id = Some (App.created_by a))).
Proof.
  cbv zeta. unfold checkAppPermission, checkIfAdmin.
  assert (Hsup : some_row (select_support db user_id) = true <->
                 exists s, In s (supports db) /\
                           param user_id = Some (Support.user_id s)).
  { unfold select_support. split.
    - destruct (filter _ _) as [|s l] eqn:Hf; [discriminate|]. intros _.
      assert (Hin : In s (filter (fun r => eq_param (Support.user_id r) user_id)
                                 (supports db))) by (rewrite Hf; now left).
      apply filter_In in Hin. destruct Hin as [Hin Hm].
      exists s. split; [exact Hin|now apply eq_param_param].
    - intros (s & Hin & Hp).
      assert (Hf : In s (filter (fun r => eq_param (Support.user_id r) user_id)
                                (supports db))).
      { apply filter_In. split; [exact Hin|]. unfold eq_param. rewrite Hp.
        apply String.eqb_refl. }
      destruct (filter _ _); [destruct Hf|reflexivity]. }
  assert (Hown : some_row (select_owned_app db api_key user_id) = true <->
                 exists a, In a (applications db) /\
                           param api_key = Some (App.api_key a) /\
                           param user_id = Some (App.created_by a)).
  { unfold select_owned_app. split.
    - destruct (filter _ _) as [|a l] eqn:Hf; [discriminate|]. intros _.
      assert (Hin : In a (filter (fun r => eq_param (App.api_key r) api_key &&
                                           eq_param (App.created_by r) user_id)
                                 (applications db))) by (rewrite Hf; now left).
      apply filter_In in Hin. destruct Hin as [Hin Hm].
      apply andb_true_iff in Hm. destruct Hm as [H1 H2].
      exists a. auto using eq_param_param.
    - intros (a & Hin & Hk & Hu).
      assert (Hf : In a (filter (fun r => eq_param (App.api_key r) api_key &&
                                          eq_param (App.created_by r) user_id)
                                (applications db))).
      { apply filter_In. split; [exact Hin|]. unfold eq_param. rewrite Hk, Hu.
        now rewrite !String.eqb_refl. }
      destruct (filter _ _); [destruct Hf|reflexivity]. }
  assert (Hno : user_id <> JStr MAIN_ADMIN_ID ->
                strict_eq user_id (JStr MAIN_ADMIN_ID) = false).
  { intros Hne. destruct (strict_eq user_id (JStr MAIN_ADMIN_ID)) eqn:He;
      [apply strict_eq_iff in He; contradiction|reflexivity]. }
  split; [|split].
  - intros ->. reflexivity.
  - intros Hne Hs. apply Hsup in Hs. now rewrite (Hno Hne), Hs.
  - intros Hne Hns. rewrite (Hno Hne).
    destruct (some_row (select_support db user_id)) eqn:Hs;
      [exfalso; apply Hns, Hsup; reflexivity|].
    cbn [hasPermission isAdmin]. split; [reflexivity|exact Hown].
Qed.

(** C4.  A validation leaves the [first_used] column of every row alone or
    sets it to [COALESCE(first_used, CURRENT_TIMESTAMP)]; so along every run
    of validations a recorded timestamp stays what it is; and in a reachable
    store every accepted validation leaves the key with a recorded
    timestamp: it is written by the first validation that binds a device. *)
Theorem first_used_written_once :
  (forall (e : env) (db : database) (ev : event) (i : nat) (r : Key.row),
      is_validation (e, ev) ->
      nth_error (keys db) i = Some r ->
      exists r',
        nth_error (keys (fst (handler e db ev))) i = Some r' /\
        Key.key r' = Key.key r /\
        (r' = r \/
         Key.first_used r' =
         Some (match Key.first_used r with
               | Some t => t
               | None => db_clock e
               end))) /\
  (forall (requests : list (env * event)) (db : database) (i : nat)
          (r : Key.row) (t : Z),
      Forall is_validation requests ->
      nth_error (keys db) i = Some r ->
      Key.first_used r = Some t ->
      exists r',
        nth_error (keys (run db requests)) i = Some r' /\
        Key.key r' = Key.key r /\
        Key.first_used r' = Some t) /\
  (forall (e : env) (db : database) (api key hwid info : jsval),
      reachable db ->
      accepted (snd (validate e db api key hwid info)) ->
      exists r' rest' t,
        select_key (fst (validate e db api key hwid info)) key api =
          r' :: rest' /\
        Key.first_used r' = Some t).
Proof.
  assert (Hstep : forall e db ev i r, is_validation (e, ev) ->
             nth_error (keys db) i = Some r ->
             exists r',
               nth_error (keys (fst (handler e db ev))) i = Some r' /\
               Key.key r' = Key.key r /\
               (r' = r \/
                Key.first_used r' =
                Some (match Key.first_used r with
                      | Some t => t
                      | None => db_clock e
                      end))).
  { intros e db ev i r Hv Hr. unfold is_validation in Hv. cbn [snd] in Hv.
    rewrite (handler_validate e db ev Hv). now apply validate_first_used. }
  split; [exact Hstep|]. split.
  - induction requests as [|[e ev] rs IH]; intros db i r t Hall Hr Ht.
    + exists r. auto.
    + inversion Hall as [|? ? Hv Hall']; subst. cbn [run fold_left fst snd].
      destruct (Hstep e db ev i r Hv Hr) as (r1 & Hr1 & Hk1 & Hf1).
      assert (Ht1 : Key.first_used r1 = Some t).
      { destruct Hf1 as [-> | Hf1]; [exact Ht|]. now rewrite Ht in Hf1. }
      destruct (IH _ i r1 t Hall' Hr1 Ht1) as (r' & Hr' & Hk' & Ht').
      exists r'. repeat split; [exact Hr'|congruence|exact Ht'].
  - intros e db api key hwid info Hreach [t Hacc]. rewrite validate_eq in *.
    unfold case_validate_key in *.
    cbn [validate_body Body.api Body.key Body.hwid Body.system_info] in *.
    destruct (missing _); [discriminate Hacc|].
    destruct (select_app_by_key db api); [discriminate Hacc|].
    destruct (select_key db key api) as [|vk_k rest] eqn:Hsel;
      [discriminate Hacc|].
    destruct (match Key.banned vk_k with Some f => f | None => false end);
      [discriminate Hacc|].
    destruct (Key.expires_at vk_k <? clock e); [discriminate Hacc|].
    destruct (bound_hwids vk_k) as [hs|] eqn:Hhs; [|discriminate Hacc].
    destruct (existsb _ hs) eqn:Hinc.
    + cbn [fst]. rewrite Hsel.
      destruct (select_key_head _ _ _ _ _ Hsel) as [Hin _].
      destruct (reachable_row (fun _ => True) (fun _ => True) db vk_k)
        as (hs0 & n & Hb & _ & _ & _ & _ & _ & _ & Hfu); auto.
      rewrite Hhs in Hb. injection Hb as <-.
      destruct (Key.first_used vk_k) as [t0|] eqn:Ht0; [eauto|].
      exfalso. apply Hfu; [|reflexivity]. intros ->. discriminate Hinc.
    + destruct (effective_limit vk_k <=? _); [discriminate Hacc|].
      cbn [fst]. rewrite select_key_update, Hsel by apply bind_row_identity.
      cbn [map]. destruct (Key.first_used vk_k) as [t0|] eqn:Ht0.
      * eexists _, _, t0. split; [reflexivity|].
        cbn [bind_row Key.first_used]. now rewrite Ht0.
      * eexists _, _, (db_clock e). split; [reflexivity|].
        cbn [bind_row Key.first_used]. now rewrite Ht0.
Qed.

(* ================================================================== *)
(** ** The session: examples, counterexamples and instances *)

Lemma run_reachable (allowed : event -> Prop) (requests : list (env * event)) :
  forall db, reachable_by allowed db ->
             Forall (fun r => allowed (snd r)) requests ->
             reachable_by allowed (run db requests).
Proof.
  induction requests as [|[e ev] rs IH]; intros db Hdb Hall; [exact Hdb|].
  inversion Hall; subst. cbn [run fold_left fst snd]. apply IH; [|assumption].
  now apply reach_step.
Qed.

Lemma scenario_reachable (requests : list Body.t) : reachable (scenario requests).
Proof.
  apply run_reachable; [apply reach_init|].
  apply Forall_forall. intros; exact I.
Qed.

(** C1 as stated fails.  The key has device limit 1 and H1 bound; after
    its expiry, and likewise after a ban, the bound H1 is not accepted and a
    second device H2 is not answered ['Device limit reached']. *)
Lemma device_limit_claim_fails :
  let db := scenario [new_app; new_key (JInt 1); redeem (JStr "H1") JUndefined] in
  let banned := scenario [new_app; new_key (JInt 1);
                          redeem (JStr "H1") JUndefined; ban] in
  map (fun r => (Key.device_limit r, bound_hwids r))
      (select_key db the_key app_key) = [(Some 1, Some [JStr "H1"])] /\
  validate e_late db app_key the_key (JStr "H1") JUndefined =
    (db, Reply 200 (no "Key expired") 2592002000) /\
  validate e_late db app_key the_key (JStr "H2") JUndefined =
    (db, Reply 200 (no "Key expired") 2592002000) /\
  validate e0 banned app_key the_key (JStr "H1") JUndefined =
    (banned, Reply 200 (no "Key banned") 1000) /\
  validate e0 banned app_key the_key (JStr "H2") JUndefined =
    (banned, Reply 200 (no "Key banned") 1000).
Proof. repeat split; vm_compute; reflexivity. Qed.


(** The device limit [create_key] stores: 1 when the field is absent,
    unparsable or parses to 0, and the parsed value otherwise, a negative
    one included. *)
Lemma stored_limit_of_create_key (e : env) (db : database) (b : Body.t) :
  snd (case_create_key e db b) =
    jsonResponse e 200 (mk_data true (Some "Key created") (NewKey ck_key)) ->
  exists row,
    keys (fst (case_create_key e db b)) = keys db ++ [row] /\
    Key.device_limit row =
      Some (match parseInt (Body.device_limit b) with
            | Some 0 | None => 1
            | Some n => n
            end).
Proof.
  unfold case_create_key.
  destruct (missing _); [discriminate|].
  destruct (negb _); [discriminate|].
  destruct (insert_key _ _ _ _ _ _ db) as [err|db'] eqn:Hi; [discriminate|].
  intros _. apply insert_key_frame in Hi.
  destruct Hi as (_ & _ & ks & as_ & ps & ex & Hkeys & _).
  cbn [fst]. rewrite Hkeys. eexists. split; reflexivity.
Qed.

Example parseInt_device_limit :
  parseInt JUndefined = None /\ parseInt (JStr "abc") = None /\
  parseInt (JInt 0) = Some 0 /\ parseInt (JStr "0") = Some 0 /\
  parseInt (JInt 3) = Some 3 /\ parseInt (JStr " 42px") = Some 42 /\
  parseInt (JInt (-5)) = Some (-5) /\ parseInt (JStr "-5") = Some (-5) /\
  parseInt (JStr "0x1f") = Some 31 /\ parseInt (JBool true) = None.
Proof. repeat split; reflexivity. Qed.

(** The scenario of the specification, as the handler runs it: two devices
    are bound to a key of limit 2, a third is turned away, and after the ban
    the first one is too. *)
Example two_devices_then_ban :
  let db := scenario [new_app; new_key (JInt 2);
                      redeem (JStr "H1") JUndefined;
                      redeem (JStr "H2") JUndefined] in
  map (fun r => (bound_hwids r, Key.used r)) (keys db) =
    [(Some [JStr "H1"; JStr "H2"], Some true)] /\
  snd (validate e0 db app_key the_key (JStr "H3") JUndefined) =
    Reply 200 (no "Device limit reached") 1000 /\
  snd (validate e0 (fst (handler e0 db (post ban))) app_key the_key
         (JStr "H1") JUndefined) = Reply 200 (no "Key banned") 1000.
Proof. repeat split; vm_compute; reflexivity. Qed.

(** Every [create_key] writes the same key string, so a second key is
    refused by the unique index while the first one exists. *)
Example second_key_collides :
  snd (handler e0 (scenario [new_app; new_key (JInt 2)])
         (post (new_key (JInt 1)))) =
  Fault (PgError unique_violation) 1000.
Proof. vm_compute. reflexivity. Qed.

(** C7 fails on the code: a [create_key] request with [device_limit: -5]
    (the number or the string) succeeds and stores the device limit -5. *)
Theorem negative_device_limit_is_stored :
  handler e0 (scenario [new_app]) (post (new_key (JInt (-5)))) =
    (scenario [new_app; new_key (JInt (-5))],
     Reply 200 (mk_data true (Some "Key created") (NewKey ck_key)) 1000) /\
  map Key.device_limit (keys (scenario [new_app; new_key (JInt (-5))])) =
    [Some (-5)] /\
  map Key.device_limit (keys (scenario [new_app; new_key (JStr "-5")])) =
    [Some (-5)].
Proof. repeat split; vm_compute; reflexivity. Qed.

(** C8 as stated fails.  The second device sends no system_info, is
    accepted and bound, and the stored system_info of the first device is
    replaced by NULL. *)
Lemma system_info_claim_fails :
  let db := scenario [new_app; new_key (JInt 2); redeem (JStr "H1") (JStr "PC1")] in
  map Key.system_info (keys db) = [Some "PC1"] /\
  snd (validate e0 db app_key the_key (JStr "H2") JUndefined) =
    Reply 200 (ok "Valid key") 1000 /\
  map (fun r => (bound_hwids r, Key.system_info r))
      (keys (fst (validate e0 db app_key the_key (JStr "H2") JUndefined))) =
    [(Some [JStr "H1"; JStr "H2"], None)].
Proof. repeat split; vm_compute; reflexivity. Qed.

(** C9 fails on the code: the store after [create_key] with
    [device_limit: -5] is reachable, its key has no hwid bound and the
    stored limit -5, below the size 0 of the bound set; every validation of
    it is answered ['Device limit reached']. *)
Theorem negative_limit_below_bound_size :
  let db := scenario [new_app; new_key (JInt (-5))] in
  reachable db /\
  map (fun r => (Key.device_limit r,
                 option_map (fun hs => Z.of_nat (List.length hs)) (bound_hwids r)))
      (keys db) = [(Some (-5), Some 0)] /\
  validate e0 db app_key the_key (JStr "H1") JUndefined =
    (db, Reply 200 (no "Device limit reached") 1000).
Proof.
  split; [apply scenario_reachable|]. split; vm_compute; reflexivity.
Qed.


Lemma scenario_references_ok (requests : list Body.t) :
  references_ok (scenario requests).
Proof.
  apply (reachable_references_ok (fun _ => True)). apply scenario_reachable.
Qed.

(** The session of C1: a key with device limit 2 and the devices H1 and H2;
    then a key with device limit 1 and the device H1, before and after its
    expiry. *)
Lemma device_limit_enforced_witness :
  (let db := scenario [new_app; new_key (JInt 2)] in
   let calls := [(e0, JStr "H1", JStr "PC1"); (e0, JStr "H2", JUndefined)] in
   Forall accepted (snd (validate_all db app_key the_key calls)) /\
   (exists (vk_n : Key.row) (rest_n : list Key.row),
       select_key (fst (validate_all db app_key the_key calls)) the_key app_key =
         vk_n :: rest_n /\
       bound_hwids vk_n = Some [JStr "H1"; JStr "H2"] /\
       Key.device_limit vk_n = Some 2 /\
       Key.banned vk_n = Some false /\
       Key.expires_at vk_n = 2592001000) /\
   forall (e : env) (hwid info : jsval),
     is_string hwid -> truthy hwid = true ->
     let db_n := fst (validate_all db app_key the_key calls) in
     (clock e <= 2592001000 ->
      (In hwid [JStr "H1"; JStr "H2"] ->
       validate e db_n app_key the_key hwid info =
       (db_n, jsonResponse e 200 (ok "Valid key"))) /\
      (~ In hwid [JStr "H1"; JStr "H2"] ->
       validate e db_n app_key the_key hwid info =
       (db_n, jsonResponse e 200 (no "Device limit reached")))) /\
     (2592001000 < clock e ->
      validate e db_n app_key the_key hwid info =
      (db_n, jsonResponse e 200 (no "Key expired")))) /\
  (let db := scenario [new_app; new_key (JInt 1); redeem (JStr "H1") JUndefined] in
   validate e0 db app_key the_key (JStr "H1") JUndefined =
     (db, jsonResponse e0 200 (ok "Valid key")) /\
   validate e0 db app_key the_key (JStr "H2") JUndefined =
     (db, jsonResponse e0 200 (no "Device limit reached")) /\
   validate e_late db app_key the_key (JStr "H1") JUndefined =
     (db, jsonResponse e_late 200 (no "Key expired"))).
Proof.
  cbv zeta. split.
  - let rows := eval vm_compute in
      (select_key (scenario [new_app; new_key (JInt 2)]) the_key app_key) in
    match rows with
    | ?vk_k :: ?rest =>
        apply (proj2 device_limit_enforced
                 (scenario [new_app; new_key (JInt 2)])
                 app_key the_key vk_k rest 2
                 [(e0, JStr "H1", JStr "PC1"); (e0, JStr "H2", JUndefined)])
    end.
    + apply scenario_references_ok.
    + reflexivity.
    + reflexivity.
    + vm_compute. reflexivity.
    + discriminate.
    + reflexivity.
    + reflexivity.
    + lia.
    + reflexivity.
    + repeat constructor; simpl; intuition discriminate.
    + repeat constructor; simpl; try lia; eexists; reflexivity.
  - let rows := eval vm_compute in
      (select_key (scenario [new_app; new_key (JInt 1);
                             redeem (JStr "H1") JUndefined]) the_key app_key) in
    match rows with
    | ?vk_k :: ?rest =>
        assert (Hstate : forall (e : env) (hwid : jsval),
                   is_string hwid -> truthy hwid = true -> _) by
          (intros e hwid Hs Ht;
           exact (proj1 device_limit_enforced e
                    (scenario [new_app; new_key (JInt 1);
                               redeem (JStr "H1") JUndefined])
                    app_key the_key hwid JUndefined vk_k rest 1 [JStr "H1"]
                    (scenario_references_ok _) eq_refl eq_refl Hs Ht
                    eq_refl eq_refl ltac:(lia) eq_refl
                    ltac:(repeat constructor; eexists; reflexivity) eq_refl))
    end.
    split; [|split].
    + apply (Hstate e0 (JStr "H1")); [eexists; reflexivity|reflexivity| | |].
      * discriminate.
      * simpl. lia.
      * left. reflexivity.
    + apply (Hstate e0 (JStr "H2")); [eexists; reflexivity|reflexivity| | |].
      * discriminate.
      * simpl. lia.
      * intros [H|[]]. discriminate H.
    + apply (Hstate e_late (JStr "H1")); [eexists; reflexivity|reflexivity| |].
      * discriminate.
      * simpl. lia.
Defined.

(** The session of C2: the key is banned after H1 was bound, and H1 comes
    back after the expiry. *)
Lemma banned_key_always_rejected_witness :
  let db := scenario [new_app; new_key (JInt 2);
                      redeem (JStr "H1") JUndefined; ban] in
  validate e_late db app_key the_key (JStr "H1") JUndefined =
    (db, jsonResponse e_late 200 (no "Key banned")).
Proof.
  cbv zeta.
  let rows := eval vm_compute in
    (select_key (scenario [new_app; new_key (JInt 2);
                           redeem (JStr "H1") JUndefined; ban])
                the_key app_key) in
  match rows with
  | ?vk_k :: ?rest =>
      apply (banned_key_always_rejected e_late _ app_key the_key (JStr "H1")
               JUndefined vk_k rest)
  end.
  - apply scenario_references_ok.
  - reflexivity.
  - reflexivity.
  - reflexivity.
  - vm_compute. reflexivity.
  - reflexivity.
Defined.


(** The session of C4: two more validations leave the first use at 1000. *)
Lemma first_used_written_once_witness :
  let db := scenario [new_app; new_key (JInt 2);
                      redeem (JStr "H1") (JStr "PC1")] in
  exists r',
    nth_error
      (keys (run db [(e_late, post (redeem (JStr "H2") JUndefined));
                     (e0, post (redeem (JStr "H2") JUndefined))])) 0 = Some r' /\
    Key.key r' = ck_key /\
    Key.first_used r' = Some 1000.
Proof.
  cbv zeta.
  let rows := eval vm_compute in
    (keys (scenario [new_app; new_key (JInt 2);
                     redeem (JStr "H1") (JStr "PC1")])) in
  match rows with
  | ?r :: _ =>
      apply (proj1 (proj2 first_used_written_once)
               [(e_late, post (redeem (JStr "H2") JUndefined));
                (e0, post (redeem (JStr "H2") JUndefined))]
               _ 0%nat r 1000)
  end.
  - repeat constructor.
  - vm_compute. reflexivity.
  - reflexivity.
Defined.

(** The session of C5: the super-admin, the owner and a stranger. *)
Lemma permission_three_tiers_witness :
  checkAppPermission (scenario [new_app]) admin app_key = mk_permission true true /\
  hasPermission (checkAppPermission (scenario [new_app]) owner app_key) = true /\
  hasPermission (checkAppPermission (scenario [new_app]) (JStr "u2") app_key) =
    false.
Proof.
  split; [|split].
  - apply (proj1 (permission_three_tiers (scenario [new_app]) admin app_key)).
    reflexivity.
  - apply (proj2 (permission_three_tiers (scenario [new_app]) owner app_key)).
    + discriminate.
    + intros (s & [<- | []] & Hs). discriminate Hs.
    + eexists. split; [left; reflexivity|]. split; reflexivity.
  - reflexivity.
Defined.

(** The session of C6: the super-admin asks to delete its own row. *)
Lemma main_admin_never_removed_witness :
  (exists status msg,
      handler e0 (scenario [])
        (post (support_body "delete_support" admin admin)) =
        (scenario [], jsonResponse e0 status (no msg)) /\
      (status = 400 \/ status = 403)) /\
  has_main_admin
    (run (scenario [])
         [(e0, post (support_body "delete_support" admin admin));
          (e0, post (support_body "delete_support" admin owner))]).
Proof.
  split.
  - apply (proj1 main_admin_never_removed e0 (scenario [])
             (post (support_body "delete_support" admin admin)));
      reflexivity.
  - apply (proj2 main_admin_never_removed).
    eexists. split; [left; reflexivity|reflexivity].
Defined.

(** The session of C8: H2 is bound without a system_info. *)
Lemma binding_overwrites_system_info_witness :
  let db := scenario [new_app; new_key (JInt 2);
                      redeem (JStr "H1") (JStr "PC1")] in
  exists r' rest',
    select_key (fst (validate e0 db app_key the_key (JStr "H2") JUndefined))
               the_key app_key = r' :: rest' /\
    Key.hwid r' = Some (Json.stringify [JStr "H1"; JStr "H2"]) /\
    Key.system_info r' = None.
Proof.
  cbv zeta.
  let rows := eval vm_compute in
    (select_key (scenario [new_app; new_key (JInt 2);
                           redeem (JStr "H1") (JStr "PC1")])
                the_key app_key) in
  match rows with
  | ?vk_k :: ?rest =>
      apply (binding_overwrites_system_info e0 _ app_key the_key (JStr "H2")
               JUndefined vk_k rest [JStr "H1"])
  end.
  - vm_compute. reflexivity.
  - vm_compute. reflexivity.
  - intros [H | []]. discriminate H.
  - exists 1000. vm_compute. reflexivity.
Defined.


(* ================================================================== *)
(** ** Further properties of the handler *)


Lemma handler_case (e : env) (db : database) (ev : event) (a : string) :
  Body.action (request_body ev) = JStr a ->
  handler e db ev =
  (if String.eqb a "check_support" then case_check_support e db (request_body ev)
   else if String.eqb a "test"
   then (db, jsonResponse e 200 (ok "API working with Neon!"))
   else if String.eqb a "create_app" then case_create_app e db (request_body ev)
   else if String.eqb a "delete_app" then case_delete_app e db (request_body ev)
   else if String.eqb a "create_key" then case_create_key e db (request_body ev)
   else if String.eqb a "delete_key" then case_delete_key e db (request_body ev)
   else if String.eqb a "ban_key" then case_ban_key e db (request_body ev)
   else if String.eqb a "check_key" then case_check_key e db (request_body ev)
   else if String.eqb a "reset_hwid" then case_reset_hwid e db (request_body ev)
   else if String.eqb a "get_apps" then case_get_apps e db (request_body ev)
   else if String.eqb a "get_my_apps" then case_get_my_apps e db (request_body ev)
   else if String.eqb a "get_keys" || String.eqb a "list_keys"
   then case_get_keys e db (request_body ev)
   else if String.eqb a "add_support" then case_add_support e db (request_body ev)
   else if String.eqb a "delete_support"
   then case_delete_support e db (request_body ev)
   else if String.eqb a "get_supports" then case_get_supports e db
   else if String.eqb a "validate_key" then case_validate_key e db (request_body ev)
   else if String.eqb a "check_permission"
   then case_check_permission e db (request_body ev)
   else case_default e db ev (JStr a)).
Proof.
  intros Hact. rewrite (handler_action e db ev a Hact).
  unfold dispatch. rewrite Hact. reflexivity.
Qed.

(** X1.  [initializeTables] leaves the seed row of the main admin in [supports],
    whatever the tables held; a second run changes nothing more; the
    applications and the keys are not touched; and on tables that hold the
    seed row already it changes nothing ([ON CONFLICT (user_id) DO
    NOTHING]). *)
Theorem initializeTables_is_idempotent (e e' : env) (db : database) :
  has_main_admin (initializeTables e db) /\
  initializeTables e' (initializeTables e db) = initializeTables e db /\
  applications (initializeTables e db) = applications db /\
  keys (initializeTables e db) = keys db /\
  (has_main_admin db -> initializeTables e db = db).
Proof.
  assert (Hrun : forall e0 d,
             initializeTables e0 d =
             if existsb (fun r => String.eqb (Support.user_id r) MAIN_ADMIN_ID)
                        (supports d)
             then d
             else mk (applications d) (keys d)
                     (supports d ++ [Support.mk MAIN_ADMIN_ID "system" (db_clock e0)])).
  { intros e0 d. unfold initializeTables, insert_support.
    cbn [param ToString]. change (varchar 255 MAIN_ADMIN_ID) with (Some MAIN_ADMIN_ID).
    change (varchar 255 "system") with (Some "system"). cbv beta iota.
    destruct (existsb _ (supports d)); reflexivity. }
  assert (Hseed : forall d,
             existsb (fun r => String.eqb (Support.user_id r) MAIN_ADMIN_ID)
                     (supports d) = true <-> has_main_admin d).
  { intros d. unfold has_main_admin. rewrite existsb_exists.
    split; intros (s & Hin & Hs); exists s; split; auto.
    - now apply String.eqb_eq.
    - now apply String.eqb_eq. }
  assert (Hadm : has_main_admin (initializeTables e db)).
  { rewrite Hrun. destruct (existsb _ (supports db)) eqn:Hex.
    - now apply Hseed.
    - eexists. cbn [supports]. split; [apply in_or_app; right; left; reflexivity|].
      reflexivity. }
  split; [exact Hadm|]. split.
  - rewrite (Hrun e'). now rewrite (proj2 (Hseed _) Hadm).
  - rewrite Hrun. destruct (existsb _ (supports db)) eqn:Hex.
    + repeat split; auto.
    + repeat split; auto. intros Hh. apply Hseed in Hh. congruence.
Qed.

(** *** The constraints of the schema *)

Lemma unique_snoc {A B} (col : A -> B) (rows : list A) (x : A) :
  NoDup (map col rows) -> ~ In (col x) (map col rows) ->
  NoDup (map col (rows ++ [x])).
Proof.
  intros Hu Hx. rewrite map_app. cbn [map]. now apply NoDup_snoc.
Qed.

Lemma unique_filter {A} (col : A -> string) (keep : A -> bool) (rows : list A) :
  NoDup (map col rows) -> NoDup (map col (filter keep rows)).
Proof.
  induction rows as [|r rows IH]; cbn [map filter]; intros Hu; [constructor|].
  inversion Hu as [|? ? Hr Hrows]; subst. destruct (keep r); [|auto].
  cbn [map]. constructor; [|auto].
  intros Hin. apply Hr. apply in_map_iff in Hin. destruct Hin as (y & Hy & Hin).
  apply filter_In in Hin. apply in_map_iff. exists y. tauto.
Qed.

Lemma insert_app_inv nm api_key uid now db db' :
  insert_app nm api_key uid now db = inr db' ->
  exists tn ta tu n a u,
    param nm = Some tn /\ param api_key = Some ta /\ param uid = Some tu /\
    varchar 255 tn = Some n /\ varchar 255 ta = Some a /\
    varchar 255 tu = Some u /\
    existsb (fun r => String.eqb (App.name r) n || String.eqb (App.api_key r) a)
            (applications db) = false /\
    db' = mk (applications db ++ [App.mk n a u now]) (keys db) (supports db).
Proof.
  unfold insert_app.
  destruct (param nm) as [tn|] eqn:E1; [|discriminate].
  destruct (param api_key) as [ta|] eqn:E2; [|discriminate].
  destruct (param uid) as [tu|] eqn:E3; [|discriminate].
  destruct (varchar 255 tn) as [n|] eqn:E4; [|discriminate].
  destruct (varchar 255 ta) as [a|] eqn:E5; [|discriminate].
  destruct (varchar 255 tu) as [u|] eqn:E6; [|discriminate].
  destruct (existsb _ (applications db)) eqn:Hex; [discriminate|].
  intros H. injection H as <-. exists tn, ta, tu, n, a, u. repeat split; try reflexivity; assumption.
Qed.

Lemma insert_key_inv k a p expires limit now db db' :
  insert_key k a p expires limit now db = inr db' ->
  exists tk ta tp ks as_ ps ex,
    param k = Some tk /\ param a = Some ta /\ param p = Some tp /\
    expires = Some ex /\
    varchar 255 tk = Some ks /\ varchar 255 ta = Some as_ /\
    varchar 50 tp = Some ps /\
    int4 limit = true /\ timestamp_in_range ex = true /\
    existsb (fun r => String.eqb (Key.key r) ks) (keys db) = false /\
    existsb (fun r => String.eqb (App.api_key r) as_) (applications db) = true /\
    db' = mk (applications db) (keys db ++ [fresh_key ks as_ ps now ex limit])
             (supports db).
Proof.
  unfold insert_key.
  destruct (param k) as [tk|] eqn:E1; [|discriminate].
  destruct (param a) as [ta|] eqn:E2; [|discriminate].
  destruct (param p) as [tp|] eqn:E3; [|discriminate].
  destruct expires as [ex|]; [|discriminate].
  destruct (timestamp_in_range ex) eqn:Hts; [|discriminate]. cbn [negb].
  destruct (int4 limit) eqn:Hint; [|discriminate]. cbn [negb].
  destruct (varchar 255 tk) as [ks|] eqn:E4; [|discriminate].
  destruct (varchar 255 ta) as [as_|] eqn:E5; [|discriminate].
  destruct (varchar 50 tp) as [ps|] eqn:E6; [|discriminate].
  destruct (existsb _ (keys db)) eqn:Hex; [discriminate|].
  destruct (existsb _ (applications db)) eqn:Hfk; [|discriminate]. cbn [negb].
  intros H. injection H as <-.
  exists tk, ta, tp, ks, as_, ps, ex.
  repeat split; try reflexivity; assumption.
Qed.

Lemma insert_support_inv uid by_ now db db' :
  insert_support uid by_ now db = inr db' ->
  exists tu tb u b,
    param uid = Some tu /\ param by_ = Some tb /\
    varchar 255 tu = Some u /\ varchar 255 tb = Some b /\
    existsb (fun r => String.eqb (Support.user_id r) u) (supports db) = false /\
    db' = mk (applications db) (keys db) (supports db ++ [Support.mk u b now]).
Proof.
  unfold insert_support.
  destruct (param uid) as [tu|] eqn:E1; [|discriminate].
  destruct (param by_) as [tb|] eqn:E2; [|discriminate].
  destruct (varchar 255 tu) as [u|] eqn:E3; [|discriminate].
  destruct (varchar 255 tb) as [b|] eqn:E4; [|discriminate].
  destruct (existsb _ (supports db)) eqn:Hex; [discriminate|].
  intros H. injection H as <-. exists tu, tb, u, b. repeat split; try reflexivity; assumption.
Qed.

Lemma existsb_false_each {A} (p : A -> bool) (rows : list A) (r : A) :
  existsb p rows = false -> In r rows -> p r = false.
Proof.
  intros Hex Hin. destruct (p r) eqn:Hp; [|reflexivity].
  rewrite <- Hex. symmetry. apply existsb_exists. eauto.
Qed.

Lemma insert_app_unique nm api_key uid now db db' :
  insert_app nm api_key uid now db = inr db' ->
  NoDup (map App.name (applications db)) ->
  NoDup (map App.api_key (applications db)) ->
  NoDup (map App.name (applications db')) /\
  NoDup (map App.api_key (applications db')).
Proof.
  intros H Hn Hk. apply insert_app_inv in H.
  destruct H as (tn & ta & tu & n & a & u & _ & _ & _ & _ & _ & _ & Hex & ->).
  cbn [applications].
  split; apply unique_snoc; auto; cbn; intros Hin;
    apply in_map_iff in Hin; destruct Hin as (r & Heq & Hin);
    pose proof (existsb_false_each _ _ r Hex Hin) as Hr; cbn beta in Hr;
    rewrite Heq, String.eqb_refl in Hr; [discriminate Hr|].
  now rewrite orb_true_r in Hr.
Qed.

Lemma insert_support_unique uid by_ now db db' :
  insert_support uid by_ now db = inr db' ->
  NoDup (map Support.user_id (supports db)) ->
  NoDup (map Support.user_id (supports db')).
Proof.
  intros H Hu. apply insert_support_inv in H.
  destruct H as (tu & tb & u & b & _ & _ & _ & _ & Hex & ->).
  cbn [supports]. apply unique_snoc; auto. cbn. intros Hin.
  apply in_map_iff in Hin. destruct Hin as (r & Heq & Hin).
  pose proof (existsb_false_each _ _ r Hex Hin) as Hr. cbn beta in Hr.
  now rewrite Heq, String.eqb_refl in Hr.
Qed.

Lemma step_unique_apps_supports (e : env) (db : database) (ev : event) :
  NoDup (map App.name (applications db)) /\
  NoDup (map App.api_key (applications db)) /\
  NoDup (map Support.user_id (supports db)) ->
  NoDup (map App.name (applications (fst (handler e db ev)))) /\
  NoDup (map App.api_key (applications (fst (handler e db ev)))) /\
  NoDup (map Support.user_id (supports (fst (handler e db ev)))).
Proof.
  intros (Hn & Hk & Hs).
  apply handler_cases; try (intros; cbn [fst]; auto).
  - unfold case_create_app. branches; cbn [fst]; auto.
    match goal with H : insert_app _ _ _ _ _ = inr _ |- _ =>
      pose proof (insert_app_unique _ _ _ _ _ _ H Hn Hk) as [Hn' Hk'];
      apply insert_app_frame in H; destruct H as (_ & Hsup & _) end.
    rewrite Hsup. auto.
  - unfold case_delete_app. branches; cbn [fst]; auto.
    unfold delete_app. cbn [applications supports].
    repeat split; auto using unique_filter.
  - unfold case_create_key. branches; cbn [fst]; auto.
    frames_by insert_app_frame insert_key_frame insert_support_frame.
    repeat match goal with H : _ = _ |- _ => rewrite H end. auto.
  - unfold case_delete_key. branches; cbn [fst]; auto.
  - unfold case_ban_key. branches; cbn [fst]; auto.
  - unfold case_reset_hwid. branches; cbn [fst]; auto.
  - unfold case_add_support. branches; cbn [fst]; auto.
    match goal with H : insert_support _ _ _ _ = inr _ |- _ =>
      pose proof (insert_support_unique _ _ _ _ _ H Hs) as Hs';
      apply insert_support_frame in H; destruct H as (Hap & _ & _) end.
    rewrite Hap. auto.
  - unfold case_delete_support. branches; cbn [fst]; auto;
      unfold delete_support; cbn [applications supports];
      repeat split; auto using unique_filter.
  - unfold case_validate_key. branches; cbn [fst]; auto.
Qed.

(** X2.  Every store the handler can produce from freshly initialised tables
    satisfies the constraints of the schema: application names, API keys, key
    strings and support user ids are pairwise different, and every key
    belongs to an application that exists. *)
Theorem reachable_store_is_consistent (db : database) :
  reachable db -> consistent db.
Proof.
  intros Hreach. unfold consistent.
  assert (Hu : NoDup (map App.name (applications db)) /\
               NoDup (map App.api_key (applications db)) /\
               NoDup (map Support.user_id (supports db))).
  { induction Hreach as [e|e db ev Hreach IH _].
    - unfold initializeTables, insert_support. cbn.
      repeat split; repeat constructor; auto.
    - now apply step_unique_apps_supports. }
  destruct Hu as (Hn & Hk & Hs).
  repeat split; auto.
  - apply (reachable_store_inv (fun _ => True) (fun _ => True)); auto.
  - apply (reachable_references_ok (fun _ => True)); auto.
Qed.

(** *** Requests that change nothing *)

(** X3.  A request changes the store only if it is a POST whose action is one of
    the nine that issue an INSERT, UPDATE or DELETE; every other request (an
    OPTIONS or GET, a body that is no JSON object, a reading action, an
    unknown action) leaves every table as it is. *)
Theorem only_nine_actions_change_the_store
    (e : env) (db : database) (ev : event) :
  fst (handler e db ev) = db \/
  (httpMethod ev = "POST" /\
   exists a, Body.action (request_body ev) = JStr a /\ In a mutating_actions).
Proof.
  unfold handler, request_body.
  destruct (String.eqb (httpMethod ev) "OPTIONS"); [now left|].
  assert (Hempty : fst (route e db ev Body.empty) = db).
  { unfold route. destruct (_ && _); [reflexivity|].
    unfold dispatch, case_default. cbn [Body.action Body.empty].
    destruct (String.eqb _ _); reflexivity. }
  destruct (String.eqb (httpMethod ev) "POST") eqn:Hm; [|now left].
  apply String.eqb_eq in Hm.
  destruct (body ev) as [| | |b]; try (now left).
  unfold route. destruct (_ && _); [now left|].
  unfold dispatch, case_default.
  destruct (Body.action b) as [| |x|z|a] eqn:Hact;
    try (left; destruct (String.eqb _ _); reflexivity).
  unfold mutating_actions.
  repeat match goal with
         | |- context [if String.eqb a ?lit then _ else _] =>
             destruct (String.eqb a lit) eqn:?
         | |- context [if String.eqb a ?l1 || String.eqb a ?l2 then _ else _] =>
             destruct (String.eqb a l1 || String.eqb a l2) eqn:?
         end;
    try (right; split; [exact Hm|]; exists a; split; [reflexivity|];
         match goal with H : String.eqb a _ = true |- _ =>
           apply String.eqb_eq in H; subst a; cbn; tauto end);
    left;
    unfold case_check_support, case_check_key, case_get_apps,
      case_get_my_apps, case_get_keys, case_get_supports,
      case_check_permission;
    branches; reflexivity.
Qed.

(** X4.  When [checkAppPermission] denies the user of the request the
    application of the request, each of create_key, delete_key, ban_key,
    check_key, reset_hwid, get_keys and list_keys is answered 403 ['No
    permission'], or 400 when a required field is missing; the store is
    unchanged and no row is shown. *)
Theorem no_permission_no_effect
    (e : env) (db : database) (ev : event) (a : string) :
  Body.action (request_body ev) = JStr a ->
  In a gated_actions ->
  hasPermission
    (checkAppPermission db (Body.user_id (request_body ev))
                        (Body.api (request_body ev))) = false ->
  handler e db ev = (db, jsonResponse e 403 (no "No permission")) \/
  exists msg, handler e db ev = (db, jsonResponse e 400 (no msg)).
Proof.
  intros Hact Hin Hperm. rewrite (handler_case e db ev a Hact).
  unfold gated_actions in Hin. cbn [In] in Hin.
  destruct Hin as [<- | [<- | [<- | [<- | [<- | [<- | [<- | []]]]]]]];
    cbn [String.eqb Ascii.eqb Bool.eqb orb];
    unfold case_create_key, case_delete_key, case_ban_key, case_check_key,
      case_reset_hwid, case_get_keys;
    rewrite Hperm; cbn [negb];
    destruct (missing _); eauto.
Qed.

(** X5.  The rows of [supports] change only by a request whose [admin_id] is the
    main admin: with any other [admin_id] the table is the same after the
    request, whatever the action. *)
Theorem supports_change_only_by_admin
    (e : env) (db : database) (ev : event) :
  supports (fst (handler e db ev)) = supports db \/
  Body.admin_id (request_body ev) = JStr MAIN_ADMIN_ID.
Proof.
  apply handler_cases; try (intros; now left).
  - unfold case_create_app. branches; try now left.
    frames_by insert_app_frame insert_key_frame insert_support_frame.
    left. assumption.
  - unfold case_delete_app. branches; now left.
  - unfold case_create_key. branches; try now left.
    frames_by insert_app_frame insert_key_frame insert_support_frame.
    left. assumption.
  - unfold case_delete_key. branches; now left.
  - unfold case_ban_key. branches; now left.
  - unfold case_reset_hwid. branches; now left.
  - unfold case_add_support, checkIfAdmin.
    destruct (missing _); [now left|].
    destruct (strict_eq _ _) eqn:Hadm; [|now left].
    right. now apply strict_eq_iff.
  - unfold case_delete_support, checkIfAdmin.
    destruct (missing _); [now left|].
    destruct (strict_eq (Body.admin_id _) _) eqn:Hadm; [|now left].
    right. now apply strict_eq_iff.
  - unfold case_validate_key. branches; now left.
Qed.

(** *** Deleting an application *)

Lemma NoDup_map_inj_app (db : database) (x y : App.row) :
  NoDup (map App.api_key (applications db)) ->
  In x (applications db) -> In y (applications db) ->
  App.api_key y = App.api_key x -> x = y.
Proof.
  induction (applications db) as [|z rows IH]; cbn [map]; intros Hu Hx Hy Hk;
    [destruct Hx|].
  inversion Hu as [|? ? Hz Hrows]; subst.
  destruct Hx as [-> | Hx], Hy as [-> | Hy]; auto.
  - exfalso. apply Hz. rewrite <- Hk. now apply in_map.
  - exfalso. apply Hz. rewrite Hk. now apply in_map.
Qed.


Lemma handler_delete_app e db ev :
  Body.action (request_body ev) = JStr "delete_app" ->
  handler e db ev = case_delete_app e db (request_body ev).
Proof. intros H. now rewrite (handler_case e db ev _ H). Qed.

Lemma select_name_unique db nm da_app rest :
  NoDup (map App.name (applications db)) ->
  select_app_by_name db nm = da_app :: rest -> rest = [].
Proof.
  unfold select_app_by_name. intros Hu.
  induction (applications db) as [|r rows IH]; cbn [filter]; [discriminate|].
  cbn [map] in Hu. inversion Hu as [|? ? Hr Hrows]; subst.
  destruct (eq_param (App.name r) nm) eqn:Hm; [|auto].
  intros H. injection H as -> <-.
  destruct (filter _ rows) as [|x l] eqn:Hf; [reflexivity|exfalso].
  assert (Hx : In x (filter (fun r0 => eq_param (App.name r0) nm) rows))
    by (rewrite Hf; now left).
  apply filter_In in Hx. destruct Hx as [Hx Hxm]. apply Hr.
  apply eq_param_param in Hm, Hxm.
  replace (App.name da_app) with (App.name x) by congruence.
  now apply in_map.
Qed.

(** X6.  In a store that satisfies the constraints of the schema, a delete_app
    by a user with permission on the application of that name is answered
    ['App deleted']; it removes that application and no other, removes the
    keys of that application and no other key (the cascade of the foreign
    key), and leaves [supports] alone: afterwards no application has the API
    key and no key refers to it. *)
Theorem delete_app_cascades
    (e : env) (db : database) (ev : event)
    (da_app : App.row) (rest : list App.row) :
  consistent db ->
  Body.action (request_body ev) = JStr "delete_app" ->
  truthy (Body.app_name (request_body ev)) = true ->
  truthy (Body.user_id (request_body ev)) = true ->
  select_app_by_name db (Body.app_name (request_body ev)) = da_app :: rest ->
  hasPermission
    (checkAppPermission db (Body.user_id (request_body ev))
                        (JStr (App.api_key da_app))) = true ->
  let db' := fst (handler e db ev) in
  snd (handler e db ev) = jsonResponse e 200 (ok "App deleted") /\
  (forall a, In a (applications db') <-> In a (applications db) /\ a <> da_app) /\
  (forall r, In r (keys db') <->
             In r (keys db) /\ Key.api r <> App.api_key da_app) /\
  supports db' = supports db /\
  select_app_by_key db' (JStr (App.api_key da_app)) = [] /\
  select_keys_of db' (JStr (App.api_key da_app)) = [].
Proof.
  intros (Hn & Hk & _ & _ & _) Hact Hname Huid Hsel Hperm db'.
  subst db'. rewrite (handler_delete_app e db ev Hact).
  unfold case_delete_app.
  assert (Hmiss : missing [Body.app_name (request_body ev);
                           Body.user_id (request_body ev)] = false)
    by (unfold missing; cbn; now rewrite Hname, Huid).
  rewrite Hmiss, Hsel, Hperm. cbn [negb fst snd].
  pose proof (select_name_unique _ _ _ _ Hn Hsel) as ->.
  assert (Hda : In da_app (applications db) /\
                eq_param (App.name da_app) (Body.app_name (request_body ev)) = true).
  { apply (filter_In (fun r => eq_param (App.name r)
                                           (Body.app_name (request_body ev)))).
    unfold select_app_by_name in Hsel. rewrite Hsel. now left. }
  destruct Hda as [Hda Hdm].
  assert (Hgone : forall a, In a (applications db) ->
             (eq_param (App.name a) (Body.app_name (request_body ev)) = true
              <-> a = da_app)).
  { intros a Ha. split; [|now intros ->]. intros Hm.
    assert (Hin : In a (select_app_by_name db (Body.app_name (request_body ev))))
      by (unfold select_app_by_name; apply filter_In; now split).
    rewrite Hsel in Hin. destruct Hin as [<- | []]. reflexivity. }
  assert (Happs : forall a, In a (applications
                     (delete_app (Body.app_name (request_body ev)) db)) <->
                   In a (applications db) /\ a <> da_app).
  { intros a. unfold delete_app. cbn [applications]. rewrite filter_In.
    split; intros [Ha Hm]; split; auto.
    - intros ->. now rewrite Hdm in Hm.
    - destruct (eq_param (App.name a) _) eqn:Hq; [|reflexivity].
      exfalso. apply Hm. now apply Hgone. }
  assert (Hkeys : forall r, In r (keys
                     (delete_app (Body.app_name (request_body ev)) db)) <->
                   In r (keys db) /\ Key.api r <> App.api_key da_app).
  { intros r. unfold delete_app. cbn [keys]. rewrite Hsel. cbn [existsb].
    rewrite filter_In, orb_false_r, negb_true_iff.
    split; intros [Hr Hm]; split; auto.
    - intros Heq. now rewrite Heq, String.eqb_refl in Hm.
    - destruct (String.eqb _ _) eqn:Hq; [|reflexivity].
      apply String.eqb_eq in Hq. congruence. }
  split; [reflexivity|]. split; [exact Happs|]. split; [exact Hkeys|].
  split; [reflexivity|]. split.
  - unfold select_app_by_key.
    destruct (filter _ _) as [|x l] eqn:Hf; [reflexivity|exfalso].
    assert (Hx : In x (filter (fun r => eq_param (App.api_key r)
                                         (JStr (App.api_key da_app)))
                         (applications
                            (delete_app (Body.app_name (request_body ev)) db))))
      by (rewrite Hf; now left).
    apply filter_In in Hx. destruct Hx as [Hx Hxm].
    apply Happs in Hx. destruct Hx as [Hx Hne]. apply Hne.
    apply eq_param_param in Hxm. cbn in Hxm. injection Hxm as Hxm.
    apply (NoDup_map_inj_app db); auto.
  - unfold select_keys_of.
    destruct (filter _ _) as [|x l] eqn:Hf; [reflexivity|exfalso].
    assert (Hx : In x (filter (fun r => eq_param (Key.api r)
                                         (JStr (App.api_key da_app)))
                         (keys (delete_app (Body.app_name (request_body ev)) db))))
      by (rewrite Hf; now left).
    apply filter_In in Hx. destruct Hx as [Hx Hxm].
    apply Hkeys in Hx. destruct Hx as [_ Hne]. apply Hne.
    apply eq_param_param in Hxm. cbn in Hxm. now injection Hxm.
Qed.

(** *** Bans *)

Lemma updated_row_banned f k a db r r' :
  keeps_identity f ->
  (forall x, Key.banned x = Some true -> Key.banned (f x) = Some true) ->
  unique_keys db -> In r (keys db) -> Key.banned r = Some true ->
  In r' (keys (update_key f k a db)) -> Key.key r' = Key.key r ->
  Key.banned r' = Some true.
Proof.
  intros Hf Hb Hu Hr Hban Hin Hkey. unfold update_key in Hin. cbn [keys] in Hin.
  apply in_map_iff in Hin. destruct Hin as (r0 & <- & Hin).
  assert (r0 = r).
  { apply (unique_keys_row (keys db)); auto.
    destruct (key_matches k a r0); [|exact Hkey].
    destruct (Hf r0) as [Hk0 _]. congruence. }
  subst r0. destruct (key_matches k a r); auto.
Qed.

(** X7.  No request lifts a ban: if a key is banned before a request, then
    whatever the request is, a row with that key string in the store after it
    is banned as well.  (The row can be deleted; reset_hwid leaves [banned]
    alone.) *)
Theorem no_request_lifts_a_ban
    (e : env) (db : database) (ev : event) (r r' : Key.row) :
  unique_keys db ->
  In r (keys db) -> Key.banned r = Some true ->
  In r' (keys (fst (handler e db ev))) -> Key.key r' = Key.key r ->
  Key.banned r' = Some true.
Proof.
  intros Hu Hr Hban. revert r'.
  assert (Hsame : forall r', In r' (keys db) -> Key.key r' = Key.key r ->
                             Key.banned r' = Some true).
  { intros r' Hin Hk. replace r' with r; [exact Hban|].
    now apply (unique_keys_row (keys db)). }
  apply handler_cases; try (intros; now apply Hsame).
  - unfold case_create_app. branches; try exact Hsame.
    frames_by insert_app_frame insert_key_frame insert_support_frame.
    cbn [fst]. match goal with H : keys _ = keys db |- _ => rewrite H end.
    exact Hsame.
  - unfold case_delete_app. branches; try exact Hsame.
    cbn [fst]. unfold delete_app. cbn [keys]. intros r' Hin.
    apply filter_In in Hin. now apply Hsame.
  - unfold case_create_key. branches; try exact Hsame.
    frames_by insert_app_frame insert_key_frame insert_support_frame.
    cbn [fst]. match goal with H : keys _ = _ |- _ => rewrite H end.
    intros r' Hin Hk. apply in_app_or in Hin. destruct Hin as [Hin | [<- | []]];
      [now apply Hsame|exfalso].
    cbn [fresh_key Key.key] in Hk.
    match goal with H : existsb _ (keys db) = false |- _ =>
      pose proof (existsb_false_each _ _ r H Hr) as Hno end.
    cbn beta in Hno. now rewrite <- Hk, String.eqb_refl in Hno.
  - unfold case_delete_key. branches; try exact Hsame;
      cbn [fst]; unfold delete_key; cbn [keys]; intros r' Hin;
      apply filter_In in Hin; now apply Hsame.
  - unfold case_ban_key. branches; try exact Hsame; cbn [fst]; intros r';
      now apply updated_row_banned; auto using ban_row_identity.
  - unfold case_reset_hwid. branches; try exact Hsame; cbn [fst]; intros r';
      now apply updated_row_banned; auto using reset_row_identity.
  - unfold case_add_support. branches; try exact Hsame.
    frames_by insert_app_frame insert_key_frame insert_support_frame.
    cbn [fst]. match goal with H : keys _ = keys db |- _ => rewrite H end.
    exact Hsame.
  - unfold case_delete_support. branches; exact Hsame.
  - unfold case_validate_key. branches; try exact Hsame. cbn [fst]. intros r'.
    now apply updated_row_banned; auto using bind_row_identity.
Qed.

(** X8.  A ban_key by a user with permission, on a key that exists, is answered
    ['Key banned'] and sets [banned] on the rows of the key; every validation
    of the key on the resulting store, with any hwid and at any time, is
    answered ['Key banned'] and changes nothing. *)
Theorem ban_then_validate
    (e e' : env) (db : database) (uid api key hwid info : jsval)
    (vk_k : Key.row) (rest : list Key.row) :
  references_ok db ->
  truthy uid = true -> truthy api = true -> truthy key = true ->
  truthy hwid = true ->
  hasPermission (checkAppPermission db uid api) = true ->
  select_key db key api = vk_k :: rest ->
  let banned := handler e db (post (key_body "ban_key" uid api key)) in
  snd banned = jsonResponse e 200 (ok "Key banned") /\
  select_key (fst banned) key api = ban_row vk_k :: map ban_row rest /\
  validate e' (fst banned) api key hwid info =
    (fst banned, jsonResponse e' 200 (no "Key banned")).
Proof.
  intros Hok Hu Ha Hk Hh Hperm Hsel banned. subst banned.
  change (handler e db (post (key_body "ban_key" uid api key)))
    with (case_ban_key e db (key_body "ban_key" uid api key)).
  unfold case_ban_key. cbn [key_body Body.api Body.key Body.user_id].
  rewrite missing3_false, Hperm, Hsel by assumption. cbn [negb fst snd some_row].
  assert (Hsel' : select_key (update_key ban_row key api db) key api =
                  ban_row vk_k :: map ban_row rest).
  { rewrite select_key_update, Hsel by apply ban_row_identity. reflexivity. }
  split; [reflexivity|]. split; [exact Hsel'|].
  rewrite (validate_found e' _ api key hwid info _ _
             (references_ok_update _ _ _ _ ban_row_identity Hok)
             Ha Hk Hh Hsel').
  reflexivity.
Qed.

(** *** Deleting a key *)

(** X9.  A delete_key by a user with permission removes the rows with that key
    and application and no other row; applications and supports are
    unchanged; the answer is ['Key deleted'] when a row was there and ['Key
    not found'] otherwise, with status 200 either way. *)
Theorem delete_key_removes
    (e : env) (db : database) (uid api key : jsval) :
  truthy uid = true -> truthy api = true -> truthy key = true ->
  hasPermission (checkAppPermission db uid api) = true ->
  let deleted := handler e db (post (key_body "delete_key" uid api key)) in
  select_key (fst deleted) key api = [] /\
  (forall r, In r (keys (fst deleted)) <->
             In r (keys db) /\ key_matches key api r = false) /\
  applications (fst deleted) = applications db /\
  supports (fst deleted) = supports db /\
  snd deleted =
    jsonResponse e 200 (if some_row (select_key db key api)
                        then ok "Key deleted" else no "Key not found").
Proof.
  intros Hu Ha Hk Hperm deleted. subst deleted.
  change (handler e db (post (key_body "delete_key" uid api key)))
    with (case_delete_key e db (key_body "delete_key" uid api key)).
  unfold case_delete_key. cbn [key_body Body.api Body.key Body.user_id].
  rewrite missing3_false, Hperm by assumption. cbn [negb fst snd].
  assert (Hkeys : forall r, In r (keys (delete_key key api db)) <->
                            In r (keys db) /\ key_matches key api r = false).
  { intros r. unfold delete_key. cbn [keys].
    rewrite filter_In, negb_true_iff. tauto. }
  split.
  - unfold select_key.
    destruct (filter _ _) as [|x l] eqn:Hf; [reflexivity|exfalso].
    assert (Hx : In x (filter (key_matches key api) (keys (delete_key key api db))))
      by (rewrite Hf; now left).
    apply filter_In in Hx. destruct Hx as [Hx Hm]. apply Hkeys in Hx.
    destruct Hx as [_ Hx]. congruence.
  - split; [exact Hkeys|]. repeat split.
Qed.

(** *** Statements that find no row *)

Lemma update_key_no_row f k a db :
  select_key db k a = [] -> update_key f k a db = db.
Proof.
  unfold select_key, update_key. destruct db as [apps ks sups]. cbn [keys
    applications supports]. intros H. f_equal.
  induction ks as [|r l IH]; [reflexivity|].
  cbn [filter map] in *. destruct (key_matches k a r); [discriminate|].
  now rewrite IH.
Qed.

Lemma delete_key_no_row k a db :
  select_key db k a = [] -> delete_key k a db = db.
Proof.
  unfold select_key, delete_key. destruct db as [apps ks sups]. cbn [keys
    applications supports]. intros H. f_equal.
  induction ks as [|r l IH]; [reflexivity|].
  cbn [filter negb] in *. destruct (key_matches k a r); [discriminate|].
  cbn [negb]. now rewrite IH.
Qed.

Lemma delete_support_no_row uid db :
  select_support db uid = [] -> delete_support uid db = db.
Proof.
  unfold select_support, delete_support. destruct db as [apps ks sups]. cbn [keys
    applications supports]. intros H. f_equal.
  induction sups as [|r l IH]; [reflexivity|].
  cbn [filter negb] in *. destruct (eq_param (Support.user_id r) uid);
    [discriminate|].
  cbn [negb]. now rewrite IH.
Qed.

(** X10.  A request that changes the store is answered with status 200 and
    [success: true]: every 4xx answer, every server error and every answer
    with [success: false] leaves the store as it was. *)
Theorem store_changes_only_on_success (e : env) (db : database) (ev : event) :
  fst (handler e db ev) = db \/
  exists d, snd (handler e db ev) = jsonResponse e 200 d /\ success d = true.
Proof.
  apply handler_cases; try (intros; now left).
  - unfold case_create_app. branches; try (now left). right. eexists. split; reflexivity.
  - unfold case_delete_app. branches; try (now left). right. eexists. split; reflexivity.
  - unfold case_create_key. branches; try (now left). right. eexists. split; reflexivity.
  - unfold case_delete_key. branches; try (now left).
    + right. eexists. split; reflexivity.
    + left. cbn [fst]. apply delete_key_no_row.
      destruct (select_key _ _ _); [reflexivity|discriminate].
  - unfold case_ban_key. branches; try (now left).
    + right. eexists. split; reflexivity.
    + left. cbn [fst]. apply update_key_no_row.
      destruct (select_key _ _ _); [reflexivity|discriminate].
  - unfold case_reset_hwid. branches; try (now left).
    + right. eexists. split; reflexivity.
    + left. cbn [fst]. apply update_key_no_row.
      destruct (select_key _ _ _); [reflexivity|discriminate].
  - unfold case_add_support. branches; try (now left). right. eexists. split; reflexivity.
  - unfold case_delete_support. branches; try (now left).
    + right. eexists. split; reflexivity.
    + left. cbn [fst]. apply delete_support_no_row.
      destruct (select_support _ _); [reflexivity|discriminate].
  - unfold case_validate_key. branches; try (now left). right. eexists. split; reflexivity.
Qed.

(** *** Expiry *)

(** X11.  For a key that exists and is not banned, a validation is answered ['Key
    expired'] exactly when the clock is past [expires_at]: at the instant
    [expires_at] itself the key is still valid.  An expired key is not
    changed. *)
Theorem expiry_is_strict
    (e : env) (db : database) (api key hwid info : jsval)
    (vk_k : Key.row) (rest : list Key.row) :
  references_ok db ->
  truthy api = true -> truthy key = true -> truthy hwid = true ->
  select_key db key api = vk_k :: rest ->
  Key.banned vk_k <> Some true ->
  (snd (validate e db api key hwid info) = jsonResponse e 200 (no "Key expired")
   <-> Key.expires_at vk_k < clock e) /\
  (Key.expires_at vk_k < clock e -> fst (validate e db api key hwid info) = db).
Proof.
  intros Hok Ha Hk Hh Hsel Hban.
  rewrite (validate_found e db api key hwid info vk_k rest) by assumption.
  rewrite not_banned by assumption.
  destruct (Key.expires_at vk_k <? clock e) eqn:Hex.
  - apply Z.ltb_lt in Hex. repeat split; auto.
  - apply Z.ltb_ge in Hex. split; [|lia]. split; [|lia].
    branches; cbn [snd]; discriminate.
Qed.

(** *** Requests that are no POST *)

(** X12.  The body of a GET is not parsed, so a GET never reaches a case of the
    switch with an action: whatever body and path it has, it is answered 200
    with [success: true] (the health message when the path contains
    [/health], the banner of the default case otherwise) and the store is
    unchanged. *)
Theorem get_never_reaches_an_action (e : env) (db : database) (ev : event) :
  httpMethod ev = "GET" ->
  handler e db ev =
    (db, jsonResponse e 200
           (if str_includes "/health" (path ev)
            then mk_data true (Some "API Health OK - Neon connected")
                         (Version "2.1-vercel" None)
            else mk_data true (Some "KeyAuth API running on Vercel + Neon")
                         (Version "2.1" (Some "techdavisk007")))).
Proof.
  intros Hm. unfold handler, route. rewrite Hm.
  cbn [String.eqb Ascii.eqb Bool.eqb andb].
  destruct (str_includes "/health" (path ev)); [reflexivity|].
  unfold dispatch, case_default. cbn [Body.empty Body.action]. rewrite Hm.
  reflexivity.
Qed.

(** *** [generateKey] *)

Lemma get_in_string (s : string) (i : nat) (c : ascii) :
  String.get i s = Some c -> In c (list_ascii_of_string s).
Proof.
  revert i. induction s as [|d s IH]; intros i; cbn; [discriminate|].
  destruct i as [|i]; [intros [= ->]; now left|].
  intros H. right. now apply (IH i).
Qed.

Lemma chars_get (i : nat) :
  (i < 36)%nat ->
  exists c, String.get i chars = Some c /\ In c (list_ascii_of_string chars).
Proof.
  intros Hi.
  assert (H : exists c, String.get i chars = Some c).
  { do 36 (destruct i as [|i]; [eexists; reflexivity|]). lia. }
  destruct H as (c & H). exists c. split; [exact H|].
  now apply (get_in_string chars i).
Qed.

Lemma list_ascii_append (a b : string) :
  list_ascii_of_string (a ++ b) = list_ascii_of_string a ++ list_ascii_of_string b.
Proof. induction a as [|c a IH]; cbn; [reflexivity|now rewrite IH]. Qed.

Lemma generateKey_fold (l : list nat) (acc : string) :
  Forall (fun i => (i < 36)%nat) l ->
  String.length (fold_left generateKey_step l acc) =
    (String.length acc + List.length l)%nat /\
  forall c, In c (list_ascii_of_string (fold_left generateKey_step l acc)) ->
            In c (list_ascii_of_string acc) \/ In c (list_ascii_of_string chars).
Proof.
  intros Hall. revert acc. induction Hall as [|i l Hi _ IH]; intros acc.
  - cbn. split; [lia|auto].
  - cbn [fold_left List.length]. destruct (IH (generateKey_step acc i)) as [Hlen Hin].
    destruct (chars_get i Hi) as (c & Hget & Hc).
    unfold generateKey_step in *. rewrite Hget in *.
    split.
    + rewrite Hlen, length_append. cbn. lia.
    + intros x Hx. apply Hin in Hx. destruct Hx as [Hx|Hx]; [|now right].
      rewrite list_ascii_append in Hx. apply in_app_or in Hx.
      destruct Hx as [Hx|[<-|[]]]; auto.
Qed.

(** X13.  With draws in the range of [Math.floor(Math.random() * chars.length)],
    [generateKey] returns six characters, each of them a character of
    [chars]. *)
Theorem generateKey_six_of_chars (draws : list nat) :
  Forall (fun i => (i < 36)%nat) draws -> (6 <= List.length draws)%nat ->
  String.length (generateKey draws) = 6%nat /\
  forall c, In c (list_ascii_of_string (generateKey draws)) ->
            In c (list_ascii_of_string chars).
Proof.
  intros Hall Hlen.
  assert (Hsix : Forall (fun i => (i < 36)%nat) (firstn 6 draws)).
  { rewrite <- (firstn_skipn 6 draws) in Hall. now apply Forall_app in Hall. }
  destruct (generateKey_fold (firstn 6 draws) EmptyString Hsix) as [Hl Hin].
  change (fold_left generateKey_step (firstn 6 draws) EmptyString) with (generateKey draws)
    in Hl, Hin.
  split.
  - rewrite Hl, firstn_length_le by exact Hlen. reflexivity.
  - intros c Hc. destruct (Hin c Hc) as [[]|H]. exact H.
Qed.

Lemma generateKey_six_of_chars_witness :
  String.length (generateKey [0; 35; 7; 26; 12; 30; 9]%nat) = 6%nat /\
  forall c, In c (list_ascii_of_string (generateKey [0; 35; 7; 26; 12; 30; 9]%nat)) ->
            In c (list_ascii_of_string chars).
Proof.
  apply (generateKey_six_of_chars [0; 35; 7; 26; 12; 30; 9]%nat).
  - repeat constructor.
  - simpl. lia.
Defined.

(** *** [parseInt] on the text of a number *)





(** *** Supports *)

Lemma varchar_fits (n : nat) (s : string) :
  (String.length s <= n)%nat -> varchar n s = Some s.
Proof.
  intros H. unfold varchar. apply Nat.leb_le in H. now rewrite H.
Qed.

Lemma param_truthy (v : jsval) : truthy v = true -> param v = Some (ToString v).
Proof. destruct v; cbn; congruence. Qed.

Lemma missing2_false (a b : jsval) :
  truthy a = true -> truthy b = true -> missing [a; b] = false.
Proof. intros Ha Hb. unfold missing. cbn. now rewrite Ha, Hb. Qed.

Lemma select_support_some (db : database) (uid : jsval) (s : Support.row) :
  In s (supports db) -> eq_param (Support.user_id s) uid = true ->
  some_row (select_support db uid) = true.
Proof.
  intros Hin Heq.
  assert (H : In s (select_support db uid)).
  { unfold select_support. apply filter_In. now split. }
  destruct (select_support db uid); [destruct H|reflexivity].
Qed.

(** X16.  An add_support by the main admin for a user id of at most 255
    characters is answered ['Support ... added'], or ['Already support'] with
    the store unchanged; either way the user is a support afterwards and
    [checkAppPermission] grants them every application.  Applications and
    keys are not touched. *)
Theorem add_support_grants_permission
    (e : env) (db : database) (uid api : jsval) :
  truthy uid = true -> (String.length (ToString uid) <= 255)%nat ->
  let added :=
    handler e db (post (support_body "add_support" uid (JStr MAIN_ADMIN_ID))) in
  (snd added = jsonResponse e 200 (ok ("Support " ++ ToString uid ++ " added")) \/
   snd added = jsonResponse e 200 (no "Already support") /\ fst added = db) /\
  some_row (select_support (fst added) uid) = true /\
  hasPermission (checkAppPermission (fst added) uid api) = true /\
  applications (fst added) = applications db /\ keys (fst added) = keys db.
Proof.
  intros Hu Hlen added. subst added.
  change (handler e db (post (support_body "add_support" uid (JStr MAIN_ADMIN_ID))))
    with (case_add_support e db (support_body "add_support" uid (JStr MAIN_ADMIN_ID))).
  unfold case_add_support. cbn [support_body Body.user_id Body.admin_id].
  rewrite missing2_false by (assumption || reflexivity).
  change (checkIfAdmin (JStr MAIN_ADMIN_ID)) with true. cbn [negb].
  unfold insert_support. rewrite (param_truthy uid Hu).
  cbn [param ToString]. rewrite (varchar_fits 255 (ToString uid) Hlen).
  change (varchar 255 MAIN_ADMIN_ID) with (Some MAIN_ADMIN_ID).
  assert (Hperm : forall d, some_row (select_support d uid) = true ->
                            hasPermission (checkAppPermission d uid api) = true).
  { intros d Hd. unfold checkAppPermission. rewrite Hd.
    destruct (checkIfAdmin uid); reflexivity. }
  assert (Hself : eq_param (ToString uid) uid = true).
  { unfold eq_param. rewrite (param_truthy uid Hu). apply String.eqb_refl. }
  destruct (existsb _ (supports db)) eqn:Hex.
  - cbn [fst snd]. apply existsb_exists in Hex. destruct Hex as (s & Hs & Heq).
    apply String.eqb_eq in Heq.
    assert (Hsome : some_row (select_support db uid) = true).
    { apply (select_support_some db uid s Hs). now rewrite Heq. }
    repeat split; auto.
  - cbn [fst snd].
    assert (Hsome : some_row (select_support
                      (mk (applications db) (keys db)
                          (supports db ++ [Support.mk (ToString uid) MAIN_ADMIN_ID
                                                      (db_clock e)])) uid) = true).
    { apply (select_support_some _ uid
               (Support.mk (ToString uid) MAIN_ADMIN_ID (db_clock e)));
        [|exact Hself].
      cbn [supports]. apply in_or_app. right. now left. }
    repeat split; auto.
Qed.

Lemma add_support_grants_permission_witness :
  let added :=
    handler e0 (scenario [new_app])
            (post (support_body "add_support" (JStr "u2") (JStr MAIN_ADMIN_ID))) in
  (snd added = jsonResponse e0 200 (ok ("Support " ++ ToString (JStr "u2") ++ " added")) \/
   snd added = jsonResponse e0 200 (no "Already support") /\
   fst added = scenario [new_app]) /\
  some_row (select_support (fst added) (JStr "u2")) = true /\
  hasPermission (checkAppPermission (fst added) (JStr "u2") app_key) = true /\
  applications (fst added) = applications (scenario [new_app]) /\
  keys (fst added) = keys (scenario [new_app]).
Proof.
  apply (add_support_grants_permission e0 (scenario [new_app]) (JStr "u2") app_key).
  - reflexivity.
  - simpl. lia.
Defined.

(** X17.  A delete_support by the main admin for another user removes the rows of
    that user from [supports] and no other; afterwards the user has
    permission on an application exactly when they own it, and is no admin.
    The answer is ['Support deleted'] when a row was there and ['Not found']
    otherwise. *)
Theorem delete_support_revokes_permission
    (e : env) (db : database) (uid api : jsval) :
  truthy uid = true -> uid <> JStr MAIN_ADMIN_ID ->
  let deleted :=
    handler e db (post (support_body "delete_support" uid (JStr MAIN_ADMIN_ID))) in
  snd deleted =
    jsonResponse e 200 (if some_row (select_support db uid)
                        then ok "Support deleted" else no "Not found") /\
  select_support (fst deleted) uid = [] /\
  checkAppPermission (fst deleted) uid api =
    mk_permission (some_row (select_owned_app db api uid)) false /\
  (forall s, In s (supports (fst deleted)) <->
             In s (supports db) /\ eq_param (Support.user_id s) uid = false) /\
  applications (fst deleted) = applications db /\ keys (fst deleted) = keys db.
Proof.
  intros Hu Hne deleted. subst deleted.
  change (handler e db (post (support_body "delete_support" uid (JStr MAIN_ADMIN_ID))))
    with (case_delete_support e db
            (support_body "delete_support" uid (JStr MAIN_ADMIN_ID))).
  unfold case_delete_support. cbn [support_body Body.user_id Body.admin_id].
  rewrite missing2_false by (assumption || reflexivity).
  change (checkIfAdmin (JStr MAIN_ADMIN_ID)) with true. cbn [negb].
  assert (Hna : strict_eq uid (JStr MAIN_ADMIN_ID) = false).
  { destruct (strict_eq uid (JStr MAIN_ADMIN_ID)) eqn:E; [|reflexivity].
    apply strict_eq_iff in E. contradiction. }
  rewrite Hna. cbn [fst snd].
  assert (Hin : forall s, In s (supports (delete_support uid db)) <->
                  In s (supports db) /\ eq_param (Support.user_id s) uid = false).
  { intros s. unfold delete_support. cbn [supports].
    rewrite filter_In, negb_true_iff. tauto. }
  assert (Hnone : select_support (delete_support uid db) uid = []).
  { unfold select_support.
    destruct (filter _ _) as [|x l] eqn:Hf; [reflexivity|exfalso].
    assert (Hx : In x (filter (fun r => eq_param (Support.user_id r) uid)
                              (supports (delete_support uid db))))
      by (rewrite Hf; now left).
    apply filter_In in Hx. destruct Hx as [Hx Hm]. apply Hin in Hx.
    destruct Hx as [_ Hx]. congruence. }
  split; [reflexivity|]. split; [exact Hnone|]. split.
  - unfold checkAppPermission, checkIfAdmin. rewrite Hna, Hnone. reflexivity.
  - split; [exact Hin|]. split; reflexivity.
Qed.

Lemma delete_support_revokes_permission_witness :
  let db := scenario [new_app; support_body "add_support" (JStr "u2") admin] in
  let deleted :=
    handler e0 db (post (support_body "delete_support" (JStr "u2")
                                      (JStr MAIN_ADMIN_ID))) in
  snd deleted = jsonResponse e0 200 (ok "Support deleted") /\
  checkAppPermission db (JStr "u2") app_key = mk_permission true false /\
  checkAppPermission (fst deleted) (JStr "u2") app_key = mk_permission false false.
Proof.
  cbv zeta.
  pose proof (delete_support_revokes_permission e0
                (scenario [new_app; support_body "add_support" (JStr "u2") admin])
                (JStr "u2") app_key eq_refl) as H.
  cbv zeta in H.
  split; [|split].
  - apply H. discriminate.
  - reflexivity.
  - apply H. discriminate.
Defined.

(** *** Listings *)

Section OrderDesc.
Context {A : Type} (at_ : A -> Z).

Lemma insert_desc_rows (x : A) (rows : list A) :
  Permutation (insert_desc at_ x rows) (x :: rows).
Proof.
  induction rows as [|y rows IH]; cbn [insert_desc]; [reflexivity|].
  destruct (at_ y <? at_ x); [reflexivity|].
  rewrite IH. apply perm_swap.
Qed.

Lemma order_desc_rows (rows : list A) : Permutation (order_desc at_ rows) rows.
Proof.
  induction rows as [|y rows IH]; [reflexivity|].
  unfold order_desc in *. cbn [fold_right].
  rewrite insert_desc_rows. now constructor.
Qed.

Lemma insert_desc_newest_first (x : A) (rows : list A) :
  newest_first at_ rows -> newest_first at_ (insert_desc at_ x rows).
Proof.
  unfold newest_first.
  induction rows as [|y rows IH]; intros Hs; cbn [insert_desc].
  - repeat constructor.
  - destruct (at_ y <? at_ x) eqn:Hlt.
    + apply Z.ltb_lt in Hlt. constructor; [exact Hs|].
      inversion Hs as [|? ? _ Hall]; subst. constructor; [lia|].
      eapply Forall_impl; [|exact Hall]. cbn beta. intros; lia.
    + apply Z.ltb_ge in Hlt. inversion Hs as [|? ? Hs' Hall]; subst.
      constructor; [now apply IH|].
      rewrite insert_desc_rows. now constructor.
Qed.

Lemma order_desc_newest_first (rows : list A) :
  newest_first at_ (order_desc at_ rows).
Proof.
  induction rows as [|y rows IH]; [constructor|].
  unfold order_desc in *. cbn [fold_right].
  now apply insert_desc_newest_first.
Qed.
End OrderDesc.

Lemma eq_param_truthy (col : string) (v : jsval) :
  truthy v = true -> (eq_param col v = true <-> col = ToString v).
Proof.
  intros Hv. unfold eq_param. rewrite (param_truthy v Hv). apply String.eqb_eq.
Qed.

(** X18.  For a user with permission, get_keys and its alias list_keys answer
    with the rows of [keys] whose [api] is the application of the request,
    each once, ordered by [created_at] from the newest to the oldest; the
    store is unchanged. *)
Theorem get_keys_lists_newest_first
    (e : env) (db : database) (a : string) (uid api : jsval) :
  a = "get_keys" \/ a = "list_keys" ->
  truthy uid = true -> truthy api = true ->
  hasPermission (checkAppPermission db uid api) = true ->
  exists rows,
    handler e db (post (key_body a uid api JUndefined)) =
      (db, jsonResponse e 200 (mk_data true None (Keys rows))) /\
    Permutation rows (select_keys_of db api) /\
    newest_first Key.created_at rows /\
    (forall r, In r rows <-> In r (keys db) /\ Key.api r = ToString api).
Proof.
  intros Ha Hu Hapi Hperm.
  exists (order_desc Key.created_at (select_keys_of db api)).
  split; [|split; [apply order_desc_rows|split; [apply order_desc_newest_first|]]].
  - assert (H : handler e db (post (key_body a uid api JUndefined)) =
                case_get_keys e db (key_body a uid api JUndefined))
      by (destruct Ha as [-> | ->]; reflexivity).
    rewrite H. unfold case_get_keys. cbn [key_body Body.api Body.user_id].
    now rewrite missing2_false, Hperm by assumption.
  - intros r. rewrite <- (eq_param_truthy _ api Hapi).
    change (In r (keys db) /\ eq_param (Key.api r) api = true)
      with (In r (keys db) /\ (fun k => eq_param (Key.api k) api) r = true).
    rewrite <- filter_In. fold (select_keys_of db api).
    pose proof (order_desc_rows Key.created_at (select_keys_of db api)) as Hp.
    split; intros Hr; [now apply (Permutation_in r Hp)|].
    now apply (Permutation_in r (Permutation_sym Hp)).
Qed.

Lemma get_keys_lists_newest_first_witness :
  exists rows,
    handler e0 (scenario [new_app; new_key (JInt 2)])
            (post (key_body "list_keys" owner app_key JUndefined)) =
      (scenario [new_app; new_key (JInt 2)],
       jsonResponse e0 200 (mk_data true None (Keys rows))) /\
    Permutation rows (select_keys_of (scenario [new_app; new_key (JInt 2)]) app_key) /\
    newest_first Key.created_at rows /\
    (forall r, In r rows <->
               In r (keys (scenario [new_app; new_key (JInt 2)])) /\
               Key.api r = ToString app_key).
Proof.
  apply (get_keys_lists_newest_first e0 (scenario [new_app; new_key (JInt 2)])
           "list_keys" owner app_key).
  - right. reflexivity.
  - reflexivity.
  - reflexivity.
  - reflexivity.
Defined.

(** X19.  get_apps never changes the store.  For the main admin and for a support
    it lists every application once, newest first, each with the number of
    keys whose [api] is its API key.  For every other user the query text has
    its [WHERE] clause in front of [LEFT JOIN] and the request ends in the
    server error of the catch block. *)
Theorem get_apps_lists_all_or_fails
    (e : env) (db : database) (uid : jsval) :
  truthy uid = true ->
  let answer := handler e db (post (key_body "get_apps" uid JUndefined JUndefined)) in
  fst answer = db /\
  (checkIfAdmin uid = false -> select_support db uid = [] ->
   snd answer = Fault (PgError syntax_error) (clock e)) /\
  (checkIfAdmin uid = true \/ select_support db uid <> [] ->
   exists rows,
     snd answer =
       jsonResponse e 200 (mk_data true None (AppsWithCount rows (checkIfAdmin uid))) /\
     Permutation (map fst rows) (applications db) /\
     newest_first App.created_at (map fst rows) /\
     Forall (fun r => snd r =
                      List.length (filter (fun k => String.eqb (Key.api k)
                                                      (App.api_key (fst r)))
                                          (keys db))) rows).
Proof.
  intros Hu answer. subst answer.
  change (handler e db (post (key_body "get_apps" uid JUndefined JUndefined)))
    with (case_get_apps e db (key_body "get_apps" uid JUndefined JUndefined)).
  unfold case_get_apps. cbn [key_body Body.user_id].
  assert (Hm : missing [uid] = false) by (unfold missing; cbn; now rewrite Hu).
  rewrite Hm. split; [|split].
  - destruct (_ && _); reflexivity.
  - intros Hna Hns. rewrite Hna, Hns. reflexivity.
  - intros Hor.
    assert (Hc : negb (checkIfAdmin uid) && negb (some_row (select_support db uid))
                 = false).
    { destruct Hor as [-> | Hs]; [reflexivity|].
      destruct (select_support db uid); [congruence|].
      apply andb_false_r. }
    rewrite Hc. cbn [snd]. eexists. split; [reflexivity|].
    unfold apps_with_key_count. rewrite map_map. cbn [fst]. rewrite map_id.
    split; [apply order_desc_rows|]. split; [apply order_desc_newest_first|].
    apply Forall_forall. intros r Hr. apply in_map_iff in Hr.
    destruct Hr as (ap & <- & _). reflexivity.
Qed.

Lemma get_apps_lists_all_or_fails_witness :
  let db := scenario [new_app; new_key (JInt 2)] in
  snd (handler e0 db (post (key_body "get_apps" owner JUndefined JUndefined))) =
    Fault (PgError syntax_error) (clock e0) /\
  snd (handler e0 db (post (key_body "get_apps" admin JUndefined JUndefined))) =
    jsonResponse e0 200
      (mk_data true None
         (AppsWithCount [(App.mk "Foo" "api_k3x9q0pz" "u1" 1000, 1%nat)] true)).
Proof.
  cbv zeta. split.
  - apply (get_apps_lists_all_or_fails e0 (scenario [new_app; new_key (JInt 2)])
             owner eq_refl); reflexivity.
  - reflexivity.
Defined.

(** X20.  get_supports and get_my_apps ask for no permission.  get_supports
    answers any caller with every row of [supports], newest first;
    get_my_apps answers with the applications created by the [user_id] of the
    request, newest first. *)
Theorem open_listings_newest_first
    (e : env) (db : database) (ev : event) (a : string) :
  Body.action (request_body ev) = JStr a ->
  (a = "get_supports" ->
   exists rows,
     handler e db ev = (db, jsonResponse e 200 (mk_data true None (Supports rows))) /\
     Permutation rows (supports db) /\ newest_first Support.added_at rows) /\
  (a = "get_my_apps" -> truthy (Body.user_id (request_body ev)) = true ->
   exists rows,
     handler e db ev = (db, jsonResponse e 200 (mk_data true None (Apps rows))) /\
     Permutation rows (select_apps_of db (Body.user_id (request_body ev))) /\
     newest_first App.created_at rows /\
     (forall r, In r rows <->
                In r (applications db) /\
                App.created_by r = ToString (Body.user_id (request_body ev)))).
Proof.
  intros Hact. split.
  - intros ->. rewrite (handler_case e db ev _ Hact). cbn [String.eqb Ascii.eqb
      Bool.eqb orb]. unfold case_get_supports. eexists. split; [reflexivity|].
    split; [apply order_desc_rows|apply order_desc_newest_first].
  - intros -> Hu. rewrite (handler_case e db ev _ Hact). cbn [String.eqb Ascii.eqb
      Bool.eqb orb]. unfold case_get_my_apps.
    assert (Hm : missing [Body.user_id (request_body ev)] = false)
      by (unfold missing; cbn; now rewrite Hu).
    rewrite Hm. eexists. split; [reflexivity|].
    split; [apply order_desc_rows|]. split; [apply order_desc_newest_first|].
    intros r. rewrite <- (eq_param_truthy _ _ Hu).
    change (In r (applications db) /\
            eq_param (App.created_by r) (Body.user_id (request_body ev)) = true)
      with (In r (applications db) /\
            (fun x => eq_param (App.created_by x) (Body.user_id (request_body ev))) r
            = true).
    rewrite <- filter_In. fold (select_apps_of db (Body.user_id (request_body ev))).
    pose proof (order_desc_rows App.created_at
                  (select_apps_of db (Body.user_id (request_body ev)))) as Hp.
    split; intros Hr; [now apply (Permutation_in r Hp)|].
    now apply (Permutation_in r (Permutation_sym Hp)).
Qed.

Lemma open_listings_newest_first_witness :
  exists rows,
    handler e0 (scenario [new_app])
            (post (key_body "get_supports" JUndefined JUndefined JUndefined)) =
      (scenario [new_app], jsonResponse e0 200 (mk_data true None (Supports rows))) /\
    Permutation rows (supports (scenario [new_app])) /\
    newest_first Support.added_at rows.
Proof.
  apply (open_listings_newest_first e0 (scenario [new_app])
           (post (key_body "get_supports" JUndefined JUndefined JUndefined))
           "get_supports" eq_refl).
  reflexivity.
Defined.

(** *** The quota of applications *)



Lemma count_snoc (db : database) (row : App.row) (uid : jsval) :
  getUserAppCount (mk (applications db ++ [row]) (keys db) (supports db)) uid =
  getUserAppCount db uid + (if eq_param (App.created_by row) uid then 1 else 0).
Proof.
  unfold getUserAppCount, select_apps_of. cbn [applications].
  rewrite filter_app, length_app. cbn [filter].
  destruct (eq_param (App.created_by row) uid); cbn [List.length]; lia.
Qed.






(** *** What a creation makes possible *)

Lemma select_owned_some (db : database) (api uid : jsval) (row : App.row) :
  In row (applications db) ->
  eq_param (App.api_key row) api = true ->
  eq_param (App.created_by row) uid = true ->
  some_row (select_owned_app db api uid) = true.
Proof.
  intros Hin Ha Hu.
  assert (H : In row (select_owned_app db api uid)).
  { unfold select_owned_app. apply filter_In. split; [exact Hin|].
    now rewrite Ha, Hu. }
  destruct (select_owned_app db api uid); [destruct H|reflexivity].
Qed.

(** X22.  When create_app answers ['App created'] with an API key, the key is
    ['api_'] followed by the random text, no application had it before, the
    creator has permission on it afterwards and owns one application more;
    keys and supports are unchanged. *)
Theorem creator_has_permission
    (e : env) (db db1 : database) (uid nm : jsval) (k : string) :
  handler e db (post (create_app_body uid nm)) =
    (db1, jsonResponse e 200 (mk_data true (Some "App created") (ApiKey k))) ->
  (String.length (ToString uid) <= 255)%nat ->
  (String.length (random36 e) <= 16)%nat ->
  k = ("api_" ++ random36 e)%string /\
  hasPermission (checkAppPermission db1 uid (JStr k)) = true /\
  select_app_by_key db (JStr k) = [] /\
  getUserAppCount db1 uid = getUserAppCount db uid + 1 /\
  keys db1 = keys db /\ supports db1 = supports db.
Proof.
  intros H Hlu Hlr.
  change (handler e db (post (create_app_body uid nm)))
    with (case_create_app e db (create_app_body uid nm)) in H.
  unfold case_create_app in H. cbn [create_app_body Body.app_name Body.user_id] in H.
  destruct (missing [nm; uid]) eqn:Hm; [discriminate H|].
  destruct (negb (checkIfAdmin uid) && _); [discriminate H|].
  destruct (insert_app _ _ _ _ db) as [[]|db'] eqn:Hi; try discriminate H.
  injection H as -> <-.
  assert (Hu : truthy uid = true).
  { unfold missing in Hm. cbn in Hm. destruct (truthy nm), (truthy uid);
      cbn in Hm; congruence. }
  apply insert_app_inv in Hi.
  destruct Hi as (tn & ta & tu & n & a & u & _ & Hpa & Hpu & _ & Hva & Hvu & Hex & ->).
  cbn [param ToString] in Hpa. injection Hpa as <-.
  rewrite (param_truthy uid Hu) in Hpu. injection Hpu as <-.
  assert (Hfit : varchar 255 ("api_" ++ random36 e) = Some ("api_" ++ random36 e)%string)
    by (apply varchar_fits; rewrite length_append; cbn; lia).
  change (String "a" (String "p" (String "i" (String "_" (random36 e)))))
    with ("api_" ++ random36 e)%string in *.
  rewrite Hfit in Hva. rewrite (varchar_fits 255 _ Hlu) in Hvu.
  injection Hva as <-. injection Hvu as <-.
  assert (Hself : eq_param (ToString uid) uid = true)
    by (now apply eq_param_truthy).
  split; [reflexivity|]. split; [|split; [|split]].
  - unfold checkAppPermission.
    destruct (checkIfAdmin uid); [reflexivity|].
    destruct (some_row (select_support _ uid)); [reflexivity|].
    cbn [hasPermission].
    apply (select_owned_some _ _ _
             (App.mk n ("api_" ++ random36 e) (ToString uid) (db_clock e))).
    + cbn [applications]. apply in_or_app. right. now left.
    + cbn [App.api_key eq_param param ToString]. apply String.eqb_refl.
    + exact Hself.
  - unfold select_app_by_key.
    destruct (filter _ _) as [|x l] eqn:Hf; [reflexivity|exfalso].
    assert (Hx : In x (filter (fun r => eq_param (App.api_key r)
                                          (JStr ("api_" ++ random36 e)))
                              (applications db)))
      by (rewrite Hf; now left).
    apply filter_In in Hx. destruct Hx as [Hx Hmx].
    pose proof (existsb_false_each _ _ x Hex Hx) as Hno. cbn beta in Hno.
    apply orb_false_iff in Hno. destruct Hno as [_ Hno].
    cbn [eq_param param ToString] in Hmx. exact (eq_true_false_abs _ Hmx Hno).
  - rewrite count_snoc. cbn [App.created_by]. now rewrite Hself.
  - split; reflexivity.
Qed.

Lemma creator_has_permission_witness :
  "api_k3x9q0pz" = ("api_" ++ random36 e0)%string /\
  hasPermission (checkAppPermission (scenario [new_app]) owner app_key) = true /\
  select_app_by_key (initializeTables e0 Db.empty) app_key = [] /\
  getUserAppCount (scenario [new_app]) owner =
    getUserAppCount (initializeTables e0 Db.empty) owner + 1 /\
  keys (scenario [new_app]) = keys (initializeTables e0 Db.empty) /\
  supports (scenario [new_app]) = supports (initializeTables e0 Db.empty).
Proof.
  apply (creator_has_permission e0 (initializeTables e0 Db.empty)
           (scenario [new_app]) owner (JStr "Foo") "api_k3x9q0pz").
  - reflexivity.
  - simpl. lia.
  - simpl. lia.
Defined.

Lemma select_key_fresh (db : database) (ks as_ ps : string) (now ex limit : Z)
    (api : jsval) :
  existsb (fun r => String.eqb (Key.key r) ks) (keys db) = false ->
  eq_param as_ api = true ->
  select_key (mk (applications db)
                 (keys db ++ [fresh_key ks as_ ps now ex limit]) (supports db))
             (JStr ks) api =
  [fresh_key ks as_ ps now ex limit].
Proof.
  intros Hex Ha. unfold select_key. cbn [keys]. rewrite filter_app.
  assert (Hnone : filter (key_matches (JStr ks) api) (keys db) = []).
  { induction (keys db) as [|r l IH]; [reflexivity|].
    cbn [existsb] in Hex. apply orb_false_iff in Hex. destruct Hex as [Hr Hl].
    cbn [filter]. unfold key_matches at 1. cbn [eq_param param ToString].
    rewrite Hr. cbn [andb]. now apply IH. }
  rewrite Hnone. cbn [filter app]. unfold key_matches.
  cbn [fresh_key Key.key Key.api eq_param param ToString].
  change (eq_param as_ api) with (eq_param as_ api).
  now rewrite String.eqb_refl, Ha.
Qed.

(** X23.  When create_key, sent with a whole number [d >= 0] of days as a
    JSON number, answers ['Key created'], a validation of the returned key
    for the same application, with any non-empty string as hwid, at any time
    up to [d] days after the creation, binds the hwid as the only device and
    is answered ['Valid key'] if the stored device limit is positive, and is
    answered ['Device limit reached'] without a change if it is negative. *)
Theorem created_key_is_redeemable
    (e e' : env) (db db1 : database)
    (uid api prefix device_limit hwid info : jsval) (d : Z) :
  handler e db (post (create_key_body uid api prefix (JInt d) device_limit)) =
    (db1, jsonResponse e 200 (mk_data true (Some "Key created") (NewKey ck_key))) ->
  (String.length (ToString api) <= 255)%nat ->
  0 <= d -> clock e' <= clock e + d * 86400000 ->
  is_string hwid -> truthy hwid = true ->
  validate e' db1 api (JStr ck_key) hwid info =
    if 0 <? match parseInt device_limit with
            | Some 0 | None => 1
            | Some n => n
            end
    then (update_key (bind_row (Some (Json.stringify [hwid]))
                               (param (or_else info JNull)) (db_clock e'))
                     (JStr ck_key) api db1,
          jsonResponse e' 200 (ok "Valid key"))
    else (db1, jsonResponse e' 200 (no "Device limit reached")).
Proof.
  intros H Hla _ Hclock _ Hh.
  change (handler e db
            (post (create_key_body uid api prefix (JInt d) device_limit)))
    with (case_create_key e db
            (create_key_body uid api prefix (JInt d) device_limit))
    in H.
  unfold case_create_key in H.
  cbn [create_key_body Body.api Body.prefix Body.days Body.device_limit
       Body.user_id] in H.
  destruct (missing [api; prefix; JInt d; uid]) eqn:Hm; [discriminate H|].
  destruct (negb _); [discriminate H|].
  remember (match parseInt device_limit with
            | Some 0 | None => 1
            | Some n => n
            end) as limit eqn:Hlimit.
  assert (Hnz : limit <> 0).
  { subst limit. destruct (parseInt device_limit) as [[| |]|]; discriminate. }
  destruct (insert_key _ _ _ _ _ _ db) as [err|db'] eqn:Hi; [discriminate H|].
  injection H as ->.
  assert (Ha : truthy api = true).
  { unfold missing in Hm. cbn in Hm. destruct (truthy api); [reflexivity|].
    discriminate Hm. }
  apply insert_key_inv in Hi.
  destruct Hi as (tk & ta & tp & ks & as_ & ps & ex & Hpk & Hpa & _ & Hex & Hvk
                  & Hva & _ & _ & _ & Hnew & Hfk & ->).
  cbn [param ToString] in Hpk. injection Hpk as <-.
  change (varchar 255 ck_key) with (Some ck_key) in Hvk. injection Hvk as <-.
  rewrite (param_truthy api Ha) in Hpa. injection Hpa as <-.
  rewrite (varchar_fits 255 _ Hla) in Hva. injection Hva as <-.
  cbn [ToNumber] in Hex. unfold new_Date in Hex.
  destruct (Z.abs _ <=? _); [|discriminate Hex]. injection Hex as <-.
  assert (Hself : eq_param (ToString api) api = true) by (now apply eq_param_truthy).
  rewrite validate_eq. unfold case_validate_key.
  cbn [validate_body Body.api Body.key Body.hwid Body.system_info].
  rewrite missing3_false by (assumption || reflexivity).
  apply existsb_exists in Hfk. destruct Hfk as (ap & Hap & Hkey).
  apply String.eqb_eq in Hkey.
  assert (Hin : In ap (select_app_by_key
                         (mk (applications db)
                             (keys db ++ [fresh_key ck_key (ToString api) ps
                                            (db_clock e)
                                            (clock e + d * 86400000) limit])
                             (supports db)) api)).
  { unfold select_app_by_key. cbn [applications]. apply filter_In.
    split; [exact Hap|]. now rewrite Hkey. }
  destruct (select_app_by_key _ api) as [|ap' l]; [destruct Hin|].
  rewrite (select_key_fresh db ck_key (ToString api) ps _ _ _ api Hnew Hself).
  cbn [fresh_key Key.banned Key.expires_at].
  assert (Hlive : (clock e + d * 86400000 <? clock e') = false)
    by (apply Z.ltb_ge; lia).
  rewrite Hlive. unfold bound_hwids, effective_limit.
  cbn [Key.hwid Key.device_limit existsb List.length app Z.of_nat].
  destruct limit as [|p|p]; [congruence|reflexivity|reflexivity].
Qed.

Lemma created_key_is_redeemable_witness :
  validate e0 (scenario [new_app; new_key (JInt 2)]) app_key (JStr ck_key)
           (JStr "H1") JUndefined =
    (update_key (bind_row (Some (Json.stringify [JStr "H1"]))
                          (param (or_else JUndefined JNull)) (db_clock e0))
                (JStr ck_key) app_key (scenario [new_app; new_key (JInt 2)]),
     jsonResponse e0 200 (ok "Valid key")).
Proof.
  apply (created_key_is_redeemable e0 e0 (scenario [new_app])
           (scenario [new_app; new_key (JInt 2)])
           owner app_key (JStr "PRO") (JInt 2) (JStr "H1") JUndefined 30).
  - reflexivity.
  - simpl. lia.
  - lia.
  - simpl. lia.
  - eexists. reflexivity.
  - reflexivity.
Defined.

(** *** Instances *)

Lemma reachable_store_is_consistent_witness :
  consistent (scenario [new_app; new_key (JInt 2); redeem (JStr "H1") JUndefined]).
Proof.
  apply (reachable_store_is_consistent
           (scenario [new_app; new_key (JInt 2); redeem (JStr "H1") JUndefined])).
  apply scenario_reachable.
Defined.

Lemma no_permission_no_effect_witness :
  let db := scenario [new_app; new_key (JInt 2)] in
  let ev := post (key_body "ban_key" (JStr "u2") app_key the_key) in
  handler e0 db ev = (db, jsonResponse e0 403 (no "No permission")) \/
  exists msg, handler e0 db ev = (db, jsonResponse e0 400 (no msg)).
Proof.
  cbv zeta.
  apply (no_permission_no_effect e0 (scenario [new_app; new_key (JInt 2)])
           (post (key_body "ban_key" (JStr "u2") app_key the_key)) "ban_key").
  - reflexivity.
  - simpl. tauto.
  - reflexivity.
Defined.

Lemma scenario_consistent_example :
  consistent (scenario [new_app; new_key (JInt 2)]).
Proof.
  unfold consistent. repeat split; try apply scenario_references_ok;
    vm_compute; repeat constructor; cbn; intuition discriminate.
Qed.

Lemma delete_app_cascades_witness :
  let db := scenario [new_app; new_key (JInt 2)] in
  let gone := fst (handler e0 db
                     (post (Body.mk (JStr "delete_app") owner JUndefined (JStr "Foo")
                              JUndefined JUndefined JUndefined JUndefined
                              JUndefined JUndefined JUndefined))) in
  applications gone = [] /\ keys gone = [] /\
  select_app_by_key gone app_key = [] /\ select_keys_of gone app_key = [].
Proof.
  cbv zeta.
  pose proof (delete_app_cascades e0 (scenario [new_app; new_key (JInt 2)])
                (post (Body.mk (JStr "delete_app") owner JUndefined (JStr "Foo")
                         JUndefined JUndefined JUndefined JUndefined
                         JUndefined JUndefined JUndefined))
                (App.mk "Foo" "api_k3x9q0pz" "u1" 1000) []
                scenario_consistent_example eq_refl eq_refl eq_refl eq_refl eq_refl)
    as H.
  cbv zeta in H. destruct H as (_ & _ & _ & _ & Happ & Hkeys).
  split; [reflexivity|]. split; [reflexivity|]. split; [exact Happ|exact Hkeys].
Defined.

Lemma no_request_lifts_a_ban_witness :
  let db := scenario [new_app; new_key (JInt 2); ban] in
  Forall (fun r => Key.banned r = Some true)
         (keys (fst (handler e0 db (post reset)))).
Proof.
  cbv zeta.
  let rows := eval vm_compute in
    (keys (scenario [new_app; new_key (JInt 2); ban])) in
  match rows with
  | ?r :: _ =>
      let rows' := eval vm_compute in
        (keys (fst (handler e0 (scenario [new_app; new_key (JInt 2); ban])
                            (post reset)))) in
      match rows' with
      | ?r' :: _ =>
          constructor; [|constructor];
          apply (no_request_lifts_a_ban e0
                   (scenario [new_app; new_key (JInt 2); ban]) (post reset) r r')
      end
  end.
  - vm_compute. repeat constructor. intros [].
  - left. reflexivity.
  - reflexivity.
  - left. reflexivity.
  - reflexivity.
Defined.

Lemma ban_then_validate_witness :
  let db := scenario [new_app; new_key (JInt 2); redeem (JStr "H1") JUndefined] in
  let banned := handler e0 db (post ban) in
  snd banned = jsonResponse e0 200 (ok "Key banned") /\
  validate e_late (fst banned) app_key the_key (JStr "H1") JUndefined =
    (fst banned, jsonResponse e_late 200 (no "Key banned")).
Proof.
  cbv zeta.
  let rows := eval vm_compute in
    (select_key (scenario [new_app; new_key (JInt 2);
                           redeem (JStr "H1") JUndefined]) the_key app_key) in
  match rows with
  | ?vk_k :: ?rest =>
      pose proof (ban_then_validate e0 e_late
                    (scenario [new_app; new_key (JInt 2);
                               redeem (JStr "H1") JUndefined])
                    owner app_key the_key (JStr "H1") JUndefined vk_k rest
                    (scenario_references_ok _) eq_refl eq_refl eq_refl eq_refl
                    eq_refl eq_refl) as H
  end.
  cbv zeta in H. destruct H as (Hans & _ & Hval). split; [exact Hans|exact Hval].
Defined.

Lemma delete_key_removes_witness :
  let db := scenario [new_app; new_key (JInt 2)] in
  let deleted := handler e0 db (post (key_body "delete_key" owner app_key the_key)) in
  select_key (fst deleted) the_key app_key = [] /\
  snd deleted = jsonResponse e0 200 (ok "Key deleted").
Proof.
  cbv zeta.
  pose proof (delete_key_removes e0 (scenario [new_app; new_key (JInt 2)])
                owner app_key the_key eq_refl eq_refl eq_refl eq_refl) as H.
  cbv zeta in H. destruct H as (Hsel & _ & _ & _ & Hans).
  split; [exact Hsel|exact Hans].
Defined.

Lemma expiry_is_strict_witness :
  let db := scenario [new_app; new_key (JInt 2)] in
  snd (validate e_late db app_key the_key (JStr "H1") JUndefined) =
    jsonResponse e_late 200 (no "Key expired") /\
  snd (validate (mk_env 2592001000 2592001000 "k3x9q0pz") db app_key the_key
                (JStr "H1") JUndefined) <>
    jsonResponse (mk_env 2592001000 2592001000 "k3x9q0pz") 200 (no "Key expired").
Proof.
  cbv zeta.
  let rows := eval vm_compute in
    (select_key (scenario [new_app; new_key (JInt 2)]) the_key app_key) in
  match rows with
  | ?vk_k :: ?rest =>
      split;
      [ apply (proj1 (expiry_is_strict e_late (scenario [new_app; new_key (JInt 2)])
                        app_key the_key (JStr "H1") JUndefined vk_k rest
                        (scenario_references_ok _) eq_refl eq_refl eq_refl eq_refl
                        ltac:(discriminate)))
      | intros Hx;
        apply (proj1 (expiry_is_strict
                        (mk_env 2592001000 2592001000 "k3x9q0pz")
                        (scenario [new_app; new_key (JInt 2)])
                        app_key the_key (JStr "H1") JUndefined vk_k rest
                        (scenario_references_ok _) eq_refl eq_refl eq_refl eq_refl
                        ltac:(discriminate))) in Hx ]
  end.
  - simpl. lia.
  - simpl in Hx. lia.
Defined.

Lemma get_never_reaches_an_action_witness :
  handler e0 (scenario [new_app; new_key (JInt 2)])
          (mk_event "GET" "/api/auth" (JsonObject ban)) =
    (scenario [new_app; new_key (JInt 2)],
     jsonResponse e0 200
       (mk_data true (Some "KeyAuth API running on Vercel + Neon")
                (Version "2.1" (Some "techdavisk007")))).
Proof.
  apply (get_never_reaches_an_action e0 (scenario [new_app; new_key (JInt 2)])
           (mk_event "GET" "/api/auth" (JsonObject ban))).
  reflexivity.
Defined.

(** *** The text of a key *)

Lemma step_same_key_text (e : env) (db : database) (ev : event) :
  Forall (fun r => Key.key r = ck_key) (keys db) ->
  Forall (fun r => Key.key r = ck_key) (keys (fst (handler e db ev))).
Proof.
  intros IH.
  assert (Hupd : forall f k a, keeps_identity f ->
            Forall (fun r => Key.key r = ck_key) (keys (update_key f k a db))).
  { intros f k a Hf. unfold update_key. cbn [keys]. apply Forall_forall.
    intros r Hr. apply in_map_iff in Hr. destruct Hr as (r0 & <- & Hr0).
    rewrite Forall_forall in IH.
    destruct (key_matches k a r0); [|now apply IH].
    destruct (Hf r0) as [-> _]. now apply IH. }
  apply handler_cases; try (intros; exact IH).
  - unfold case_create_app. branches; try exact IH. cbn [fst].
    frames_by insert_app_frame insert_key_frame insert_support_frame.
    match goal with H : keys _ = keys db |- _ => now rewrite H end.
  - unfold case_delete_app. branches; try exact IH. cbn [fst].
    unfold delete_app. cbn [keys]. now apply Forall_filter.
  - unfold case_create_key. branches; try exact IH. cbn [fst].
    match goal with H : insert_key _ _ _ _ _ _ _ = inr _ |- _ =>
      apply insert_key_inv in H;
      destruct H as (tk & ta & tp & ks & as_ & ps & ex & Hpk & _ & _ & _ & Hvk
                     & _ & _ & _ & _ & _ & _ & ->)
    end.
    cbn [param ToString] in Hpk. injection Hpk as <-.
    change (varchar 255 ck_key) with (Some ck_key) in Hvk. injection Hvk as <-.
    cbn [keys]. apply Forall_app. split; [exact IH|]. now constructor.
  - unfold case_delete_key. branches; try exact IH; cbn [fst];
      unfold delete_key; cbn [keys]; now apply Forall_filter.
  - unfold case_ban_key. branches; try exact IH; cbn [fst];
      apply Hupd, ban_row_identity.
  - unfold case_reset_hwid. branches; try exact IH; cbn [fst];
      apply Hupd, reset_row_identity.
  - unfold case_add_support. branches; try exact IH. cbn [fst].
    frames_by insert_app_frame insert_key_frame insert_support_frame.
    match goal with H : keys _ = keys db |- _ => now rewrite H end.
  - unfold case_delete_support. branches; exact IH.
  - unfold case_validate_key. branches; try exact IH. cbn [fst].
    apply Hupd, bind_row_identity.
Qed.

(** X24.  The template literal of [ck_key] has no substitution, so every key that
    is created has the same text; with [UNIQUE] on [keys.key], a store the
    handler can produce holds at most one key, and its text is [ck_key]. *)
Theorem store_holds_at_most_one_key (db : database) :
  reachable db ->
  Forall (fun r => Key.key r = ck_key) (keys db) /\
  (List.length (keys db) <= 1)%nat.
Proof.
  intros Hreach.
  assert (Hsame : Forall (fun r => Key.key r = ck_key) (keys db)).
  { induction Hreach as [e|e db ev Hreach IH _].
    - unfold initializeTables, insert_support. cbn. constructor.
    - now apply step_same_key_text. }
  split; [exact Hsame|].
  destruct (reachable_store_inv (fun _ => True) (fun _ => True) db
              (fun _ _ _ => I) Hreach) as [Hu _].
  unfold unique_keys in Hu.
  destruct (keys db) as [|r1 [|r2 rows]]; cbn [List.length]; try lia.
  exfalso. inversion Hsame as [|? ? H1 Hrest]; subst.
  inversion Hrest as [|? ? H2 _]; subst.
  cbn [map] in Hu. inversion Hu as [|? ? Hnot _]; subst.
  apply Hnot. left. congruence.
Qed.

Lemma store_holds_at_most_one_key_witness :
  Forall (fun r => Key.key r = ck_key)
         (keys (scenario [new_app; new_key (JInt 2); new_key (JInt 3)])) /\
  (List.length (keys (scenario [new_app; new_key (JInt 2); new_key (JInt 3)])) <= 1)%nat.
Proof.
  apply (store_holds_at_most_one_key
           (scenario [new_app; new_key (JInt 2); new_key (JInt 3)])).
  apply scenario_reachable.
Defined.

(** *** The health probe *)

Lemma prefix_iff (p s : string) :
  String.prefix p s = true <-> exists b, s = (p ++ b)%string.
Proof.
  revert s. induction p as [|c p IH]; intros s.
  - split; [intros _; now exists s|intros _; destruct s; reflexivity].
  - destruct s as [|d s]; cbn [String.prefix append].
    + split; [discriminate|intros (b & Hb); discriminate Hb].
    + destruct (ascii_dec c d) as [<- | Hne].
      * rewrite IH. split; intros (b & Hb); exists b; congruence.
      * split; [discriminate|intros (b & Hb); congruence].
Qed.

Lemma str_includes_iff (needle s : string) :
  str_includes needle s = true <-> exists a b, s = (a ++ needle ++ b)%string.
Proof.
  induction s as [|c s IH]; cbn [str_includes]; rewrite orb_true_iff, prefix_iff.
  - split.
    + intros [(b & Hb) | H]; [|discriminate]. now exists EmptyString, b.
    + intros (a & b & H). left. exists b.
      destruct a as [|x a]; [exact H|discriminate H].
  - rewrite IH. split.
    + intros [(b & Hb) | (a & b & Hab)]; [now exists EmptyString, b|].
      exists (String c a), b. cbn [append]. now rewrite Hab.
    + intros (a & b & H). destruct a as [|x a].
      * left. now exists b.
      * right. cbn [append] in H. injection H as _ H. now exists a, b.
Qed.

(** X25.  A GET is answered by the health probe exactly when its path contains
    the text [/health], at any position. *)
Theorem health_probe_matches_substring (e : env) (db : database) (ev : event) :
  httpMethod ev = "GET" ->
  (handler e db ev =
     (db, jsonResponse e 200
            (mk_data true (Some "API Health OK - Neon connected")
                     (Version "2.1-vercel" None)))
   <-> exists a b, path ev = (a ++ "/health" ++ b)%string).
Proof.
  intros Hm. rewrite <- str_includes_iff.
  unfold handler, route. rewrite Hm.
  cbn [String.eqb Ascii.eqb Bool.eqb andb].
  destruct (str_includes "/health" (path ev)); [tauto|].
  unfold dispatch, case_default. cbn [Body.empty Body.action]. rewrite Hm.
  cbn [String.eqb Ascii.eqb Bool.eqb]. split; discriminate.
Qed.

Lemma health_probe_matches_substring_witness :
  handler e0 Db.empty (mk_event "GET" "/api/health?x=1" NoBody) =
    (Db.empty, jsonResponse e0 200
                 (mk_data true (Some "API Health OK - Neon connected")
                          (Version "2.1-vercel" None))).
Proof.
  apply (health_probe_matches_substring e0 Db.empty
           (mk_event "GET" "/api/health?x=1" NoBody) eq_refl).
  exists "/api", "?x=1". reflexivity.
Defined.
